(** * msds593_group32: the IMDb rating scripts

    A shallow embedding of [scripts/imdb_rating_script.py],
    [scripts/cleanup_script.py] and [scripts/merge_script.py], and the
    properties of the retrying fetcher, the progress store, the batch
    scheduler and the merge utility that hold (or fail) on that code. *)

From stdpp Require Import base decidable option list strings gmap.

Local Open Scope string_scope.
Local Open Scope list_scope.

(** * Python values, exceptions and results *)

(** The Python objects the scripts move between lists, data frames and CSV
    files.  A float is kept as a number of tenths (an IMDb rating has one
    decimal); [NaN] is the float that pandas reads for an empty cell. *)
Inductive pyval :=
| PyNone
| NaN
| PyInt (z : Z)
| PyFloat (tenths : Z)
| PyStr (s : string).

Global Instance pyval_eq_dec : EqDecision pyval.
Proof. solve_decision. Defined.

(** The exception classes that occur, all of them subclasses of
    [Exception]: the four a lookup client raises (the two of [requests],
    [Timeout] being a [RequestException]; the one of [imdb]; any other
    one) and the ones the interpreter and pandas raise. *)
Inductive exn :=
| Timeout
| RequestException
| IMDbDataAccessError
| OtherException
| NameError
| KeyError
| IndexError
| TypeError
| ValueError
| FileNotFoundError.

Global Instance exn_eq_dec : EqDecision exn.
Proof. solve_decision. Defined.

(** What a call does: it returns a value or raises. *)
Inductive result (A : Type) :=
| Ret (a : A)
| Raise (e : exn).
Arguments Ret {A} a.
Arguments Raise {A} e.

(** * Strings: [in] and [str.replace] *)

Module Str.

(** [old in s]. *)
Fixpoint contains (old s : string) : bool :=
  match s with
  | EmptyString => String.prefix old s
  | String _ s' => String.prefix old s || contains old s'
  end.

(** [s.replace(old, new)] for a non-empty [old]: the occurrences are found
    left to right and do not overlap.  [skip] counts the characters of the
    occurrence just replaced that are still to be passed over. *)
Fixpoint replace_from (old new : string) (skip : nat) (s : string) : string :=
  match s with
  | EmptyString => EmptyString
  | String c s' =>
      match skip with
      | S k => replace_from old new k s'
      | O =>
          if String.prefix old s
          then new +:+ replace_from old new (String.length old - 1) s'
          else String c (replace_from old new 0 s')
      end
  end.

Definition replace (s old new : string) : string := replace_from old new 0 s.

End Str.

(** * Python lists *)

(** [l[k] = v] for a Python integer [k]: a negative [k] counts from the end,
    anything outside [-len, len) raises [IndexError]. *)
Definition setitem {A} (l : list A) (k : Z) (v : A) : result (list A) :=
  let n := Z.of_nat (length l) in
  if bool_decide (0 ≤ k < n)%Z then Ret (<[Z.to_nat k := v]> l)
  else if bool_decide (- n ≤ k < 0)%Z then Ret (<[Z.to_nat (n + k) := v]> l)
  else Raise IndexError.

(** [l[start:]] for a Python integer [start]. *)
Definition slice_from {A} (l : list A) (start : Z) : list A :=
  let n := Z.of_nat (length l) in
  if bool_decide (0 ≤ start)%Z then drop (Z.to_nat start) l
  else drop (Z.to_nat (Z.max 0 (n + start))) l.

(** [l[a:b]] for [0 <= a <= b]. *)
Definition slice {A} (l : list A) (a b : nat) : list A := take (b - a) (drop a l).

(** [int(v)]. A float truncates towards zero; NaN and text raise
    [ValueError], [None] raises [TypeError]. *)
Definition py_int (v : pyval) : result Z :=
  match v with
  | PyInt z => Ret z
  | PyFloat t => Ret (Z.quot t 10)
  | NaN => Raise ValueError
  | PyStr _ => Raise ValueError
  | PyNone => Raise TypeError
  end.

(** The natural number a Python value is equal to ([3 == 3.0] holds), if
    any: this decides membership of a row index in a set of cells. *)
Definition as_index (v : pyval) : option nat :=
  match v with
  | PyInt z => if bool_decide (0 ≤ z)%Z then Some (Z.to_nat z) else None
  | PyFloat t =>
      if bool_decide (0 ≤ t ∧ t `mod` 10 = 0)%Z then Some (Z.to_nat (t `div` 10)) else None
  | _ => None
  end.

(** * Orders the code does not choose

    The iteration order of a Python [set], the order in which the workers
    of the pool reach the progress file and the order in which
    [as_completed] yields the futures are not fixed by the scripts.  An
    order is given by a list of picks: each pick selects the next element
    among the ones that remain; when the picks run out the rest follows in
    place.  Every list of picks gives a permutation and every permutation
    has its picks. *)
Fixpoint permute {A} (picks : list nat) (l : list A) : list A :=
  match picks with
  | [] => l
  | p :: picks' =>
      match l with
      | [] => []
      | x :: l' =>
          let i := p `mod` length l in
          match l !! i with
          | Some y => y :: permute picks' (delete i l)
          | None => l
          end
      end
  end.

(** * pandas data frames *)

Module pd.

(** A table: the column names and the rows, each row aligned with the
    columns.  A cell missing from a short row reads as NaN. *)
Record DataFrame := {
  columns : list string;
  rows : list (list pyval)
}.

Definition len (df : DataFrame) : nat := length (rows df).

(** [c in df.columns] *)
Definition has_column (c : string) (df : DataFrame) : bool :=
  bool_decide (c ∈ columns df).

Fixpoint position (c : string) (cols : list string) : option nat :=
  match cols with
  | [] => None
  | c' :: cols' => if decide (c = c') then Some 0 else S <$> position c cols'
  end.

Definition cell (row : list pyval) (p : nat) : pyval := default NaN (row !! p).

(** [row[c]] for a row of a frame with columns [cols]. *)
Definition getitem (cols : list string) (row : list pyval) (c : string) : result pyval :=
  match position c cols with
  | Some p => Ret (cell row p)
  | None => Raise KeyError
  end.

(** The value of column [c] in a row, NaN where the frame has no such
    column: how [concat] fills the columns one of its frames lacks. *)
Definition value (cols : list string) (row : list pyval) (c : string) : pyval :=
  match position c cols with
  | Some p => cell row p
  | None => NaN
  end.

Definition reindex (cols' cols : list string) (row : list pyval) : list pyval :=
  map (value cols row) cols'.

(** [df[c].tolist()] *)
Definition column (c : string) (df : DataFrame) : result (list pyval) :=
  match position c (columns df) with
  | Some p => Ret (map (λ row, cell row p) (rows df))
  | None => Raise KeyError
  end.

(** [df[c] = vals]: [ValueError] unless there is one value per row; an
    existing column is overwritten, a new one is added last. *)
Definition assign (c : string) (vals : list pyval) (df : DataFrame) : result DataFrame :=
  if bool_decide (length vals = len df) then
    match position c (columns df) with
    | Some p =>
        Ret {| columns := columns df;
               rows := zip_with (λ row v, <[p := v]> row) (rows df) vals |}
    | None =>
        Ret {| columns := columns df ++ [c];
               rows := zip_with (λ row v, reindex (columns df) (columns df) row ++ [v])
                         (rows df) vals |}
    end
  else Raise ValueError.

(** [pd.DataFrame(records)] for a list of dicts with the keys [Index],
    [Title] and [Rating]; an empty list gives a frame without columns. *)
Definition of_records (records : list (nat * pyval * pyval)) : DataFrame :=
  match records with
  | [] => {| columns := []; rows := [] |}
  | _ =>
      {| columns := ["Index"; "Title"; "Rating"];
         rows := map (λ r, [PyInt (Z.of_nat r.1.1); r.1.2; r.2]) records |}
  end.

(** [pd.concat([a, b])]: the columns of [a], then those only [b] has; the
    rows of [a], then the rows of [b]; NaN where a frame lacks a column. *)
Definition concat (a b : DataFrame) : DataFrame :=
  let cols := columns a ++ filter (λ c, c ∉ columns a) (columns b) in
  {| columns := cols;
     rows := map (reindex cols (columns a)) (rows a)
             ++ map (reindex cols (columns b)) (rows b) |}.

(** [df.rename(columns={old: new})]: a frame without [old] is unchanged. *)
Definition rename (old new : string) (df : DataFrame) : DataFrame :=
  {| columns := map (λ c, if decide (c = old) then new else c) (columns df);
     rows := rows df |}.

(** [df.drop(columns=[c])]: [KeyError] when there is no such column. *)
Definition drop_column (c : string) (df : DataFrame) : result DataFrame :=
  if has_column c df then
    let cols := filter (λ c', c' ≠ c) (columns df) in
    Ret {| columns := cols; rows := map (reindex cols (columns df)) (rows df) |}
  else Raise KeyError.

(** What [to_csv] followed by [read_csv] makes of a cell: [None] is written
    as an empty cell and read back as NaN. *)
Definition csv_cell (v : pyval) : pyval :=
  match v with
  | PyNone => NaN
  | _ => v
  end.

Definition csv (df : DataFrame) : DataFrame :=
  {| columns := columns df; rows := map (map csv_cell) (rows df) |}.

(** [pd.merge(left, right, left_on=lk, right_on=rk, how='left')] for two
    different key names, as the merge script calls it.  A column name the
    two frames share gets the suffix [_x] on the left and [_y] on the
    right.  The rows follow the left frame: each left row is paired with
    every right row of the same key, in the right frame's order, or once
    with NaN in the right columns when no right row has its key. *)
Definition suffixed (other : list string) (suffix : string) (c : string) : string :=
  if bool_decide (c ∈ other) then c +:+ suffix else c.

Definition merge_left (left right : DataFrame) (lk rk : string) : result DataFrame :=
  if has_column lk left && has_column rk right then
    let lcols := columns left in
    let rcols := columns right in
    let join (lrow : list pyval) : list (list pyval) :=
      let l := reindex lcols lcols lrow in
      match filter (λ rrow, value rcols rrow rk = value lcols lrow lk) (rows right) with
      | [] => [l ++ map (λ _, NaN) rcols]
      | matches => map (λ rrow, l ++ reindex rcols rcols rrow) matches
      end in
    Ret {| columns := map (suffixed rcols "_x") lcols ++ map (suffixed lcols "_y") rcols;
           rows := List.concat (map join (rows left)) |}
  else Raise KeyError.

End pd.

(** * The world of a run: files, and what the run does in order *)

(** What a script prints (the elapsed times are left out). *)
Inductive message :=
| RetryTimeout (title : pyval)
| RetryRequestException (e : exn)
| RetryHTTPError (e : exn)
| RetryDataAccessError (e : exn)
| RetryUnexpected (e : exn)
| Processing (batch : option nat) (k total : Z)
| MissingTitle
| MissingTitleX
| MissingTitleOrRating
| Saved (path : string)
| Merged (path : string)
| Usage
| NoSuchFile (path : string)
| Starting.

(** The observable steps of a run. *)
Inductive event :=
| SearchMovie (title : pyval)
| Update (movieID : string)
| Sleep (seconds : nat)
| Print (m : message)
| ReadCsv (path : string)
| ToCsv (path : string).

Global Instance message_eq_dec : EqDecision message.
Proof. solve_decision. Defined.
Global Instance event_eq_dec : EqDecision event.
Proof. solve_decision. Defined.

(** The files are the tables they hold: parsing and printing CSV belong to
    pandas.  The trace lists the steps in the order they happen. *)
Record world := {
  fs : gmap string pd.DataFrame;
  trace : list event
}.

(** A computation runs in a world; it returns or raises, and leaves a
    world either way. *)
Definition M (A : Type) : Type := world → result A * world.

Global Instance M_ret : MRet M := λ A a w, (Ret a, w).
Global Instance M_bind : MBind M := λ A B f m w,
  match m w with
  | (Ret a, w') => f a w'
  | (Raise e, w') => (Raise e, w')
  end.

Definition raise {A} (e : exn) : M A := λ w, (Raise e, w).

Definition lift {A} (r : result A) : M A := λ w, (r, w).

Definition emit (e : event) : M () := λ w,
  (Ret (), {| fs := fs w; trace := trace w ++ [e] |}).

Definition print (m : message) : M () := emit (Print m).

(** [os.path.exists(path)], [os.path.isfile(path)] *)
Definition path_exists (path : string) : M bool := λ w,
  (Ret (bool_decide (is_Some (fs w !! path))), w).

(** [pd.read_csv(path)] *)
Definition read_csv (path : string) : M pd.DataFrame := λ w,
  match fs w !! path with
  | Some df => (Ret df, {| fs := fs w; trace := trace w ++ [ReadCsv path] |})
  | None => (Raise FileNotFoundError, w)
  end.

(** [df.to_csv(path, index=False)] *)
Definition to_csv (df : pd.DataFrame) (path : string) : M () := λ w,
  (Ret (), {| fs := <[path := pd.csv df]> (fs w); trace := trace w ++ [ToCsv path] |}).

(** [for x in xs: body], the loop variables threaded as [acc]. *)
Fixpoint for_ {A S} (xs : list A) (acc : S) (body : S → A → M S) : M S :=
  match xs with
  | [] => mret acc
  | x :: xs' => acc' ← body acc x; for_ xs' acc' body
  end.

(** A loop whose body may [return]: [Some b] leaves the loop (and the
    function) with [b]. *)
Fixpoint for_return {A B} (xs : list A) (body : A → M (option B)) : M (option B) :=
  match xs with
  | [] => mret None
  | x :: xs' =>
      r ← body x;
      match r with
      | Some b => mret (Some b)
      | None => for_return xs' body
      end
  end.

(** ** [try] / [except]

    The class expressions of the [except] clauses are evaluated one after
    the other when the body has raised, in the namespace of the script:
    [Timeout] and [RequestException] are imported from
    [requests.exceptions], [imdb] is imported, [Exception] is a builtin;
    nothing binds [HTTPError].  A clause whose expression raises ends the
    search for a handler with that new exception. *)
Inductive class_expr :=
| Timeout_
| RequestException_
| HTTPError_
| IMDbDataAccessError_
| Exception_.

Definition eval_class (c : class_expr) : result (exn → bool) :=
  match c with
  | Timeout_ => Ret (λ e, bool_decide (e = Timeout))
  | RequestException_ => Ret (λ e, bool_decide (e = Timeout ∨ e = RequestException))
  | HTTPError_ => Raise NameError
  | IMDbDataAccessError_ => Ret (λ e, bool_decide (e = IMDbDataAccessError))
  | Exception_ => Ret (λ _, true)
  end.

Fixpoint try_except {A} (clauses : list (class_expr * (exn → M A))) (e : exn) : M A :=
  match clauses with
  | [] => raise e
  | (c, handler) :: clauses' =>
      match eval_class c with
      | Ret isinstance => if isinstance e then handler e else try_except clauses' e
      | Raise e' => raise e'
      end
  end.

Definition try_ {A} (body : M A) (clauses : list (class_expr * (exn → M A))) : M A := λ w,
  match body w with
  | (Ret a, w') => (Ret a, w')
  | (Raise e, w') => try_except clauses e w'
  end.

(** ** The lookup client

    [ia = imdb.IMDb()] is outside the scripts.  What it does for a title
    at the k-th attempt of a fetch: [search_movie] returns the list of
    matches or raises, [update] completes a movie in place or raises. *)
Record Movie := {
  movieID : string;
  data : list (string * pyval)
}.

(** [movie.get(key)] *)
Definition Movie_get (movie : Movie) (key : string) : pyval :=
  match list_find (λ kv, kv.1 = key) (data movie) with
  | Some (_, (_, v)) => v
  | None => PyNone
  end.

Record attempt := {
  search_movie_does : result (list Movie);
  update_does : Movie → result Movie
}.

Definition IMDb : Type := pyval → nat → attempt.

Definition search_movie (ia : IMDb) (k : nat) (title : pyval) : M (list Movie) :=
  emit (SearchMovie title);; lift (search_movie_does (ia title k)).

Definition update (ia : IMDb) (k : nat) (title : pyval) (movie : Movie) : M Movie :=
  emit (Update (movieID movie));; lift (update_does (ia title k) movie).

(** ** The worker pool

    [executor.submit] hands the tasks to the pool in order; the workers
    run them concurrently and share nothing but the client and the
    progress file, which they touch under [progress_lock] only.  The
    client answers by title and attempt, whoever asks and whenever, so
    the order in which the workers reach the lock decides everything but
    the interleaving of their lookups in the trace.  A run of the pool is
    the tasks executed one after the other in the order [picks] gives,
    each with its outcome (a value or an exception) kept in its future. *)
Definition run_task {A} (task : M A) : M (result A) := λ w,
  let '(r, w') := task w in (Ret r, w').

Definition run_pool {A} (picks : list nat) (tasks : list (M A)) : M (gmap nat (result A)) :=
  for_ (permute picks (imap (λ i task, (i, task)) tasks)) ∅
    (λ futures '(i, task), r ← run_task task; mret (<[i := r]> futures)).

(** [as_completed(futures)]: the futures in the order they complete. *)
Definition as_completed {A} (picks : list nat) (n : nat) (futures : gmap nat (result A))
  : list (result A) :=
  omap (λ i, futures !! i) (permute picks (seq 0 n)).

(** The orders left open in one run (see [permute]). *)
Record schedule := {
  set_order : list nat;         (* [list(a_set)] *)
  run_order : list nat;         (* the workers *)
  completion_order : list nat   (* [as_completed] *)
}.

(** [l[i]] for a natural [i]. *)
Definition getitem {A} (l : list A) (i : nat) : result A :=
  match l !! i with
  | Some x => Ret x
  | None => Raise IndexError
  end.

(** Reading a local variable that a loop may not have bound. *)
Definition local {A} (x : option A) : result A :=
  match x with
  | Some a => Ret a
  | None => Raise NameError
  end.

(** The status of the process: [sys.exit(n)] gives [n], a normal end 0, an
    uncaught exception 1. *)
Definition exit_status (r : result Z) : Z :=
  match r with
  | Ret n => n
  | Raise _ => 1
  end.

(** * scripts/imdb_rating_script.py *)

Module imdb_rating_script.

(** One pass of the retry loop: the [try] statement. *)
Definition try_once (ia : IMDb) (title : pyval) (delay : nat) (attempt : nat)
  : M (option pyval) :=
  try_
    (search_results ← search_movie ia attempt title;
     match search_results with
     | [] => mret (Some PyNone)
     | movie :: _ =>
         movie ← update ia attempt title movie;
         let rating := Movie_get movie "rating" in
         mret (Some rating)
     end)
    [ (Timeout_, λ _, print (RetryTimeout title);; emit (Sleep delay);; mret None);
      (RequestException_, λ e, print (RetryRequestException e);; emit (Sleep delay);; mret None);
      (HTTPError_, λ e, print (RetryHTTPError e);; emit (Sleep delay);; mret None);
      (IMDbDataAccessError_, λ e, print (RetryDataAccessError e);; emit (Sleep delay);; mret None);
      (Exception_, λ e, print (RetryUnexpected e);; emit (Sleep delay);; mret None) ].

Definition get_imdb_rating (ia : IMDb) (title : pyval) : M pyval :=
  let retries := 3 in
  let delay := 5 in
  r ← for_return (seq 0 retries) (try_once ia title delay);
  mret (default PyNone r).

(** The end of [process_titles]: "Save progress to CSV".  The whole of it
    runs under [progress_lock], so no other worker touches the file
    between the read and the write. *)
Definition save_progress (progress : list (nat * pyval * pyval)) (progress_file : string)
  : M () :=
  let progress_df := pd.of_records progress in
  existing ← path_exists progress_file;
  combined_df ← (if existing : bool
                 then existing_df ← read_csv progress_file;
                      mret (pd.concat existing_df progress_df)
                 else mret progress_df);
  to_csv combined_df progress_file.

Definition process_titles (ia : IMDb) (titles : list pyval) (start_index end_index : nat)
    (progress_file : string) : M (list pyval) :=
  '(ratings, progress) ← for_ (seq start_index (end_index - start_index)) ([], [])
    (λ '(ratings, progress) index,
       title ← lift (getitem titles index);
       rating ← get_imdb_rating ia title;
       (if bool_decide ((index - start_index + 1) `mod` 1 = 0)
        then print (Processing None (Z.of_nat index - Z.of_nat start_index + 1)
                      (Z.of_nat end_index - Z.of_nat start_index))
        else mret ());;
       mret (ratings ++ [rating], progress ++ [(index, title, rating)]));
  save_progress progress progress_file;;
  mret ratings.

(** [progress_df['Index'].max()] as far as [iloc] accepts it: an integer
    when the column holds integers only and at least one; an empty column
    or one with empty cells gives a float, text gives text, and the slice
    [.iloc[last_index + 1:]] raises [TypeError] on both. *)
Definition max_index (cells : list pyval) : result Z :=
  match cells with
  | [] => Raise TypeError
  | c :: cells' =>
      foldl (λ acc c,
               match acc, c with
               | Ret m, PyInt z => Ret (Z.max m z)
               | _, _ => Raise TypeError
               end)
            (match c with PyInt z => Ret z | _ => Raise TypeError end) cells'
  end.

(** The rating list: the pool and the collection of its futures. *)
Definition collect_ratings (ia : IMDb) (sched : schedule) (df_titles : list pyval)
    (titles_to_process : list pyval) (len_df : nat) (progress_file : string)
  : M (list pyval) :=
  (* Initialize the ratings list *)
  let ratings := replicate len_df PyNone in
  let batch_size := 5 in
  let num_batches := (length titles_to_process + batch_size - 1) `div` batch_size in
  let '(tasks, start_index) :=
    foldl (λ '(tasks, _) batch,
             let start_index := batch * batch_size in
             let end_index := (start_index + batch_size) `min` length titles_to_process in
             (tasks ++ [process_titles ia df_titles start_index end_index progress_file],
              Some start_index))
          ([], None) (seq 0 num_batches) in
  futures ← run_pool (run_order sched) tasks;
  for_ (as_completed (completion_order sched) num_batches futures) ratings
    (λ ratings future,
       batch_ratings ← lift future;
       for_ (imap (λ i rating, (i, rating)) batch_ratings) ratings
         (λ ratings '(i, rating),
            start_index ← lift (local start_index);
            let index := start_index + i in
            if bool_decide (index < length ratings)
            then lift (setitem ratings (Z.of_nat index) rating)
            else mret ratings)).

Definition add_imdb_ratings (ia : IMDb) (sched : schedule) (input_file : string) : M () :=
  (* Load the data *)
  df ← read_csv input_file;
  (* Check if the 'title' column exists *)
  if negb (pd.has_column "title" df) then
    print MissingTitle
  else
    (* Path for progress log *)
    let progress_file := Str.replace input_file ".csv" "_progress.csv" in
    (* Load previous progress if exists *)
    existing ← path_exists progress_file;
    titles_to_process ←
      (if existing : bool
       then progress_df ← read_csv progress_file;
            indices ← lift (pd.column "Index" progress_df);
            last_index ← lift (max_index indices);
            titles ← lift (pd.column "title" df);
            mret (slice_from titles (last_index + 1))
       else lift (pd.column "title" df));
    df_titles ← lift (pd.column "title" df);
    ratings ← collect_ratings ia sched df_titles titles_to_process (pd.len df) progress_file;
    (* Add the ratings to the DataFrame *)
    df ← lift (pd.assign "IMDB_Rating" ratings df);
    (* Save the updated DataFrame to a new CSV file *)
    let output_file := Str.replace input_file ".csv" "_Modified.csv" in
    to_csv df output_file;;
    print (Saved output_file).

Definition main (ia : IMDb) (sched : schedule) (argv : list string) : M Z :=
  if bool_decide (length argv ≠ 2) then
    print Usage;; mret 1%Z
  else
    input_file ← lift (getitem argv 1);
    isfile ← path_exists input_file;
    if negb isfile then
      print (NoSuchFile input_file);; mret 1%Z
    else
      print Starting;;
      add_imdb_ratings ia sched input_file;;
      mret 0%Z.

End imdb_rating_script.

(** * scripts/cleanup_script.py *)

Module cleanup_script.

(** One pass of the retry loop: the [try] statement. *)
Definition try_once (ia : IMDb) (title : pyval) (delay : nat) (attempt : nat)
  : M (option pyval) :=
  try_
    (search_results ← search_movie ia attempt title;
     match search_results with
     | [] => mret (Some PyNone)
     | movie :: _ =>
         movie ← update ia attempt title movie;
         let rating := Movie_get movie "rating" in
         mret (Some rating)
     end)
    [ (Timeout_, λ _, print (RetryTimeout title);; emit (Sleep delay);; mret None);
      (RequestException_, λ e, print (RetryRequestException e);; emit (Sleep delay);; mret None);
      (Exception_, λ e, print (RetryUnexpected e);; emit (Sleep delay);; mret None) ].

Definition get_imdb_rating (ia : IMDb) (title : pyval) : M pyval :=
  let retries := 3 in
  let delay := 5 in
  r ← for_return (seq 0 retries) (try_once ia title delay);
  mret (default PyNone r).

(** The end of [process_titles]: "Save progress to CSV".  The whole of it
    runs under [progress_lock], so no other worker touches the file
    between the read and the write. *)
Definition save_progress (progress : list (nat * pyval * pyval)) (progress_file : string)
  : M () :=
  let progress_df := pd.of_records progress in
  existing ← path_exists progress_file;
  combined_df ← (if existing : bool
                 then existing_df ← read_csv progress_file;
                      mret (pd.concat existing_df progress_df)
                 else mret progress_df);
  to_csv combined_df progress_file.

Definition process_titles (ia : IMDb) (titles : list pyval) (indices : list nat)
    (progress_file : string) (batch : nat) : M (list pyval) :=
  '(ratings, progress) ← for_ indices ([], [])
    (λ '(ratings, progress) index,
       title ← lift (getitem titles index);
       rating ← get_imdb_rating ia title;
       print (Processing (Some batch) (Z.of_nat index + 1) (Z.of_nat (length titles)));;
       mret (ratings ++ [rating], progress ++ [(index, title, rating)]));
  save_progress progress progress_file;;
  mret ratings.

(** [list(all_indices - set(processed_indices))] *)
Definition unprocessed (order : list nat) (len_df : nat) (processed_indices : list pyval)
  : list nat :=
  let all_indices : gset nat := list_to_set (seq 0 len_df) in
  let processed : gset nat := list_to_set (omap as_index processed_indices) in
  permute order (elements (all_indices ∖ processed)).

(** The rating list: the pool, the collection of its futures and the
    values of the progress file. *)
Definition collect_ratings (ia : IMDb) (sched : schedule) (df_titles : list pyval)
    (unprocessed_indices : list nat) (len_df : nat) (progress_file : string)
  : M (list pyval) :=
  (* Initialize the ratings list *)
  let ratings := replicate len_df PyNone in
  let batch_size := 5 in
  let num_batches := (length unprocessed_indices + batch_size - 1) `div` batch_size in
  let '(tasks, batch_indices) :=
    foldl (λ '(tasks, _) batch,
             let batch_indices :=
               slice unprocessed_indices (batch * batch_size) ((batch + 1) * batch_size) in
             (tasks ++ [process_titles ia df_titles batch_indices progress_file batch],
              Some batch_indices))
          ([], None) (seq 0 num_batches) in
  futures ← run_pool (run_order sched) tasks;
  ratings ← for_ (as_completed (completion_order sched) num_batches futures) ratings
    (λ ratings future,
       batch_ratings ← lift future;
       batch_indices ← lift (local batch_indices);
       for_ (zip batch_indices batch_ratings) ratings
         (λ ratings '(index, rating),
            if bool_decide (index < length ratings)
            then lift (setitem ratings (Z.of_nat index) rating)
            else mret ratings));
  (* Fill in ratings from progress_df *)
  existing ← path_exists progress_file;
  if existing : bool then
    progress_df ← read_csv progress_file;
    for_ (pd.rows progress_df) ratings
      (λ ratings row,
         rating ← lift (pd.getitem (pd.columns progress_df) row "Rating");
         index ← lift (pd.getitem (pd.columns progress_df) row "Index");
         index ← lift (py_int index);
         lift (setitem ratings index rating))
  else mret ratings.

Definition add_imdb_ratings (ia : IMDb) (sched : schedule) (input_file : string) : M () :=
  (* Load the data *)
  df ← read_csv input_file;
  (* Check if the 'title' column exists *)
  if negb (pd.has_column "title" df) then
    print MissingTitle
  else
    (* Path for progress log *)
    let progress_file := Str.replace input_file ".csv" "_progress.csv" in
    (* Load previous progress if exists *)
    existing ← path_exists progress_file;
    processed_indices ←
      (if existing : bool
       then progress_df ← read_csv progress_file;
            lift (pd.column "Index" progress_df)
       else mret []);
    (* Find unprocessed titles *)
    let unprocessed_indices := unprocessed (set_order sched) (pd.len df) processed_indices in
    df_titles ← lift (pd.column "title" df);
    ratings ← collect_ratings ia sched df_titles unprocessed_indices (pd.len df) progress_file;
    (* Add the ratings to the DataFrame *)
    df ← lift (pd.assign "IMDB_Rating" ratings df);
    (* Save the updated DataFrame to a new CSV file *)
    let output_file := Str.replace input_file ".csv" "_modified.csv" in
    to_csv df output_file;;
    print (Saved output_file).

Definition main (ia : IMDb) (sched : schedule) (argv : list string) : M Z :=
  if bool_decide (length argv ≠ 2) then
    print Usage;; mret 1%Z
  else
    input_file ← lift (getitem argv 1);
    isfile ← path_exists input_file;
    if negb isfile then
      print (NoSuchFile input_file);; mret 1%Z
    else
      print Starting;;
      add_imdb_ratings ia sched input_file;;
      mret 0%Z.

End cleanup_script.

(** * scripts/merge_script.py *)

Module merge_script.

Definition merge_datasets (x_file progress_file : string) : M () :=
  (* Load the data *)
  x_df ← read_csv x_file;
  progress_df ← read_csv progress_file;
  (* Check if the required columns exist *)
  if negb (pd.has_column "title" x_df) then
    print MissingTitleX
  else if negb (pd.has_column "Title" progress_df) || negb (pd.has_column "Rating" progress_df) then
    print MissingTitleOrRating
  else
    (* Rename the 'Rating' column to 'IMDB_Rating' in progress_df *)
    let progress_df := pd.rename "Rating" "IMDB_Rating" progress_df in
    (* Merge the datasets on the title and name columns *)
    merged_df ← lift (pd.merge_left x_df progress_df "title" "Title");
    (* Drop the 'Title' column as it's redundant after merging *)
    merged_df ← lift (pd.drop_column "Title" merged_df);
    (* Save the merged DataFrame to a new CSV file *)
    let output_file := Str.replace x_file ".csv" "_modified.csv" in
    to_csv merged_df output_file;;
    print (Merged output_file).

Definition main (argv : list string) : M Z :=
  if bool_decide (length argv ≠ 3) then
    print Usage;; mret 1%Z
  else
    x_file ← lift (getitem argv 1);
    progress_file ← lift (getitem argv 2);
    isfile ← path_exists x_file;
    if negb isfile then
      print (NoSuchFile x_file);; mret 1%Z
    else
      isfile ← path_exists progress_file;
      if negb isfile then
        print (NoSuchFile progress_file);; mret 1%Z
      else
        merge_datasets x_file progress_file;;
        mret 0%Z.

End merge_script.

(** * Notions the statements use *)

(** The world after some more steps. *)
Definition logged (w : world) (evs : list event) : world :=
  {| fs := fs w; trace := trace w ++ evs |}.

Definition is_lookup (e : event) : bool :=
  match e with SearchMovie _ => true | _ => false end.
Definition is_sleep (e : event) : bool :=
  match e with Sleep _ => true | _ => false end.
Definition is_write (e : event) : bool :=
  match e with ToCsv _ => true | _ => false end.

(** How often the lookup was invoked, how often the fetcher slept. *)
Definition lookups (evs : list event) : nat := length (filter is_lookup evs).
Definition sleeps (evs : list event) : nat := length (filter is_sleep evs).

(** A computation that writes no file: it leaves the files as they are
    and none of its steps is a [to_csv]. *)
Definition quiet {A} (m : M A) : Prop :=
  ∀ w r w', m w = (r, w') → ∃ evs, w' = logged w evs ∧ filter is_write evs = [].




(** What one attempt of a fetch comes to. *)
Inductive outcome :=
| Found (movie : Movie) (rest : list Movie) (updated : Movie)
| NoMatch
| Fails (e : exn) (evs : list event).

Definition outcome_of (a : attempt) (title : pyval) : outcome :=
  match search_movie_does a with
  | Ret [] => NoMatch
  | Ret (movie :: rest) =>
      match update_does a movie with
      | Ret updated => Found movie rest updated
      | Raise e => Fails e [SearchMovie title; Update (movieID movie)]
      end
  | Raise e => Fails e [SearchMovie title]
  end.

(** The attempt raises: in [search_movie] or in [update]. *)
Definition fails_with (a : attempt) (e : exn) : Prop :=
  search_movie_does a = Raise e ∨
  ∃ movie rest, search_movie_does a = Ret (movie :: rest) ∧ update_does a movie = Raise e.

(** ** Clients and files for the examples *)

(** A client that is down: every call raises [e]. *)
Definition raising (e : exn) : attempt :=
  {| search_movie_does := Raise e; update_does := λ _, Raise e |}.

(** A client that finds one movie and its rating, or nothing. *)
Definition rated (rating : pyval) : attempt :=
  {| search_movie_does := Ret [ {| movieID := "0133093"; data := [] |} ];
     update_does := λ movie,
       Ret {| movieID := movieID movie; data := [("rating", rating)] |} |}.

Definition no_match : attempt :=
  {| search_movie_does := Ret []; update_does := λ movie, Ret movie |}.

Definition catalogue : list (string * Z) :=
  [ ("Alien", 85); ("Brazil", 79); ("Casablanca", 85); ("Dune", 80);
    ("Eraserhead", 73); ("Fargo", 81); ("Gattaca", 77); ("Heat", 83);
    ("Ikiru", 83); ("Jaws", 81); ("Klute", 71); ("Laura", 79) ]%Z.

Definition ia_catalogue : IMDb := λ title _,
  match title with
  | PyStr s =>
      match list_find (λ entry, entry.1 = s) catalogue with
      | Some (_, (_, tenths)) => rated (PyFloat tenths)
      | None => no_match
      end
  | _ => no_match
  end.

(** A client whose first match has no rating. *)
Definition ia_unrated : IMDb := λ _ _,
  {| search_movie_does :=
       Ret [ {| movieID := "0133093"; data := [] |};
             {| movieID := "0234215"; data := [("rating", PyFloat 72)] |} ];
     update_does := λ movie,
       Ret {| movieID := movieID movie; data := [("kind", PyStr "movie")] |} |}.

Definition ia_down : IMDb := λ _ _, raising IMDbDataAccessError.

Definition movies (n : nat) : pd.DataFrame :=
  {| pd.columns := ["title"];
     pd.rows := map (λ entry, [PyStr entry.1]) (take n catalogue) |}.

(** The titles of [movies n], as [df['title'].tolist()] gives them. *)
Definition titles (n : nat) : list pyval := map (λ entry, PyStr entry.1) (take n catalogue).

(** The progress file of a run over [movies 12] that was stopped after
    its first batch. *)
Definition five_done : pd.DataFrame :=
  {| pd.columns := ["Index"; "Title"; "Rating"];
     pd.rows := [ [PyInt 0; PyStr "Alien"; PyFloat 85];
                  [PyInt 1; PyStr "Brazil"; PyFloat 79];
                  [PyInt 2; PyStr "Casablanca"; PyFloat 85];
                  [PyInt 3; PyStr "Dune"; PyFloat 80];
                  [PyInt 4; PyStr "Eraserhead"; PyFloat 73] ] |}.

Definition in_order : schedule :=
  {| set_order := []; run_order := []; completion_order := [] |}.

Definition last_first : schedule :=
  {| set_order := []; run_order := []; completion_order := [1] |}.

Definition disk (files : list (string * pd.DataFrame)) : world :=
  {| fs := list_to_map files; trace := [] |}.

(** ** Resuming a run of [cleanup_script.py] *)

(** The rating one fetch returns and the steps it takes: the ones it has on
    an empty disk, and so everywhere ([cleanup_fetch]). *)
Definition rating_of (ia : IMDb) (title : pyval) : pyval :=
  match (cleanup_script.get_imdb_rating ia title (disk [])).1 with
  | Ret rating => rating
  | Raise _ => PyNone
  end.

Definition events_of (ia : IMDb) (title : pyval) : list event :=
  trace (cleanup_script.get_imdb_rating ia title (disk [])).2.

Definition title_at (titles : list pyval) (i : nat) : pyval := default NaN (titles !! i).

(** A progress file as an earlier run over the same [n] rows has left it:
    the three columns, and in each row the index of a row of the dataset,
    its title and its rating, as [read_csv] gives them. *)
Definition is_record (n : nat) (row : list pyval) : Prop :=
  ∃ i title rating,
    row = [PyInt (Z.of_nat i); title; rating] ∧ i < n
    ∧ pd.csv_cell title = title ∧ pd.csv_cell rating = rating.

Definition is_store (n : nat) (store : pd.DataFrame) : Prop :=
  pd.columns store = ["Index"; "Title"; "Rating"] ∧ Forall (is_record n) (pd.rows store).

(** The rating the rows of a progress file record for row [i]: that of the
    last row with this index. *)
Definition recorded (rows : list (list pyval)) (i : nat) : option pyval :=
  last (omap (λ row,
          match row with
          | [PyInt z; _; rating] => if decide (z = Z.of_nat i) then Some rating else None
          | _ => None
          end) rows).

Definition stored_rows (store : option pd.DataFrame) : list (list pyval) :=
  match store with
  | Some df => pd.rows df
  | None => []
  end.

(** What a worker of [cleanup_script.py] returns, records and does for a
    batch of rows. *)
Definition batch_ratings (ia : IMDb) (titles : list pyval) (indices : list nat) : list pyval :=
  map (λ i, rating_of ia (title_at titles i)) indices.

Definition batch_records (ia : IMDb) (titles : list pyval) (indices : list nat)
  : list (nat * pyval * pyval) :=
  map (λ i, (i, title_at titles i, rating_of ia (title_at titles i))) indices.

Definition batch_events (ia : IMDb) (titles : list pyval) (batch : nat) (indices : list nat)
  : list event :=
  flat_map (λ i, events_of ia (title_at titles i)
                 ++ [Print (Processing (Some batch) (Z.of_nat i + 1)
                              (Z.of_nat (length titles)))]) indices.

(** The row a record is in the progress file. *)
Definition stored (ia : IMDb) (titles : list pyval) (i : nat) : list pyval :=
  [PyInt (Z.of_nat i); pd.csv_cell (title_at titles i);
   pd.csv_cell (rating_of ia (title_at titles i))].

(** The progress file at [path] holds the rows [rows]. *)
Definition store_is (n : nat) (path : string) (rows : list (list pyval)) (w : world) : Prop :=
  match fs w !! path with
  | Some store => is_store n store ∧ pd.rows store = rows
  | None => rows = []
  end.

(** The batches of the scheduler of [cleanup_script.py]: their number, and
    the rows of batch [b]. *)
Definition num_batches (unprocessed_indices : list nat) : nat :=
  (length unprocessed_indices + 5 - 1) `div` 5.

Definition batch_of (unprocessed_indices : list nat) (b : nat) : list nat :=
  slice unprocessed_indices (b * 5) ((b + 1) * 5).

(** The lookups of the fetches of some rows, in their order. *)
Definition lookups_of (ia : IMDb) (titles : list pyval) (rows : list nat) : list event :=
  flat_map (λ i, filter is_lookup (events_of ia (title_at titles i))) rows.

(** A future that holds a value, not an exception. *)
Definition returned {A} (r : result A) : Prop := ∃ a, r = Ret a.

(** The rating list after "Fill in ratings from progress_df". *)
Definition fill (rows : list (list pyval)) (ratings : list pyval) : list pyval :=
  foldl (λ ratings row,
           match row with
           | [PyInt z; _; rating] => <[Z.to_nat z := rating]> ratings
           | _ => ratings
           end) ratings rows.

(** ** Further notions *)

(** A computation that changes no file outside [paths], whether it
    returns or raises. *)
Definition writes_only {A} (paths : list string) (m : M A) : Prop :=
  ∀ w path, path ∉ paths → fs (m w).2 !! path = fs w !! path.


(** * Computations *)

Lemma logged_nil w : logged w [] = w.
Proof. destruct w. unfold logged. simpl. by rewrite app_nil_r. Qed.

Lemma logged_logged w evs evs' : logged (logged w evs) evs' = logged w (evs ++ evs').
Proof. unfold logged. simpl. by rewrite app_assoc. Qed.

Lemma bind_ret {A B} (m : M A) (f : A → M B) w a w' :
  m w = (Ret a, w') → (m ≫= f) w = f a w'.
Proof. intros H. unfold mbind, M_bind. by rewrite H. Qed.

Lemma bind_raise {A B} (m : M A) (f : A → M B) w e w' :
  m w = (Raise e, w') → (m ≫= f) w = (Raise e, w').
Proof. intros H. unfold mbind, M_bind. by rewrite H. Qed.

Lemma bind_inv {A B} (m : M A) (f : A → M B) w b w2 :
  (m ≫= f) w = (Ret b, w2) → ∃ a w1, m w = (Ret a, w1) ∧ f a w1 = (Ret b, w2).
Proof.
  unfold mbind, M_bind. destruct (m w) as [[a|e] w1]; [eauto | discriminate].
Qed.

Lemma lift_inv {A} (r : result A) w a w' : lift r w = (Ret a, w') → r = Ret a ∧ w' = w.
Proof. unfold lift. by intros [= -> ->]. Qed.

Lemma read_csv_inv path w df w' :
  read_csv path w = (Ret df, w') → fs w !! path = Some df ∧ w' = logged w [ReadCsv path].
Proof.
  unfold read_csv. destruct (fs w !! path); [|discriminate]. by intros [= -> <-].
Qed.

Lemma read_csv_some path w df :
  fs w !! path = Some df → read_csv path w = (Ret df, logged w [ReadCsv path]).
Proof. unfold read_csv. by intros ->. Qed.

Lemma path_exists_eq path w :
  path_exists path w = (Ret (bool_decide (is_Some (fs w !! path))), w).
Proof. reflexivity. Qed.

Tactic Notation "inv_bind" hyp(H) "as" ident(a) ident(w) ident(H1) :=
  apply bind_inv in H as (a & w & H1 & H).

Lemma lookups_app evs evs' : lookups (evs ++ evs') = lookups evs + lookups evs'.
Proof. unfold lookups. by rewrite filter_app, length_app. Qed.

Lemma sleeps_app evs evs' : sleeps (evs ++ evs') = sleeps evs + sleeps evs'.
Proof. unfold sleeps. by rewrite filter_app, length_app. Qed.

(** * The retrying fetcher *)

Lemma fails_with_outcome a title e :
  fails_with a e →
  ∃ evs, outcome_of a title = Fails e evs ∧ lookups evs = 1 ∧ sleeps evs = 0.
Proof.
  unfold outcome_of. intros [H|(movie & rest & H1 & H2)].
  - rewrite H. eauto.
  - rewrite H1, H2. eauto.
Qed.

(** One pass of the loop of [cleanup_script.py]: every exception is
    handled, the pass ends with a warning and the delay. *)
Lemma cleanup_try_once ia title delay k w :
  cleanup_script.try_once ia title delay k w =
  match outcome_of (ia title k) title with
  | Found movie rest updated =>
      (Ret (Some (Movie_get updated "rating")),
       logged w [SearchMovie title; Update (movieID movie)])
  | NoMatch => (Ret (Some PyNone), logged w [SearchMovie title])
  | Fails e evs =>
      let warning :=
        if decide (e = Timeout) then RetryTimeout title
        else if decide (e = RequestException) then RetryRequestException e
        else RetryUnexpected e in
      (Ret None, logged w (evs ++ [Print warning; Sleep delay]))
  end.
Proof.
  unfold cleanup_script.try_once, try_, outcome_of, search_movie, update.
  unfold mbind, M_bind, emit, lift; simpl.
  destruct (search_movie_does (ia title k)) as [[|movie rest]|e]; simpl; try done.
  - destruct (update_does (ia title k) movie) as [updated|e]; simpl.
    + unfold logged; simpl. by rewrite <- app_assoc.
    + destruct e; simpl; unfold logged; simpl; rewrite <- ?app_assoc; reflexivity.
  - destruct e; simpl; unfold logged; simpl; rewrite <- ?app_assoc; reflexivity.
Qed.

(** One pass of the loop of [imdb_rating_script.py]: an exception that is
    neither a [Timeout] nor a [RequestException] reaches the clause
    [except HTTPError], whose name is unbound. *)
Lemma imdb_try_once ia title delay k w :
  imdb_rating_script.try_once ia title delay k w =
  match outcome_of (ia title k) title with
  | Found movie rest updated =>
      (Ret (Some (Movie_get updated "rating")),
       logged w [SearchMovie title; Update (movieID movie)])
  | NoMatch => (Ret (Some PyNone), logged w [SearchMovie title])
  | Fails e evs =>
      if decide (e = Timeout)
      then (Ret None, logged w (evs ++ [Print (RetryTimeout title); Sleep delay]))
      else if decide (e = RequestException)
      then (Ret None, logged w (evs ++ [Print (RetryRequestException e); Sleep delay]))
      else (Raise NameError, logged w evs)
  end.
Proof.
  unfold imdb_rating_script.try_once, try_, outcome_of, search_movie, update.
  unfold mbind, M_bind, emit, lift; simpl.
  destruct (search_movie_does (ia title k)) as [[|movie rest]|e]; simpl; try done.
  - destruct (update_does (ia title k) movie) as [updated|e]; simpl.
    + unfold logged; simpl. by rewrite <- app_assoc.
    + destruct e; simpl; unfold logged, raise; simpl; rewrite <- ?app_assoc; reflexivity.
  - destruct e; simpl; unfold logged, raise; simpl; rewrite <- ?app_assoc; reflexivity.
Qed.

Lemma cleanup_get_imdb_rating_unfold ia title w :
  cleanup_script.get_imdb_rating ia title w =
  (r ← for_return [0; 1; 2] (cleanup_script.try_once ia title 5); mret (default PyNone r)) w.
Proof. reflexivity. Qed.

Lemma imdb_get_imdb_rating_unfold ia title w :
  imdb_rating_script.get_imdb_rating ia title w =
  (r ← for_return [0; 1; 2] (imdb_rating_script.try_once ia title 5); mret (default PyNone r)) w.
Proof. reflexivity. Qed.

(** An empty search result: one lookup, no delay, [None]. *)
Lemma cleanup_no_match ia title w :
  search_movie_does (ia title 0) = Ret [] →
  cleanup_script.get_imdb_rating ia title w = (Ret PyNone, logged w [SearchMovie title]).
Proof.
  intros H. rewrite cleanup_get_imdb_rating_unfold. cbn [for_return].
  unfold mbind, M_bind. rewrite cleanup_try_once. unfold outcome_of. by rewrite H.
Qed.

Lemma imdb_no_match ia title w :
  search_movie_does (ia title 0) = Ret [] →
  imdb_rating_script.get_imdb_rating ia title w = (Ret PyNone, logged w [SearchMovie title]).
Proof.
  intros H. rewrite imdb_get_imdb_rating_unfold. cbn [for_return].
  unfold mbind, M_bind. rewrite imdb_try_once. unfold outcome_of. by rewrite H.
Qed.

(** [cleanup_script.py]: a lookup that raises at each of the three
    attempts is invoked three times, with three delays, and the fetch
    returns [None]. *)
Lemma cleanup_retries_exhausted ia title w :
  (∀ k, k < 3 → ∃ e, fails_with (ia title k) e) →
  ∃ evs, cleanup_script.get_imdb_rating ia title w = (Ret PyNone, logged w evs)
         ∧ lookups evs = 3 ∧ sleeps evs = 3.
Proof.
  intros H.
  destruct (H 0 ltac:(lia)) as [e0 H0]. destruct (H 1 ltac:(lia)) as [e1 H1].
  destruct (H 2 ltac:(lia)) as [e2 H2].
  destruct (fails_with_outcome _ title _ H0) as (evs0 & O0 & L0 & S0).
  destruct (fails_with_outcome _ title _ H1) as (evs1 & O1 & L1 & S1).
  destruct (fails_with_outcome _ title _ H2) as (evs2 & O2 & L2 & S2).
  rewrite cleanup_get_imdb_rating_unfold. cbn [for_return]. unfold mbind, M_bind.
  rewrite cleanup_try_once, O0. cbv beta iota zeta.
  rewrite cleanup_try_once, O1. cbv beta iota zeta.
  rewrite cleanup_try_once, O2. cbv beta iota zeta.
  unfold mret, M_ret. cbn [default]. rewrite !logged_logged.
  eexists. split; [reflexivity|].
  rewrite !lookups_app, !sleeps_app, L0, L1, L2, S0, S1, S2. done.
Qed.

(** [imdb_rating_script.py]: the same for the two exceptions of
    [requests]. *)
Lemma imdb_retries_exhausted ia title w :
  (∀ k, k < 3 → ∃ e, (e = Timeout ∨ e = RequestException) ∧ fails_with (ia title k) e) →
  ∃ evs, imdb_rating_script.get_imdb_rating ia title w = (Ret PyNone, logged w evs)
         ∧ lookups evs = 3 ∧ sleeps evs = 3.
Proof.
  intros H.
  destruct (H 0 ltac:(lia)) as (e0 & E0 & H0). destruct (H 1 ltac:(lia)) as (e1 & E1 & H1).
  destruct (H 2 ltac:(lia)) as (e2 & E2 & H2).
  destruct (fails_with_outcome _ title _ H0) as (evs0 & O0 & L0 & S0).
  destruct (fails_with_outcome _ title _ H1) as (evs1 & O1 & L1 & S1).
  destruct (fails_with_outcome _ title _ H2) as (evs2 & O2 & L2 & S2).
  rewrite imdb_get_imdb_rating_unfold. cbn [for_return]. unfold mbind, M_bind.
  rewrite imdb_try_once, O0.
  destruct E0 as [-> | ->]; cbn [decide_rel decide exn_eq_dec]; simpl;
    (rewrite imdb_try_once, O1; destruct E1 as [-> | ->]; simpl;
      (rewrite imdb_try_once, O2; destruct E2 as [-> | ->]; simpl;
        (unfold mret, M_ret; rewrite !logged_logged;
         eexists; split; [reflexivity|];
         rewrite !lookups_app, !sleeps_app, L0, L1, L2, S0, S1, S2; done))).
Qed.

(** [cleanup_script.py]: whatever the client does, the fetch returns; it
    invokes the lookup once, twice or three times. *)
Lemma cleanup_get_imdb_rating_returns ia title w :
  ∃ rating evs,
    cleanup_script.get_imdb_rating ia title w = (Ret rating, logged w evs)
    ∧ (1 ≤ lookups evs ≤ 3)%nat.
Proof.
  rewrite cleanup_get_imdb_rating_unfold. cbn [for_return]. unfold mbind, M_bind.
  rewrite cleanup_try_once.
  destruct (outcome_of (ia title 0) title) as [m0 r0 u0| |e0 evs0] eqn:O0;
    [cbv beta iota zeta; eexists _, _; split; [reflexivity|cbv; lia] .. |].
  cbv beta iota zeta. rewrite cleanup_try_once.
  assert (lookups evs0 = 1) as L0.
  { unfold outcome_of in O0. repeat case_match; simplify_eq; done. }
  destruct (outcome_of (ia title 1) title) as [m1 r1 u1| |e1 evs1] eqn:O1;
    [cbv beta iota zeta; unfold mret, M_ret; rewrite !logged_logged;
     eexists _, _; split; [reflexivity|];
     rewrite !lookups_app, L0; cbv; lia .. |].
  cbv beta iota zeta. rewrite cleanup_try_once.
  assert (lookups evs1 = 1) as L1.
  { unfold outcome_of in O1. repeat case_match; simplify_eq; done. }
  destruct (outcome_of (ia title 2) title) as [m2 r2 u2| |e2 evs2] eqn:O2;
    [cbv beta iota zeta; unfold mret, M_ret; rewrite !logged_logged;
     eexists _, _; split; [reflexivity|];
     rewrite !lookups_app, L0, L1; cbv; lia .. |].
  assert (lookups evs2 = 1) as L2.
  { unfold outcome_of in O2. repeat case_match; simplify_eq; done. }
  cbv beta iota zeta. unfold mret, M_ret. rewrite !logged_logged.
  eexists _, _. split; [reflexivity|].
  rewrite !lookups_app, L0, L1, L2. cbv. lia.
Qed.

Lemma Movie_get_absent movie key :
  key ∉ (data movie).*1 → Movie_get movie key = PyNone.
Proof.
  intros H. unfold Movie_get.
  destruct (list_find _ _) as [[i [k v]]|] eqn:Hfind; [|done].
  apply list_find_Some in Hfind as (Hi & Hk & _). simpl in Hk. subst k.
  destruct H. apply list_elem_of_fmap. exists (key, v). split; [done|].
  by eapply list_elem_of_lookup_2.
Qed.

(** C1, where the code departs from it.  In [imdb_rating_script.py] a
    lookup that raises [imdb.IMDbDataAccessError] at every attempt is
    invoked once, not three times, and the fetch does not return [None]:
    it raises [NameError], from the clause [except HTTPError].
    [cleanup_script.py], which has no such clause, invokes the same
    lookup three times and returns [None]. *)
Theorem imdb_data_access_error_is_not_retried (title : pyval) (w : world) :
  imdb_rating_script.get_imdb_rating ia_down title w
    = (Raise NameError, logged w [SearchMovie title])
  ∧ lookups [SearchMovie title] = 1
  ∧ ∃ evs, cleanup_script.get_imdb_rating ia_down title w = (Ret PyNone, logged w evs)
           ∧ lookups evs = 3 ∧ sleeps evs = 3.
Proof.
  split; [|split; [done|]].
  - rewrite imdb_get_imdb_rating_unfold. cbn [for_return]. unfold mbind, M_bind.
    by rewrite imdb_try_once.
  - apply cleanup_retries_exhausted. intros k _. exists IMDbDataAccessError. by left.
Qed.

(** C2, where the code departs from it.  With a client that raises
    [imdb.IMDbDataAccessError], the fetch of [imdb_rating_script.py]
    raises [NameError] to the worker; the future carries it to the
    scheduler and the run ends with it: nothing is written. *)
Theorem imdb_lookup_error_ends_the_run :
  let w := disk [("movies.csv", movies 1)] in
  let run := imdb_rating_script.main ia_down in_order
               ["imdb_rating_script.py"; "movies.csv"] w in
  imdb_rating_script.process_titles ia_down [PyStr "Alien"] 0 1 "movies_progress.csv" w
    = (Raise NameError, logged w [SearchMovie (PyStr "Alien")])
  ∧ run.1 = Raise NameError
  ∧ exit_status run.1 = 1%Z
  ∧ fs run.2 = fs w
  ∧ trace run.2 = [Print Starting; ReadCsv "movies.csv"; SearchMovie (PyStr "Alien")].
Proof. vm_compute. done. Qed.

(** [cleanup_script.py] does contain every exception of the client: its
    fetch returns whatever the client does. *)
Lemma cleanup_get_imdb_rating_never_raises ia title w :
  ∃ rating w', cleanup_script.get_imdb_rating ia title w = (Ret rating, w').
Proof.
  destruct (cleanup_get_imdb_rating_returns ia title w) as (rating & evs & H & _). eauto.
Qed.

(** C9.  When the first attempt finds movies and the first of them, once
    updated, has no rating, the fetch returns [None] after one lookup and
    without delay; only the first movie is updated and read. *)
Theorem unrated_first_match_gives_None (ia : IMDb) (title : pyval) (w : world)
    (movie : Movie) (rest : list Movie) (updated : Movie) :
  search_movie_does (ia title 0) = Ret (movie :: rest) →
  update_does (ia title 0) movie = Ret updated →
  "rating" ∉ (data updated).*1 →
  let evs := [SearchMovie title; Update (movieID movie)] in
  imdb_rating_script.get_imdb_rating ia title w = (Ret PyNone, logged w evs)
  ∧ cleanup_script.get_imdb_rating ia title w = (Ret PyNone, logged w evs)
  ∧ lookups evs = 1 ∧ sleeps evs = 0.
Proof.
  intros Hs Hu Hr evs.
  assert (outcome_of (ia title 0) title = Found movie rest updated) as Ho.
  { unfold outcome_of. by rewrite Hs, Hu. }
  split; [|split; [|done]].
  - rewrite imdb_get_imdb_rating_unfold. cbn [for_return]. unfold mbind, M_bind.
    rewrite imdb_try_once, Ho. unfold mret, M_ret. cbn [default].
    by rewrite Movie_get_absent.
  - rewrite cleanup_get_imdb_rating_unfold. cbn [for_return]. unfold mbind, M_bind.
    rewrite cleanup_try_once, Ho. unfold mret, M_ret. cbn [default].
    by rewrite Movie_get_absent.
Qed.

Lemma unrated_first_match_gives_None_witness :
  imdb_rating_script.get_imdb_rating ia_unrated (PyStr "The Matrix") (disk [])
  = (Ret PyNone, logged (disk []) [SearchMovie (PyStr "The Matrix"); Update "0133093"]).
Proof.
  refine (proj1 (unrated_first_match_gives_None ia_unrated (PyStr "The Matrix") (disk [])
                   _ _ _ eq_refl eq_refl _)).
  compute_done.
Defined.
(** * The command line *)

Lemma main_wrong_argument_count ia sched argv w :
  length argv ≠ 2 →
  imdb_rating_script.main ia sched argv w = (Ret 1%Z, logged w [Print Usage])
  ∧ cleanup_script.main ia sched argv w = (Ret 1%Z, logged w [Print Usage]).
Proof.
  intros H. unfold imdb_rating_script.main, cleanup_script.main.
  by rewrite bool_decide_eq_true_2.
Qed.

Lemma print_eq m w : print m w = (Ret (), logged w [Print m]).
Proof. reflexivity. Qed.

Lemma path_exists_some path w df :
  fs w !! path = Some df → path_exists path w = (Ret true, w).
Proof. intros H. rewrite path_exists_eq, H. by rewrite bool_decide_eq_true_2. Qed.

Lemma path_exists_none path w :
  fs w !! path = None → path_exists path w = (Ret false, w).
Proof.
  intros H. rewrite path_exists_eq, H. rewrite bool_decide_eq_false_2; [done|].
  by intros [? ?].
Qed.

Lemma main_no_such_file ia sched script input_file w :
  fs w !! input_file = None →
  imdb_rating_script.main ia sched [script; input_file] w
    = (Ret 1%Z, logged w [Print (NoSuchFile input_file)])
  ∧ cleanup_script.main ia sched [script; input_file] w
    = (Ret 1%Z, logged w [Print (NoSuchFile input_file)]).
Proof.
  intros H. unfold imdb_rating_script.main, cleanup_script.main.
  cbn [length bool_decide decide_rel]. rewrite bool_decide_eq_false_2 by (simpl; lia).
  rewrite !(bind_ret (lift _) _ w input_file w) by reflexivity.
  rewrite !(bind_ret (path_exists _) _ w false w) by by apply path_exists_none.
  cbn [negb]. rewrite !(bind_ret (print _) _ w () _ (print_eq _ _)). done.
Qed.

Lemma add_imdb_ratings_missing_title ia sched input_file df w :
  fs w !! input_file = Some df →
  "title" ∉ pd.columns df →
  imdb_rating_script.add_imdb_ratings ia sched input_file w
    = (Ret (), logged w [ReadCsv input_file; Print MissingTitle])
  ∧ cleanup_script.add_imdb_ratings ia sched input_file w
    = (Ret (), logged w [ReadCsv input_file; Print MissingTitle]).
Proof.
  intros H Ht.
  unfold imdb_rating_script.add_imdb_ratings, cleanup_script.add_imdb_ratings.
  rewrite !(bind_ret (read_csv _) _ w df _ (read_csv_some _ _ _ H)).
  unfold pd.has_column. rewrite bool_decide_eq_false_2 by done. cbn [negb].
  by rewrite print_eq, logged_logged.
Qed.

Lemma main_missing_title ia sched script input_file df w :
  fs w !! input_file = Some df →
  "title" ∉ pd.columns df →
  imdb_rating_script.main ia sched [script; input_file] w
    = (Ret 0%Z, logged w [Print Starting; ReadCsv input_file; Print MissingTitle])
  ∧ cleanup_script.main ia sched [script; input_file] w
    = (Ret 0%Z, logged w [Print Starting; ReadCsv input_file; Print MissingTitle]).
Proof.
  intros H Ht. unfold imdb_rating_script.main, cleanup_script.main.
  rewrite bool_decide_eq_false_2 by (simpl; lia).
  rewrite !(bind_ret (lift _) _ w input_file w) by reflexivity.
  rewrite !(bind_ret (path_exists _) _ w true w) by by eapply path_exists_some.
  cbn [negb]. rewrite !(bind_ret (print _) _ w () _ (print_eq _ _)).
  destruct (add_imdb_ratings_missing_title ia sched input_file df
              (logged w [Print Starting]) H Ht) as [Hi Hc].
  rewrite (bind_ret _ _ _ _ _ Hi), (bind_ret _ _ _ _ _ Hc).
  by rewrite logged_logged.
Qed.

(** C7.  Both scripts: with an argument count other than one the run
    prints the usage and exits with status 1; when the file named does not
    exist it prints the error and exits with status 1; in both cases it
    has done nothing else.  When the file has no [title] column the run
    reads it, prints the error and ends with status 0; it writes no
    file. *)
Theorem command_line_checks (ia : IMDb) (sched : schedule) (argv : list string) (w : world) :
  let imdb := imdb_rating_script.main ia sched argv w in
  let cleanup := cleanup_script.main ia sched argv w in
  (length argv ≠ 2 →
     exit_status imdb.1 = 1%Z ∧ imdb.2 = logged w [Print Usage]
     ∧ exit_status cleanup.1 = 1%Z ∧ cleanup.2 = logged w [Print Usage])
  ∧ (∀ script input_file,
       argv = [script; input_file] → fs w !! input_file = None →
       exit_status imdb.1 = 1%Z ∧ imdb.2 = logged w [Print (NoSuchFile input_file)]
       ∧ exit_status cleanup.1 = 1%Z ∧ cleanup.2 = logged w [Print (NoSuchFile input_file)])
  ∧ (∀ script input_file df,
       argv = [script; input_file] → fs w !! input_file = Some df →
       "title" ∉ pd.columns df →
       let evs := [Print Starting; ReadCsv input_file; Print MissingTitle] in
       imdb = (Ret 0%Z, logged w evs) ∧ cleanup = (Ret 0%Z, logged w evs)
       ∧ fs (logged w evs) = fs w).
Proof.
  intros imdb cleanup. subst imdb cleanup. split; [|split].
  - intros H. destruct (main_wrong_argument_count ia sched argv w H) as [-> ->]. done.
  - intros script input_file -> H.
    destruct (main_no_such_file ia sched script input_file w H) as [-> ->]. done.
  - intros script input_file df -> H Ht evs.
    destruct (main_missing_title ia sched script input_file df w H Ht) as [-> ->]. done.
Qed.

Lemma command_line_checks_witness :
  (imdb_rating_script.main ia_catalogue in_order ["imdb_rating_script.py"] (disk [])).2
    = logged (disk []) [Print Usage]
  ∧ (cleanup_script.main ia_catalogue in_order
       ["cleanup_script.py"; "movies.csv"] (disk [])).2
    = logged (disk []) [Print (NoSuchFile "movies.csv")]
  ∧ imdb_rating_script.main ia_catalogue in_order ["imdb_rating_script.py"; "films.csv"]
      (disk [("films.csv", {| pd.columns := ["name"]; pd.rows := [[PyStr "Alien"]] |})])
    = (Ret 0%Z,
       logged (disk [("films.csv", {| pd.columns := ["name"]; pd.rows := [[PyStr "Alien"]] |})])
         [Print Starting; ReadCsv "films.csv"; Print MissingTitle]).
Proof.
  split; [|split].
  - destruct (command_line_checks ia_catalogue in_order
                ["imdb_rating_script.py"] (disk [])) as (H & _ & _).
    apply H. simpl. lia.
  - destruct (command_line_checks ia_catalogue in_order
                ["cleanup_script.py"; "movies.csv"] (disk [])) as (_ & H & _).
    apply (H "cleanup_script.py" "movies.csv" eq_refl eq_refl).
  - destruct (command_line_checks ia_catalogue in_order
                ["imdb_rating_script.py"; "films.csv"]
                (disk [("films.csv", {| pd.columns := ["name"]; pd.rows := [[PyStr "Alien"]] |})]))
      as (_ & _ & H).
    apply (H "imdb_rating_script.py" "films.csv" _ eq_refl eq_refl). compute_done.
Defined.
(** * pandas: the position of a column *)

Lemma position_None c cols : pd.position c cols = None ↔ c ∉ cols.
Proof.
  induction cols as [|c' cols IH]; simpl.
  - split; [intros _; apply not_elem_of_nil | done].
  - case_decide as Hc.
    + subst. split; [done|]. intros H. destruct H. left.
    + rewrite fmap_None, IH, not_elem_of_cons. tauto.
Qed.

Lemma position_Some c cols p : pd.position c cols = Some p → cols !! p = Some c.
Proof.
  revert p. induction cols as [|c' cols IH]; intros p; simpl; [done|].
  case_decide as Hc.
  - intros [= <-]. by subst.
  - intros (q & Hq & ->)%fmap_Some. simpl. by apply IH.
Qed.


Lemma column_missing c df : c ∉ pd.columns df → pd.column c df = Raise KeyError.
Proof. intros H. unfold pd.column. by apply position_None in H as ->. Qed.

Lemma has_column_true c df : pd.has_column c df = true ↔ c ∈ pd.columns df.
Proof. unfold pd.has_column. apply bool_decide_eq_true. Qed.

(** * The derived paths *)

Lemma string_app_cons a s1 s2 : String a s1 +:+ s2 = String a (s1 +:+ s2).
Proof. reflexivity. Qed.

Lemma string_length_app s1 s2 :
  String.length (s1 +:+ s2) = (String.length s1 + String.length s2)%nat.
Proof.
  induction s1 as [|a s1 IH]; [done|]. rewrite string_app_cons. simpl. by rewrite IH.
Qed.

Lemma prefix_app old s : String.prefix old s = true ↔ ∃ post, s = old +:+ post.
Proof.
  revert s. induction old as [|a old IH]; intros s; simpl.
  - destruct s; simpl; (split; [intros _; by eexists|done]).
  - destruct s as [|b s]; simpl.
    + split; [done|]. intros [post H]. discriminate.
    + destruct (Ascii.ascii_dec a b) as [->|Hne].
      * rewrite IH. split; intros [post H]; exists post; [by rewrite H | by injection H].
      * split; [done|]. intros [post H]. injection H. congruence.
Qed.

Lemma prefix_length old s :
  String.prefix old s = true → (String.length old ≤ String.length s)%nat.
Proof.
  rewrite prefix_app. intros [post ->]. rewrite string_length_app. lia.
Qed.

(** [Str.contains] is the substring test. *)
Lemma contains_spec old s :
  Str.contains old s = true ↔ ∃ pre post, s = pre +:+ old +:+ post.
Proof.
  induction s as [|c s IH]; cbn [Str.contains].
  - rewrite prefix_app. split.
    + intros [post H]. by exists "", post.
    + intros (pre & post & H). destruct pre; [eauto|discriminate].
  - rewrite orb_true_iff, IH, prefix_app. split.
    + intros [[post H]|(pre & post & H)].
      * by exists "", post.
      * exists (String c pre), post. rewrite string_app_cons. by rewrite H.
    + intros (pre & post & H). destruct pre as [|c' pre].
      * left. eauto.
      * right. rewrite string_app_cons in H. injection H as -> H. eauto.
Qed.


Lemma replace_from_length old new s k :
  (1 ≤ String.length old ≤ String.length new)%nat →
  (String.length s - k ≤ String.length (Str.replace_from old new k s))%nat.
Proof.
  intros Hlen. revert k.
  induction s as [|c s IH]; intros k; cbn [Str.replace_from]; [simpl; lia|].
  destruct k as [|k].
  - destruct (String.prefix old (String c s)) eqn:Hp.
    + apply prefix_length in Hp.
      rewrite string_length_app.
      specialize (IH (String.length old - 1)). simpl in *. lia.
    + specialize (IH 0). simpl in *. lia.
  - apply IH.
Qed.

(** With an occurrence and a longer replacement, the result is longer. *)
Lemma replace_present_longer old new s :
  (1 ≤ String.length old)%nat → (String.length old < String.length new)%nat →
  Str.contains old s = true →
  (String.length s < String.length (Str.replace s old new))%nat.
Proof.
  intros Hold Hnew. unfold Str.replace.
  induction s as [|c s IH]; cbn [Str.contains Str.replace_from].
  - intros Hp%prefix_length. simpl in Hp. lia.
  - destruct (String.prefix old (String c s)) eqn:Hp.
    + intros _. apply prefix_length in Hp.
      rewrite string_length_app.
      pose proof (replace_from_length old new s (String.length old - 1)).
      simpl in *. lia.
    + intros H. specialize (IH H). simpl in *. lia.
Qed.

Lemma replace_present_ne old new s :
  (1 ≤ String.length old)%nat → (String.length old < String.length new)%nat →
  Str.contains old s = true → Str.replace s old new ≠ s.
Proof.
  intros Hold Hnew H Heq.
  pose proof (replace_present_longer old new s Hold Hnew H) as Hl.
  rewrite Heq in Hl. lia.
Qed.

Lemma replace_progress_ne_output modified s :
  modified = "_Modified.csv" ∨ modified = "_modified.csv" →
  Str.contains ".csv" s = true →
  Str.replace s ".csv" "_progress.csv" ≠ Str.replace s ".csv" modified.
Proof.
  intros Hm. unfold Str.replace. induction s as [|c s IH]; [done|].
  cbn [Str.contains Str.replace_from].
  destruct (String.prefix ".csv" (String c s)) eqn:Hp.
  - intros _. destruct Hm as [-> | ->]; rewrite !string_app_cons; discriminate.
  - intros H Heq. injection Heq as Heq. by apply IH.
Qed.

(** ** What a run writes last *)

Lemma imdb_output ia sched input_file w w' df :
  fs w !! input_file = Some df →
  "title" ∈ pd.columns df →
  imdb_rating_script.add_imdb_ratings ia sched input_file w = (Ret (), w') →
  ∃ ratings df',
    pd.assign "IMDB_Rating" ratings df = Ret df' ∧
    fs w' !! Str.replace input_file ".csv" "_Modified.csv" = Some (pd.csv df').
Proof.
  intros Hf Ht%has_column_true H. unfold imdb_rating_script.add_imdb_ratings in H.
  inv_bind H as df0 w0 Hread.
  apply read_csv_inv in Hread as [Hdf ->]. rewrite Hf in Hdf. injection Hdf as <-.
  rewrite Ht in H. cbn [negb] in H.
  inv_bind H as existing w1 H1. inv_bind H as todo w2 H2.
  inv_bind H as df_titles w3 H3. inv_bind H as ratings w4 H4.
  inv_bind H as df' w5 Hassign. apply lift_inv in Hassign as [Hassign ->].
  exists ratings, df'. split; [done|].
  inv_bind H as u w6 Hwrite. unfold to_csv in Hwrite. injection Hwrite as _ <-.
  rewrite print_eq in H. injection H as <-. simpl. by rewrite lookup_insert_eq.
Qed.

Lemma cleanup_output ia sched input_file w w' df :
  fs w !! input_file = Some df →
  "title" ∈ pd.columns df →
  cleanup_script.add_imdb_ratings ia sched input_file w = (Ret (), w') →
  ∃ ratings df',
    pd.assign "IMDB_Rating" ratings df = Ret df' ∧
    fs w' !! Str.replace input_file ".csv" "_modified.csv" = Some (pd.csv df').
Proof.
  intros Hf Ht%has_column_true H. unfold cleanup_script.add_imdb_ratings in H.
  inv_bind H as df0 w0 Hread.
  apply read_csv_inv in Hread as [Hdf ->]. rewrite Hf in Hdf. injection Hdf as <-.
  rewrite Ht in H. cbn [negb] in H.
  inv_bind H as existing w1 H1. inv_bind H as todo w2 H2.
  inv_bind H as df_titles w3 H3. inv_bind H as ratings w4 H4.
  inv_bind H as df' w5 Hassign. apply lift_inv in Hassign as [Hassign ->].
  exists ratings, df'. split; [done|].
  inv_bind H as u w6 Hwrite. unfold to_csv in Hwrite. injection Hwrite as _ <-.
  rewrite print_eq in H. injection H as <-. simpl. by rewrite lookup_insert_eq.
Qed.




(** * The rating list *)

(** An invariant of the loop variables holds after the loop. *)
Lemma for_inv {A S} (P : S → Prop) (body : S → A → M S) (xs : list A) :
  (∀ acc x w acc' w', P acc → body acc x w = (Ret acc', w') → P acc') →
  ∀ acc w acc' w', P acc → for_ xs acc body w = (Ret acc', w') → P acc'.
Proof.
  intros Hbody. induction xs as [|x xs IH]; intros acc w acc' w' HP H; simpl in H.
  - by injection H as <- _.
  - inv_bind H as acc1 w1 H1. eapply IH; [|done]. eauto.
Qed.

Lemma setitem_length {A} (l l' : list A) k v :
  setitem l k v = Ret l' → length l' = length l.
Proof.
  unfold setitem. repeat case_decide; intros [= <-]; apply length_insert.
Qed.

Lemma imdb_collect_ratings_length ia sched df_titles todo len_df progress_file w ratings w' :
  imdb_rating_script.collect_ratings ia sched df_titles todo len_df progress_file w
    = (Ret ratings, w') →
  length ratings = len_df.
Proof.
  unfold imdb_rating_script.collect_ratings.
  destruct (foldl _ _ _) as [tasks start_index]. intros H.
  inv_bind H as futures w1 Hpool.
  revert H. apply (for_inv (λ r : list pyval, length r = len_df)); [|by rewrite length_replicate].
  intros acc future w2 acc' w3 Hacc H.
  inv_bind H as batch_ratings w4 Hfuture.
  revert H. apply (for_inv (λ r : list pyval, length r = len_df)); [|done].
  intros acc1 [i rating] w5 acc2 w6 Hacc1 H.
  inv_bind H as start w7 Hstart. case_bool_decide.
  - apply lift_inv in H as [H _]. apply setitem_length in H. congruence.
  - by injection H as <- _.
Qed.

Lemma cleanup_collect_ratings_length ia sched df_titles todo len_df progress_file w ratings w' :
  cleanup_script.collect_ratings ia sched df_titles todo len_df progress_file w
    = (Ret ratings, w') →
  length ratings = len_df.
Proof.
  unfold cleanup_script.collect_ratings.
  destruct (foldl _ _ _) as [tasks batch_indices]. intros H.
  inv_bind H as futures w1 Hpool. inv_bind H as collected w2 Hcollect.
  assert (length collected = len_df) as Hlen.
  { revert Hcollect. apply (for_inv (λ r : list pyval, length r = len_df)); [|by rewrite length_replicate].
    intros acc future w3 acc' w4 Hacc Hb.
    inv_bind Hb as batch_ratings w5 Hfuture. inv_bind Hb as indices w6 Hindices.
    revert Hb. apply (for_inv (λ r : list pyval, length r = len_df)); [|done].
    intros acc1 [index rating] w7 acc2 w8 Hacc1 Hb. case_bool_decide.
    - apply lift_inv in Hb as [Hb _]. apply setitem_length in Hb. congruence.
    - by injection Hb as <- _. }
  inv_bind H as existing w3 Hexists. destruct existing.
  - inv_bind H as progress_df w4 Hread.
    revert H. apply (for_inv (λ r : list pyval, length r = len_df)); [|done].
    intros acc row w5 acc' w6 Hacc Hb.
    inv_bind Hb as rating w7 Hrating. inv_bind Hb as index w8 Hindex.
    inv_bind Hb as k w9 Hk.
    apply lift_inv in Hb as [Hb _]. apply setitem_length in Hb. congruence.
  - by injection H as <- _.
Qed.

(** C5.  In both scripts the rating list of a run that gets as far as
    adding the column has one entry for each of the [len(df)] rows: every
    index below [len(df)] holds a value, a rating or an absence marker
    ([None], or NaN where it comes from the progress file); the column
    assignment accepts the list and the table written has as many rows. *)
Theorem rating_list_is_complete (ia : IMDb) (sched : schedule) (df : pd.DataFrame)
    (df_titles todo_titles : list pyval) (todo_indices : list nat)
    (progress_file : string) (w : world) (ratings : list pyval) :
  (imdb_rating_script.collect_ratings ia sched df_titles todo_titles (pd.len df)
     progress_file w).1 = Ret ratings
  ∨ (cleanup_script.collect_ratings ia sched df_titles todo_indices (pd.len df)
       progress_file w).1 = Ret ratings →
  length ratings = pd.len df
  ∧ (∀ i, i < pd.len df → ∃ v, ratings !! i = Some v)
  ∧ ∃ df', pd.assign "IMDB_Rating" ratings df = Ret df' ∧ pd.len df' = pd.len df.
Proof.
  intros H.
  assert (length ratings = pd.len df) as Hlen.
  { destruct H as [H|H].
    - destruct (imdb_rating_script.collect_ratings _ _ _ _ _ _ _) as [r w'] eqn:Hrun.
      simpl in H. subst r. by eapply imdb_collect_ratings_length.
    - destruct (cleanup_script.collect_ratings _ _ _ _ _ _ _) as [r w'] eqn:Hrun.
      simpl in H. subst r. by eapply cleanup_collect_ratings_length. }
  split; [done|]. split.
  - intros i Hi. apply lookup_lt_is_Some_2. lia.
  - unfold pd.assign. rewrite bool_decide_eq_true_2 by done.
    destruct (pd.position _ _); eexists; (split; [done|]);
      unfold pd.len in *; simpl; rewrite length_zip_with; lia.
Qed.

Lemma rating_list_is_complete_witness :
  ∃ ratings,
    (cleanup_script.collect_ratings ia_catalogue in_order
       [PyStr "Alien"; PyStr "Brazil"; PyStr "Zardoz"] [0; 1; 2] 3
       "movies_progress.csv" (disk [])).1 = Ret ratings
    ∧ length ratings = 3.
Proof.
  eexists. split; [vm_compute; reflexivity|].
  refine (proj1 (rating_list_is_complete ia_catalogue in_order (movies 3)
    [PyStr "Alien"; PyStr "Brazil"; PyStr "Zardoz"] [] [0; 1; 2]
    "movies_progress.csv" (disk []) _ _)).
  right. vm_compute. reflexivity.
Defined.
(** * The progress store *)

(** ** Steps that leave the files alone *)

Lemma quiet_ret {A} (a : A) : quiet (mret a).
Proof. intros w r w' [= <- <-]. exists []. by rewrite logged_nil. Qed.

Lemma quiet_lift {A} (r : result A) : quiet (lift r).
Proof. intros w r' w' [= <- <-]. exists []. by rewrite logged_nil. Qed.

Lemma quiet_raise {A} (e : exn) : quiet (raise (A:=A) e).
Proof. intros w r' w' [= <- <-]. exists []. by rewrite logged_nil. Qed.

Lemma quiet_emit e : is_write e = false → quiet (emit e).
Proof.
  intros He w r w' [= <- <-]. exists [e]. split; [done|].
  rewrite filter_cons, decide_False; [done|]. by apply Is_true_false_2.
Qed.

Lemma quiet_bind {A B} (m : M A) (f : A → M B) :
  quiet m → (∀ a, quiet (f a)) → quiet (m ≫= f).
Proof.
  intros Hm Hf w r w'. unfold mbind, M_bind.
  destruct (m w) as [[a|e] w1] eqn:H1.
  - intros H2. destruct (Hm _ _ _ H1) as (evs1 & -> & Hq1).
    destruct (Hf _ _ _ _ H2) as (evs2 & -> & Hq2).
    exists (evs1 ++ evs2). rewrite logged_logged. split; [done|].
    by rewrite filter_app, Hq1, Hq2.
  - intros [= <- <-]. eauto.
Qed.

Lemma quiet_for_return {A B} (xs : list A) (body : A → M (option B)) :
  (∀ x, quiet (body x)) → quiet (for_return xs body).
Proof.
  intros Hbody. induction xs as [|x xs IH]; simpl; [apply quiet_ret|].
  apply quiet_bind; [done|]. intros [b|]; [apply quiet_ret | done].
Qed.

Lemma quiet_for {A S} (xs : list A) (body : S → A → M S) acc :
  (∀ acc x, quiet (body acc x)) → quiet (for_ xs acc body).
Proof.
  intros Hbody. revert acc. induction xs as [|x xs IH]; intros acc; simpl.
  - apply quiet_ret.
  - apply quiet_bind; [done|]. intros acc'. apply IH.
Qed.

Lemma quiet_try_except {A} (clauses : list (class_expr * (exn → M A))) e :
  Forall (λ clause, ∀ e, quiet (clause.2 e)) clauses → quiet (try_except clauses e).
Proof.
  induction 1 as [|[c handler] clauses Hh _ IH]; simpl; [apply quiet_raise|].
  destruct (eval_class c) as [isinstance|e']; [|apply quiet_raise].
  destruct (isinstance e); [apply Hh | apply IH].
Qed.

Lemma quiet_try {A} (body : M A) clauses :
  quiet body → Forall (λ clause, ∀ e, quiet (clause.2 e)) clauses → quiet (try_ body clauses).
Proof.
  intros Hbody Hclauses w r w'. unfold try_.
  destruct (body w) as [[a|e] w1] eqn:H1.
  - intros [= <- <-]. eauto.
  - intros H2. destruct (Hbody _ _ _ H1) as (evs1 & -> & Hq1).
    destruct (quiet_try_except clauses e Hclauses _ _ _ H2) as (evs2 & -> & Hq2).
    exists (evs1 ++ evs2). rewrite logged_logged. split; [done|].
    by rewrite filter_app, Hq1, Hq2.
Qed.

Ltac quiet :=
  repeat first
    [ exact I | apply quiet_ret | apply quiet_lift | apply quiet_raise
    | apply quiet_emit; reflexivity
    | apply quiet_bind; [|intros ?]
    | apply quiet_for_return; intros ?
    | apply quiet_try
    | apply Forall_cons; split; [intros ?; cbn [snd]|]
    | apply Forall_nil
    | match goal with |- quiet (match ?x with _ => _ end) => destruct x end ].

Lemma imdb_get_imdb_rating_quiet ia title : quiet (imdb_rating_script.get_imdb_rating ia title).
Proof.
  unfold imdb_rating_script.get_imdb_rating, imdb_rating_script.try_once,
    search_movie, update, print.
  quiet.
Qed.

Lemma cleanup_get_imdb_rating_quiet ia title : quiet (cleanup_script.get_imdb_rating ia title).
Proof.
  unfold cleanup_script.get_imdb_rating, cleanup_script.try_once,
    search_movie, update, print.
  quiet.
Qed.

(** ** pandas: values by column name *)

Lemma map_is_fmap {A B} (f : A → B) (l : list A) : map f l = f <$> l.
Proof. reflexivity. Qed.



Lemma csv_cell_idemp v : pd.csv_cell (pd.csv_cell v) = pd.csv_cell v.
Proof. by destruct v. Qed.








Lemma csv_len df : pd.len (pd.csv df) = pd.len df.
Proof. unfold pd.len, pd.csv. simpl. by rewrite length_map. Qed.

(** ** One append *)

Lemma save_progress_same progress progress_file :
  imdb_rating_script.save_progress progress progress_file
  = cleanup_script.save_progress progress progress_file.
Proof. reflexivity. Qed.

Lemma save_progress_new progress progress_file w :
  fs w !! progress_file = None →
  cleanup_script.save_progress progress progress_file w
  = (Ret (), {| fs := <[progress_file := pd.csv (pd.of_records progress)]> (fs w);
                trace := trace w ++ [ToCsv progress_file] |}).
Proof.
  intros H. unfold cleanup_script.save_progress.
  rewrite (bind_ret _ _ _ _ _ (path_exists_none _ _ H)).
  by rewrite (bind_ret (mret _) _ w (pd.of_records progress) w).
Qed.

Lemma save_progress_existing progress progress_file w old :
  fs w !! progress_file = Some old →
  cleanup_script.save_progress progress progress_file w
  = (Ret (), {| fs := <[progress_file := pd.csv (pd.concat old (pd.of_records progress))]> (fs w);
                trace := trace w ++ [ReadCsv progress_file; ToCsv progress_file] |}).
Proof.
  intros H. unfold cleanup_script.save_progress.
  rewrite (bind_ret _ _ _ _ _ (path_exists_some _ _ _ H)).
  rewrite (bind_ret _ _ w (pd.concat old (pd.of_records progress))
             (logged w [ReadCsv progress_file])).
  - unfold to_csv, logged. simpl. by rewrite <- app_assoc.
  - by rewrite (bind_ret _ _ _ _ _ (read_csv_some _ _ _ H)).
Qed.


(** ** One append for each batch *)





(** * The merge utility *)

Lemma position_lt c cols p : pd.position c cols = Some p → p < length cols.
Proof. intros H%position_Some. by eapply lookup_lt_Some. Qed.

Lemma position_app_l c l1 l2 : c ∈ l1 → pd.position c (l1 ++ l2) = pd.position c l1.
Proof.
  induction l1 as [|c' l1 IH]; simpl.
  - by intros ?%elem_of_nil.
  - intros H. case_decide; [done|].
    apply elem_of_cons in H as [?|H]; [done|]. by rewrite IH.
Qed.

Lemma position_app_r c l1 l2 :
  c ∉ l1 → pd.position c (l1 ++ l2) = (λ q, length l1 + q) <$> pd.position c l2.
Proof.
  induction l1 as [|c' l1 IH]; simpl.
  - intros _. by destruct (pd.position c l2).
  - intros [? H]%not_elem_of_cons. rewrite decide_False by done.
    rewrite IH by done. by destruct (pd.position c l2).
Qed.


Lemma cell_app_l (l r : list pyval) p : p < length l → pd.cell (l ++ r) p = pd.cell l p.
Proof. intros H. unfold pd.cell. by rewrite lookup_app_l. Qed.

Lemma cell_app_r (l r : list pyval) q : pd.cell (l ++ r) (length l + q) = pd.cell r q.
Proof.
  unfold pd.cell. rewrite lookup_app_r by lia. by replace (length l + q - length l) with q by lia.
Qed.



Lemma reindex_length cols' cols row : length (pd.reindex cols' cols row) = length cols'.
Proof. unfold pd.reindex. by rewrite length_map. Qed.










Lemma filter_all {A} (P : A → Prop) `{∀ a, Decision (P a)} (l : list A) :
  (∀ a, a ∈ l → P a) → filter P l = l.
Proof.
  induction l as [|a l IH]; intros Hall; [done|].
  rewrite filter_cons, decide_True by (apply Hall; left).
  rewrite IH; [done|]. intros a' Ha'. apply Hall. by right.
Qed.






(** * Orders *)

(** Every list of picks gives a permutation. *)
Lemma permute_Permutation {A} (picks : list nat) (l : list A) : permute picks l ≡ₚ l.
Proof.
  revert l. induction picks as [|p picks IH]; intros l; [done|].
  destruct l as [|x l]; [done|]. cbn [permute].
  destruct ((x :: l) !! (p `mod` length (x :: l))) as [y|] eqn:Hy; [|done].
  rewrite IH. symmetry. by apply delete_Permutation.
Qed.

(** Every permutation has its picks. *)
Lemma permute_complete {A} (l l' : list A) : l ≡ₚ l' → ∃ picks, permute picks l = l'.
Proof.
  revert l. induction l' as [|y l' IH]; intros l Hp.
  - apply Permutation_nil_r in Hp as ->. by exists [].
  - assert (y ∈ l) as Hy by (rewrite Hp; left).
    apply list_elem_of_lookup in Hy as [i Hi].
    pose proof (lookup_lt_Some _ _ _ Hi) as Hlt.
    destruct (IH (delete i l)) as [picks Hpicks].
    { apply (Permutation_cons_inv (a:=y)). by rewrite <- delete_Permutation. }
    exists (i :: picks). destruct l as [|x l]; [done|]. cbn [permute].
    rewrite Nat.mod_small by done. by rewrite Hi, Hpicks.
Qed.

Lemma permute_fmap {A B} (f : A → B) (picks : list nat) (l : list A) :
  permute picks (f <$> l) = f <$> permute picks l.
Proof.
  revert l. induction picks as [|p picks IH]; intros l; [done|].
  destruct l as [|x l]; [done|].
  rewrite fmap_cons. cbn [permute]. rewrite <- fmap_cons.
  rewrite length_fmap, list_lookup_fmap.
  destruct ((x :: l) !! (p `mod` length (x :: l))) as [y|]; [|done].
  change (f <$> Some y) with (Some (f y)). cbv beta iota.
  by rewrite <- list_fmap_delete, IH, fmap_cons.
Qed.

(** * A run of [cleanup_script.py], resumed or not *)

(** ** A fetch is a function of the client and the title *)

Lemma cleanup_fetch_shape ia title :
  ∃ rating evs, ∀ w,
    cleanup_script.get_imdb_rating ia title w = (Ret rating, logged w evs).
Proof.
  destruct (outcome_of (ia title 0) title) as [m0 r0 u0| |e0 evs0] eqn:O0.
  1,2: eexists _, _; intros w; rewrite cleanup_get_imdb_rating_unfold; cbn [for_return];
       unfold mbind, M_bind; rewrite cleanup_try_once, O0; reflexivity.
  destruct (outcome_of (ia title 1) title) as [m1 r1 u1| |e1 evs1] eqn:O1.
  1,2: eexists _, _; intros w; rewrite cleanup_get_imdb_rating_unfold; cbn [for_return];
       unfold mbind, M_bind; rewrite cleanup_try_once, O0; cbv beta iota zeta;
       rewrite cleanup_try_once, O1; cbv beta iota zeta;
       unfold mret, M_ret; rewrite !logged_logged; reflexivity.
  destruct (outcome_of (ia title 2) title) as [m2 r2 u2| |e2 evs2] eqn:O2.
  all: eexists _, _; intros w; rewrite cleanup_get_imdb_rating_unfold; cbn [for_return];
       unfold mbind, M_bind; rewrite cleanup_try_once, O0; cbv beta iota zeta;
       rewrite cleanup_try_once, O1; cbv beta iota zeta;
       rewrite cleanup_try_once, O2; cbv beta iota zeta;
       unfold mret, M_ret; rewrite !logged_logged; reflexivity.
Qed.

Lemma cleanup_fetch ia title w :
  cleanup_script.get_imdb_rating ia title w
  = (Ret (rating_of ia title), logged w (events_of ia title)).
Proof.
  destruct (cleanup_fetch_shape ia title) as (rating & evs & H).
  unfold rating_of, events_of. rewrite (H (disk [])), (H w). done.
Qed.

(** ** A worker *)

Lemma getitem_title_at titles i :
  i < length titles → getitem titles i = Ret (title_at titles i).
Proof.
  intros H. unfold getitem, title_at.
  destruct (lookup_lt_is_Some_2 titles i H) as [t ->]. done.
Qed.

Lemma cleanup_batch_loop ia titles batch indices rs ps w :
  Forall (λ i, i < length titles) indices →
  for_ indices (rs, ps)
    (λ '(ratings, progress) index,
       title ← lift (getitem titles index);
       rating ← cleanup_script.get_imdb_rating ia title;
       print (Processing (Some batch) (Z.of_nat index + 1) (Z.of_nat (length titles)));;
       mret (ratings ++ [rating], progress ++ [(index, title, rating)])) w
  = (Ret (rs ++ batch_ratings ia titles indices, ps ++ batch_records ia titles indices),
     logged w (batch_events ia titles batch indices)).
Proof.
  intros Hall. revert rs ps w.
  induction Hall as [|i indices Hi Hall IH]; intros rs ps w.
  - simpl. unfold mret, M_ret. by rewrite !app_nil_r, logged_nil.
  - cbn [for_]. unfold mbind at 1, M_bind at 1.
    rewrite (bind_ret (lift _) _ w (title_at titles i) w)
      by (unfold lift; by rewrite getitem_title_at).
    rewrite (bind_ret _ _ _ _ _ (cleanup_fetch ia (title_at titles i) w)).
    rewrite (bind_ret _ _ _ _ _ (print_eq _ _)).
    unfold mret at 1, M_ret at 1. rewrite IH. rewrite !logged_logged.
    unfold batch_ratings, batch_records, batch_events. cbn [map flat_map].
    by rewrite <- !app_assoc.
Qed.

Lemma cleanup_process_titles_eq ia titles indices progress_file batch w :
  Forall (λ i, i < length titles) indices →
  cleanup_script.process_titles ia titles indices progress_file batch w
  = (cleanup_script.save_progress (batch_records ia titles indices) progress_file;;
     mret (batch_ratings ia titles indices))
      (logged w (batch_events ia titles batch indices)).
Proof.
  intros Hall. unfold cleanup_script.process_titles.
  by rewrite (bind_ret _ _ _ _ _ (cleanup_batch_loop ia titles batch indices [] [] w Hall)).
Qed.

(** ** The progress file of a resumable run *)

Lemma is_record_row n row :
  is_record n row →
  pd.reindex ["Index"; "Title"; "Rating"] ["Index"; "Title"; "Rating"] row = row
  ∧ map pd.csv_cell row = row.
Proof. intros (i & t & r & -> & _ & Ht & Hr). split; [done|]. simpl. by rewrite Ht, Hr. Qed.

Lemma stored_is_record ia titles n i : i < n → is_record n (stored ia titles i).
Proof.
  intros H. unfold stored. eexists i, _, _. split; [done|].
  by rewrite !csv_cell_idemp.
Qed.

Lemma of_records_batch ia titles indices :
  indices ≠ [] →
  pd.of_records (batch_records ia titles indices)
  = {| pd.columns := ["Index"; "Title"; "Rating"];
       pd.rows := map (λ i, [PyInt (Z.of_nat i); title_at titles i;
                             rating_of ia (title_at titles i)]) indices |}.
Proof.
  intros H. destruct indices as [|i indices]; [done|].
  unfold pd.of_records, batch_records. by rewrite map_map.
Qed.

Lemma csv_batch ia titles indices :
  map (map pd.csv_cell)
    (map (λ i, [PyInt (Z.of_nat i); title_at titles i; rating_of ia (title_at titles i)])
       indices)
  = map (stored ia titles) indices.
Proof. rewrite map_map. by apply map_ext. Qed.

Lemma concat_batch n store ia titles indices :
  is_store n store → indices ≠ [] →
  pd.csv (pd.concat store (pd.of_records (batch_records ia titles indices)))
  = {| pd.columns := ["Index"; "Title"; "Rating"];
       pd.rows := pd.rows store ++ map (stored ia titles) indices |}.
Proof.
  intros [Hcols Hrows] H. rewrite of_records_batch by done.
  unfold pd.csv, pd.concat. rewrite Hcols. cbn [pd.columns pd.rows].
  change (["Index"; "Title"; "Rating"] ++ filter _ _) with ["Index"; "Title"; "Rating"].
  f_equal. rewrite map_app. f_equal.
  - rewrite map_map. rewrite <- (map_id (pd.rows store)) at 2.
    apply map_ext_in. intros row Hrow%list_elem_of_In.
    rewrite Forall_forall in Hrows.
    destruct (is_record_row n row (Hrows _ Hrow)) as [H1 H2].
    by rewrite H1, H2.
  - rewrite <- csv_batch. f_equal. rewrite map_map. by apply map_ext.
Qed.

(** An append of a batch to a resumable progress file leaves a resumable
    progress file with the rows of the batch after the others. *)
Lemma save_progress_batch n progress_file rows ia titles indices w :
  store_is n progress_file rows w →
  indices ≠ [] → Forall (λ i, i < n) indices →
  ∃ w' evs,
    cleanup_script.save_progress (batch_records ia titles indices) progress_file w
      = (Ret (), w')
    ∧ store_is n progress_file (rows ++ map (stored ia titles) indices) w'
    ∧ trace w' = trace w ++ evs ∧ filter is_lookup evs = [].
Proof.
  intros Hstore Hne Hall. unfold store_is in Hstore.
  assert (Forall (is_record n) (map (stored ia titles) indices)) as Hnew.
  { apply Forall_forall. intros row (i & -> & Hi)%list_elem_of_fmap.
    apply stored_is_record. rewrite Forall_forall in Hall. auto. }
  destruct (fs w !! progress_file) as [store|] eqn:Hfile.
  - destruct Hstore as [Hstore <-]. eexists _, _.
    split; [by apply save_progress_existing|].
    split; [|split; [reflexivity|done]].
    unfold store_is. cbn [fs]. rewrite lookup_insert_eq.
    rewrite (concat_batch n) by done. split; [|done].
    split; [done|]. cbn [pd.rows]. apply Forall_app. split; [apply Hstore | done].
  - subst rows. eexists _, _. split; [by apply save_progress_new|].
    split; [|split; [reflexivity|done]].
    unfold store_is. cbn [fs]. rewrite lookup_insert_eq.
    rewrite of_records_batch by done. unfold pd.csv. cbn [pd.columns pd.rows].
    rewrite csv_batch. split; [|done]. by split.
Qed.

(** ** The pool *)

Lemma submit_loop {A} (task : nat → A) (batch : nat → list nat) k a tasks last :
  foldl (λ '(tasks, _) b, (tasks ++ [task b], Some (batch b))) (tasks, last) (seq a k)
  = (tasks ++ map task (seq a k),
     match k with 0 => last | S k' => Some (batch (a + k')) end).
Proof.
  revert a tasks last. induction k as [|k IH]; intros a tasks last.
  - simpl. by rewrite app_nil_r.
  - cbn [seq foldl]. rewrite IH. rewrite <- app_assoc. f_equal.
    destruct k; f_equal; f_equal; lia.
Qed.

Lemma imap_tasks {A} (task : nat → A) a k :
  imap (λ i t, (a + i, t)) (map task (seq a k)) = map (λ b, (b, task b)) (seq a k).
Proof.
  revert a. induction k as [|k IH]; intros a; [done|].
  cbn [seq map]. rewrite imap_cons. f_equal; [f_equal; lia|].
  rewrite <- IH. apply imap_ext. intros i t _. simpl. f_equal. lia.
Qed.

Lemma lookups_batch_events ia titles batch indices :
  filter is_lookup (batch_events ia titles batch indices) = lookups_of ia titles indices.
Proof.
  unfold batch_events, lookups_of. induction indices as [|i indices IH]; [done|].
  cbn [flat_map]. rewrite !filter_app, IH. f_equal.
  rewrite filter_cons, decide_False by (intros []). by rewrite filter_nil, app_nil_r.
Qed.

(** The workers, one batch after the other in the order [bs]: every future
    is set to a list of ratings, the rows of the batches are appended to
    the progress file in that order, and the lookups are those of the
    rows of the batches. *)
Lemma run_batches n progress_file ia titles (batch : nat → list nat) bs :
  n = length titles →
  Forall (λ b, batch b ≠ [] ∧ Forall (λ i, i < n) (batch b)) bs →
  ∀ (futures : gmap nat (result (list pyval))) rows w,
    map_Forall (λ _ r, returned r) futures →
    store_is n progress_file rows w →
    ∃ (futures' : gmap nat (result (list pyval))) w' evs,
      for_ (map (λ b, (b, cleanup_script.process_titles ia titles (batch b) progress_file b)) bs)
        futures (λ futures '(i, task), r ← run_task task; mret (<[i := r]> futures)) w
      = (Ret futures', w')
      ∧ map_Forall (λ _ r, returned r) futures'
      ∧ store_is n progress_file (rows ++ flat_map (λ b, map (stored ia titles) (batch b)) bs) w'
      ∧ trace w' = trace w ++ evs
      ∧ filter is_lookup evs = flat_map (λ b, lookups_of ia titles (batch b)) bs.
Proof.
  intros -> Hbs. induction Hbs as [|b bs [Hne Hlt] Hbs IH]; intros futures rows w Hf Hs.
  - exists futures, w, []. cbn [map for_ flat_map]. rewrite !app_nil_r. done.
  - destruct (save_progress_batch _ progress_file rows ia titles (batch b)
                (logged w (batch_events ia titles b (batch b))) Hs Hne Hlt)
      as (w1 & evs1 & Hsave & Hs1 & Ht1 & Hl1).
    assert (run_task (cleanup_script.process_titles ia titles (batch b) progress_file b) w
            = (Ret (Ret (batch_ratings ia titles (batch b))), w1)) as Hrun.
    { unfold run_task. rewrite cleanup_process_titles_eq by done.
      by rewrite (bind_ret _ _ _ _ _ Hsave). }
    assert (map_Forall (λ _ r, returned r)
              (<[b := Ret (batch_ratings ia titles (batch b))]> futures)) as Hf1.
    { apply map_Forall_insert_2; [by eexists | done]. }
    destruct (IH _ _ w1 Hf1 Hs1) as (futures' & w' & evs & Hfor & Hf' & Hs' & Ht' & Hl').
    exists futures', w', (batch_events ia titles b (batch b) ++ evs1 ++ evs).
    split; [|split; [done|split; [|split]]].
    + cbn [map for_]. unfold mbind at 1, M_bind at 1.
      rewrite (bind_ret _ _ _ _ _ Hrun). unfold mret at 1, M_ret at 1. exact Hfor.
    + cbn [flat_map]. by rewrite app_assoc.
    + rewrite Ht', Ht1. simpl. by rewrite <- !app_assoc.
    + rewrite !filter_app, Hl1, Hl', lookups_batch_events. done.
Qed.

(** ** The collection and the fill *)

Lemma setitem_nat {A} (l : list A) (i : nat) (v : A) :
  i < length l → setitem l (Z.of_nat i) v = Ret (<[i := v]> l).
Proof.
  intros H. unfold setitem. rewrite bool_decide_eq_true_2 by lia. by rewrite Nat2Z.id.
Qed.

(** The guarded writes of the collection loop never fail. *)
Lemma guarded_writes (pairs : list (nat * pyval)) (ratings : list pyval) w :
  ∃ ratings',
    for_ pairs ratings
      (λ ratings '(index, rating),
         if bool_decide (index < length ratings)
         then lift (setitem ratings (Z.of_nat index) rating)
         else mret ratings) w
    = (Ret ratings', w)
    ∧ length ratings' = length ratings.
Proof.
  revert ratings. induction pairs as [|[index rating] pairs IH]; intros ratings.
  - by exists ratings.
  - cbn [for_]. unfold mbind at 1, M_bind at 1. case_bool_decide as Hlt.
    + unfold lift at 1. rewrite setitem_nat by done.
      destruct (IH (<[index := rating]> ratings)) as (ratings' & -> & Hlen).
      exists ratings'. split; [done|]. by rewrite Hlen, length_insert.
    + unfold mret at 1, M_ret at 1. apply IH.
Qed.

Lemma collection (futures : list (result (list pyval))) (last : option (list nat))
    (ratings : list pyval) w :
  Forall returned futures → (futures = [] ∨ is_Some last) →
  ∃ ratings',
    for_ futures ratings
      (λ ratings future,
         batch_ratings ← lift future;
         batch_indices ← lift (local last);
         for_ (zip batch_indices batch_ratings) ratings
           (λ ratings '(index, rating),
              if bool_decide (index < length ratings)
              then lift (setitem ratings (Z.of_nat index) rating)
              else mret ratings)) w
    = (Ret ratings', w)
    ∧ length ratings' = length ratings.
Proof.
  intros Hall Hlast. revert ratings.
  induction Hall as [|future futures [batch_ratings ->] Hall IH]; intros ratings.
  - by exists ratings.
  - destruct Hlast as [?|[batch_indices ->]]; [done|].
    cbn [for_]. unfold mbind at 1, M_bind at 1.
    rewrite (bind_ret (lift _) _ w batch_ratings w) by done.
    rewrite (bind_ret (lift _) _ w batch_indices w) by done.
    destruct (guarded_writes (zip batch_indices batch_ratings) ratings w)
      as (ratings1 & -> & Hlen1).
    destruct (IH (or_intror (ex_intro _ _ eq_refl)) ratings1) as (ratings' & -> & Hlen).
    exists ratings'. split; [done|]. congruence.
Qed.

Lemma fill_length rows ratings : length (fill rows ratings) = length ratings.
Proof.
  revert ratings. induction rows as [|row rows IH]; intros ratings; [done|].
  unfold fill in *. cbn [foldl]. rewrite IH.
  repeat case_match; try done. apply length_insert.
Qed.

Lemma fill_loop n (rows : list (list pyval)) (ratings : list pyval) w :
  Forall (is_record n) rows → length ratings = n →
  for_ rows ratings
    (λ ratings row,
       rating ← lift (pd.getitem ["Index"; "Title"; "Rating"] row "Rating");
       index ← lift (pd.getitem ["Index"; "Title"; "Rating"] row "Index");
       index ← lift (py_int index);
       lift (setitem ratings index rating)) w
  = (Ret (fill rows ratings), w).
Proof.
  intros Hrows. revert ratings.
  induction Hrows as [|row rows (i & t & r & -> & Hi & _) Hrows IH]; intros ratings Hlen.
  - done.
  - cbn [for_]. unfold mbind at 1, M_bind at 1.
    rewrite (bind_ret (lift _) _ w r w) by done.
    rewrite (bind_ret (lift _) _ w (PyInt (Z.of_nat i)) w) by done.
    rewrite (bind_ret (lift _) _ w (Z.of_nat i) w) by done.
    unfold lift at 1. rewrite setitem_nat by lia.
    rewrite IH by (by rewrite length_insert).
    unfold fill. cbn [foldl]. by rewrite Nat2Z.id.
Qed.

Lemma recorded_snoc rows row i :
  recorded (rows ++ [row]) i
  = match row with
    | [PyInt z; _; rating] => if decide (z = Z.of_nat i) then Some rating else recorded rows i
    | _ => recorded rows i
    end.
Proof.
  unfold recorded. rewrite omap_app.
  destruct row as [|[] [|? [|? []]]]; simpl; rewrite ?app_nil_r; try done.
  case_decide; [by rewrite last_snoc | by rewrite app_nil_r].
Qed.

Lemma recorded_app rows rows' i :
  recorded (rows ++ rows') i
  = match recorded rows' i with Some rating => Some rating | None => recorded rows i end.
Proof.
  induction rows' as [|row rows' IH] using rev_ind.
  - by rewrite app_nil_r.
  - rewrite app_assoc, !recorded_snoc, IH. by repeat case_match.
Qed.

Lemma fill_snoc rows row ratings :
  fill (rows ++ [row]) ratings
  = match row with
    | [PyInt z; _; rating] => <[Z.to_nat z := rating]> (fill rows ratings)
    | _ => fill rows ratings
    end.
Proof. unfold fill. by rewrite foldl_snoc. Qed.

(** After the fill, row [i] holds the rating recorded for it, or what it
    held before when none is. *)
Lemma fill_lookup n rows (ratings : list pyval) (i : nat) :
  Forall (is_record n) rows → (n ≤ length ratings)%nat →
  fill rows ratings !! i
  = match recorded rows i with Some rating => Some rating | None => ratings !! i end.
Proof.
  intros Hrows Hlen. revert Hrows.
  induction rows as [|row rows IH] using rev_ind; intros Hrows; [done|].
  apply Forall_app in Hrows as [Hrows Hrow]. apply Forall_cons in Hrow as [Hrow _].
  destruct Hrow as (j & t & r & -> & Hj & _).
  rewrite fill_snoc, recorded_snoc, Nat2Z.id.
  destruct (decide (Z.of_nat j = Z.of_nat i)) as [Heq|Hne].
  - apply Nat2Z.inj in Heq as ->. rewrite list_lookup_insert_eq; [done|].
    rewrite fill_length. lia.
  - rewrite list_lookup_insert_ne by lia. by apply IH.
Qed.

(** ** The batches *)

Lemma batch_of_eq (U : list nat) b : batch_of U b = take 5 (drop (b * 5) U).
Proof. unfold batch_of, slice. by replace ((b + 1) * 5 - b * 5) with 5 by lia. Qed.

Lemma batch_of_S (U : list nat) b : batch_of U (S b) = batch_of (drop 5 U) b.
Proof. by rewrite !batch_of_eq, drop_drop. Qed.

Lemma num_batches_nil : num_batches [] = 0.
Proof. reflexivity. Qed.

Lemma num_batches_drop (U : list nat) :
  U ≠ [] → num_batches U = S (num_batches (drop 5 U)).
Proof.
  intros H. unfold num_batches. rewrite length_drop.
  assert (0 < length U) as Hpos by (destruct U; [done | simpl; lia]).
  destruct (decide (length U < 5)) as [Hlt|Hge].
  - replace (length U - 5 + 5 - 1) with 4 by lia.
    change (4 `div` 5) with 0.
    symmetry. apply (Nat.div_unique _ 5 1 (length U - 1)); lia.
  - replace (length U + 5 - 1) with (length U - 5 + 5 - 1 + 1 * 5) by lia.
    by rewrite Nat.div_add, Nat.add_1_r by lia.
Qed.

(** The batches, one after the other, are the unprocessed rows. *)
Lemma batches_cover (U : list nat) : flat_map (batch_of U) (seq 0 (num_batches U)) = U.
Proof.
  remember (length U) as k eqn:Hk. revert U Hk.
  induction k as [k IH] using lt_wf_ind; intros U ->.
  destruct (decide (U = [])) as [->|Hne]; [done|].
  rewrite num_batches_drop by done. cbn [seq flat_map].
  rewrite <- fmap_S_seq, <- map_is_fmap, flat_map_concat_map, map_map.
  rewrite <- flat_map_concat_map.
  rewrite (flat_map_ext _ (batch_of (drop 5 U))) by (intros b; apply batch_of_S).
  rewrite (IH (length (drop 5 U))); [|rewrite length_drop; destruct U; simpl in *; [done|lia]|done].
  rewrite batch_of_eq. simpl. apply take_drop.
Qed.

Lemma batch_nonempty (U : list nat) b : b < num_batches U → batch_of U b ≠ [].
Proof.
  intros Hb. rewrite batch_of_eq. intros Hnil%(f_equal length).
  rewrite length_take, length_drop in Hnil. change (length []) with 0 in Hnil.
  unfold num_batches in Hb.
  assert (b * 5 < length U); [|lia].
  pose proof (Nat.div_mod_eq (length U + 5 - 1) 5).
  pose proof (Nat.mod_upper_bound (length U + 5 - 1) 5). lia.
Qed.

Lemma batch_subset (U : list nat) b i : i ∈ batch_of U b → i ∈ U.
Proof.
  rewrite batch_of_eq. intros H. by apply (subseteq_drop (b * 5)), (subseteq_take 5).
Qed.

(** ** The rows left to process *)

Lemma recorded_None n rows i :
  Forall (is_record n) rows →
  recorded rows i = None ↔ ∀ title rating, [PyInt (Z.of_nat i); title; rating] ∉ rows.
Proof.
  induction rows as [|row rows IH] using rev_ind; intros Hrows.
  - split; [intros _ ? ?; apply not_elem_of_nil | done].
  - apply Forall_app in Hrows as [Hrows Hrow]. apply Forall_cons in Hrow as [Hrow _].
    destruct Hrow as (j & t & r & -> & Hj & _).
    rewrite recorded_snoc. case_decide as Heq.
    + apply Nat2Z.inj in Heq as ->. split; [done|]. intros H. destruct (H t r).
      apply elem_of_app. right. left.
    + rewrite IH by done. split.
      * intros H title rating [Hin|Hin%list_elem_of_singleton]%elem_of_app.
        -- by apply (H title rating).
        -- injection Hin as Hi _ _. lia.
      * intros H title rating Hin. apply (H title rating), elem_of_app. by left.
Qed.

Lemma processed_indices n rows i :
  Forall (is_record n) rows →
  i ∈ omap as_index (map (λ row, pd.cell row 0) rows)
  ↔ ∃ title rating, [PyInt (Z.of_nat i); title; rating] ∈ rows.
Proof.
  intros Hrows. rewrite list_elem_of_omap. split.
  - intros (v & (row & -> & Hrow)%list_elem_of_fmap & Hi).
    rewrite Forall_forall in Hrows. destruct (Hrows _ Hrow) as (j & t & r & -> & _).
    unfold pd.cell in Hi. simpl in Hi. rewrite bool_decide_eq_true_2 in Hi by lia.
    injection Hi as <-. rewrite Nat2Z.id. eauto.
  - intros (t & r & Hrow). exists (PyInt (Z.of_nat i)). split.
    + apply list_elem_of_fmap. by exists [PyInt (Z.of_nat i); t; r].
    + simpl. rewrite bool_decide_eq_true_2 by lia. by rewrite Nat2Z.id.
Qed.

(** The rows scheduled are the rows without a record, each once. *)
Lemma unprocessed_spec order n rows i :
  Forall (is_record n) rows →
  i ∈ cleanup_script.unprocessed order n (map (λ row, pd.cell row 0) rows)
  ↔ i < n ∧ recorded rows i = None.
Proof.
  intros Hrows. unfold cleanup_script.unprocessed.
  rewrite permute_Permutation, elem_of_elements, elem_of_difference.
  rewrite !elem_of_list_to_set, elem_of_seq, (processed_indices n) by done.
  rewrite (recorded_None n) by done. split.
  - intros [? H]. split; [lia|]. intros t r Hin. apply H. eauto.
  - intros [? H]. split; [lia|]. intros (t & r & Hin). by apply (H t r).
Qed.

Lemma unprocessed_NoDup order n processed :
  NoDup (cleanup_script.unprocessed order n processed).
Proof.
  unfold cleanup_script.unprocessed. rewrite permute_Permutation. apply NoDup_elements.
Qed.

(** ** The rating list *)

Lemma recorded_stored ia titles (fetched : list nat) i :
  recorded (map (stored ia titles) fetched) i
  = if decide (i ∈ fetched) then Some (pd.csv_cell (rating_of ia (title_at titles i)))
    else None.
Proof.
  induction fetched as [|j fetched IH] using rev_ind.
  - rewrite decide_False; [done|]. apply not_elem_of_nil.
  - rewrite map_app. cbn [map]. unfold stored at 2. rewrite recorded_snoc.
    destruct (decide (Z.of_nat j = Z.of_nat i)) as [Heq|Hne].
    + apply Nat2Z.inj in Heq as ->. rewrite decide_True; [done|].
      apply elem_of_app. right. left.
    + rewrite IH. destruct (decide (i ∈ fetched)) as [Hin|Hnin].
      * rewrite decide_True; [done|]. apply elem_of_app. by left.
      * rewrite decide_False; [done|].
        intros [?|Hin%list_elem_of_singleton]%elem_of_app; [done|]. lia.
Qed.

(** The list after the fill does not depend on what the collection has
    written: every row has a record. *)
Lemma filled_ratings n ia titles rows (fetched : list nat) (ratings : list pyval) :
  Forall (is_record n) rows → Forall (λ i, i < n) fetched →
  (∀ i, i ∈ fetched ↔ i < n ∧ recorded rows i = None) →
  length ratings = n →
  fill (rows ++ map (stored ia titles) fetched) ratings
  = map (λ i, match recorded rows i with
              | Some rating => rating
              | None => pd.csv_cell (rating_of ia (title_at titles i))
              end) (seq 0 n).
Proof.
  intros Hrows Hlt Hfetched Hlen. apply list_eq. intros i.
  destruct (decide (i < n)) as [Hi|Hi].
  - rewrite (fill_lookup n); [|apply Forall_app; split; [done|] |lia].
    2:{ apply Forall_forall. intros row (j & -> & Hj)%list_elem_of_fmap.
        apply stored_is_record. rewrite Forall_forall in Hlt. auto. }
    rewrite recorded_app, recorded_stored.
    rewrite map_is_fmap, list_lookup_fmap, lookup_seq_lt by done. simpl.
    destruct (decide (i ∈ fetched)) as [Hin|Hnin].
    + apply Hfetched in Hin as [_ ->]. done.
    + destruct (recorded rows i) as [rating|] eqn:Hrec; [done|].
      destruct Hnin. by apply Hfetched.
  - rewrite !lookup_ge_None_2; [done| |].
    + rewrite length_map, length_seq. lia.
    + rewrite fill_length. lia.
Qed.

Lemma store_is_records n progress_file rows w :
  store_is n progress_file rows w → Forall (is_record n) rows.
Proof.
  unfold store_is. destruct (fs w !! progress_file) as [store|].
  - by intros [[_ H] <-].
  - by intros ->.
Qed.

Lemma permute_nil {A} (picks : list nat) : permute picks (@nil A) = [].
Proof. by destruct picks. Qed.

Lemma as_completed_returned {A} picks n (futures : gmap nat (result A)) :
  map_Forall (λ _ r, returned r) futures → Forall returned (as_completed picks n futures).
Proof.
  intros H. unfold as_completed. apply Forall_forall.
  intros r (b & _ & Hb)%list_elem_of_omap. by apply (H b).
Qed.

Lemma map_flat_map_batches {A} (f : nat → A) (batch : nat → list nat) bs :
  flat_map (λ b, map f (batch b)) bs = map f (flat_map batch bs).
Proof.
  induction bs as [|b bs IH]; [done|]. cbn [flat_map]. by rewrite map_app, IH.
Qed.

Lemma lookups_of_batches ia titles (batch : nat → list nat) bs :
  flat_map (λ b, lookups_of ia titles (batch b)) bs = lookups_of ia titles (flat_map batch bs).
Proof.
  induction bs as [|b bs IH]; [done|]. cbn [flat_map]. unfold lookups_of in *.
  by rewrite flat_map_app, IH.
Qed.

(** The rating list of a run of [cleanup_script.py] over [n] rows whose
    progress file holds [rows]: the recorded rating where there is one,
    the fetched one elsewhere; the rows fetched are the rows scheduled. *)
Lemma cleanup_collect_ratings_eq ia sched titles (U : list nat) n progress_file rows w :
  n = length titles →
  store_is n progress_file rows w →
  (∀ i, i ∈ U ↔ i < n ∧ recorded rows i = None) →
  ∃ w' fetched evs,
    cleanup_script.collect_ratings ia sched titles U n progress_file w
    = (Ret (map (λ i, match recorded rows i with
                      | Some rating => rating
                      | None => pd.csv_cell (rating_of ia (title_at titles i))
                      end) (seq 0 n)), w')
    ∧ fetched ≡ₚ U
    ∧ trace w' = trace w ++ evs
    ∧ filter is_lookup evs = lookups_of ia titles fetched
    ∧ store_is n progress_file (rows ++ map (stored ia titles) fetched) w'.
Proof.
  intros Hn Hstore HU.
  pose proof (store_is_records _ _ _ _ Hstore) as Hrows.
  unfold cleanup_script.collect_ratings. cbv zeta.
  change ((length U + 5 - 1) `div` 5) with (num_batches U).
  match goal with
  | |- context [foldl ?f ?a ?l] =>
      assert (foldl f a l
              = (map (λ b, cleanup_script.process_titles ia titles (batch_of U b)
                             progress_file b) (seq 0 (num_batches U)),
                 match num_batches U with
                 | 0 => None
                 | S k => Some (batch_of U k)
                 end)) as ->
        by exact (submit_loop
                    (λ b, cleanup_script.process_titles ia titles (batch_of U b)
                            progress_file b)
                    (batch_of U) (num_batches U) 0 [] None)
  end. unfold run_pool. rewrite <- (imap_ext (λ i t, (0 + i, t))) by done.
  rewrite imap_tasks, map_is_fmap, permute_fmap, <- map_is_fmap.
  set (bs := permute (run_order sched) (seq 0 (num_batches U))).
  assert (bs ≡ₚ seq 0 (num_batches U)) as Hbs by apply permute_Permutation.
  assert (Forall (λ b, batch_of U b ≠ [] ∧ Forall (λ i, i < n) (batch_of U b)) bs) as Hbatches.
  { apply Forall_forall. intros b Hb. rewrite Hbs in Hb. apply elem_of_seq in Hb.
    split; [apply batch_nonempty; lia|].
    apply Forall_forall. intros i Hi%batch_subset. by apply HU in Hi as [? _]. }
  destruct (run_batches n progress_file ia titles (batch_of U) bs Hn Hbatches ∅ rows w)
    as (futures & w1 & evs & Hpool & Hfutures & Hstore1 & Htrace1 & Hlookups1);
    [apply map_Forall_empty | done |].
  rewrite (bind_ret _ _ _ _ _ Hpool).
  set (fetched := flat_map (batch_of U) bs).
  assert (fetched ≡ₚ U) as Hfetched.
  { unfold fetched. rewrite Hbs. by rewrite batches_cover. }
  assert (Forall (λ i, i < n) fetched) as Hlt.
  { apply Forall_forall. intros i Hi. rewrite Hfetched in Hi. by apply HU in Hi as [? _]. }
  assert (∀ i, i ∈ fetched ↔ i < n ∧ recorded rows i = None) as HU'.
  { intros i. by rewrite Hfetched. }
  rewrite map_flat_map_batches in Hstore1. rewrite lookups_of_batches in Hlookups1.
  fold fetched in Hstore1, Hlookups1.
  destruct (collection (as_completed (completion_order sched) (num_batches U) futures)
              (match num_batches U with 0 => None | S k => Some (batch_of U k) end)
              (replicate n PyNone) w1) as (collected & Hcollect & Hlen).
  { by apply as_completed_returned. }
  { destruct (num_batches U); [left|right; eauto].
    unfold as_completed. cbn [seq]. by rewrite permute_nil. }
  rewrite (bind_ret _ _ _ _ _ Hcollect). rewrite length_replicate in Hlen.
  pose proof (filled_ratings n ia titles rows fetched collected Hrows Hlt HU' Hlen) as Hfill.
  unfold store_is in Hstore1.
  destruct (fs w1 !! progress_file) as [store|] eqn:Hfile.
  - destruct Hstore1 as [[Hcols Hrecords] Hrows1].
    rewrite (bind_ret _ _ _ _ _ (path_exists_some _ _ _ Hfile)).
    rewrite (bind_ret _ _ _ _ _ (read_csv_some _ _ _ Hfile)).
    rewrite Hcols, (fill_loop n) by done. rewrite Hrows1, Hfill.
    exists (logged w1 [ReadCsv progress_file]), fetched, (evs ++ [ReadCsv progress_file]).
    split; [done|]. split; [done|]. split; [|split].
    + cbn [logged trace]. by rewrite Htrace1, app_assoc.
    + rewrite filter_app, Hlookups1. cbn. by rewrite app_nil_r.
    + unfold store_is. cbn [logged fs]. by rewrite Hfile.
  - rewrite (bind_ret _ _ _ _ _ (path_exists_none _ _ Hfile)).
    rewrite Hstore1 in Hfill. change (fill [] collected) with collected in Hfill.
    rewrite <- Hfill.
    exists w1, fetched, evs. split; [done|]. split; [done|]. split; [done|].
    split; [done|]. unfold store_is. by rewrite Hfile.
Qed.

(** ** The whole run *)

Lemma column_ok c df cells :
  pd.column c df = Ret cells → pd.has_column c df = true ∧ length cells = pd.len df.
Proof.
  unfold pd.column. destruct (pd.position c (pd.columns df)) as [p|] eqn:Hp; [|done].
  intros [= <-]. split.
  - apply has_column_true. by eapply list_elem_of_lookup_2, position_Some.
  - unfold pd.len. by rewrite length_map.
Qed.

Lemma assign_ok c cells df :
  length cells = pd.len df → ∃ df', pd.assign c cells df = Ret df'.
Proof.
  intros H. unfold pd.assign. rewrite bool_decide_eq_true_2 by done.
  destruct (pd.position c (pd.columns df)); eauto.
Qed.

Lemma store_is_logged n path rows w evs :
  store_is n path rows w → store_is n path rows (logged w evs).
Proof. done. Qed.

(** A run of [cleanup_script.py] on a dataset with a [title] column whose
    progress file is absent or was left by an earlier run over the same
    rows, with the progress file it leaves: the records that were there,
    followed by the records of the rows fetched. *)
Lemma cleanup_run_store (ia : IMDb) (sched : schedule) (input_file : string) (w : world)
    (df : pd.DataFrame) (titles : list pyval) :
  let progress_file := Str.replace input_file ".csv" "_progress.csv" in
  let output_file := Str.replace input_file ".csv" "_modified.csv" in
  let n := pd.len df in
  let rows := stored_rows (fs w !! progress_file) in
  let ratings :=
    map (λ i, match recorded rows i with
              | Some rating => rating
              | None => pd.csv_cell (rating_of ia (title_at titles i))
              end) (seq 0 n) in
  fs w !! input_file = Some df →
  pd.column "title" df = Ret titles →
  match fs w !! progress_file with
  | Some store => is_store n store
  | None => True
  end →
  ∃ w' fetched df',
    cleanup_script.add_imdb_ratings ia sched input_file w = (Ret (), w')
    ∧ fetched ≡ₚ filter (λ i, recorded rows i = None) (seq 0 n)
    ∧ filter is_lookup (trace w') = filter is_lookup (trace w) ++ lookups_of ia titles fetched
    ∧ pd.assign "IMDB_Rating" ratings df = Ret df'
    ∧ fs w' !! output_file = Some (pd.csv df')
    ∧ (progress_file ≠ output_file →
       store_is n progress_file (rows ++ map (stored ia titles) fetched) w').
Proof.
  intros progress_file output_file n rows ratings Hfile Htitles Hstore.
  destruct (column_ok _ _ _ Htitles) as [Hhas Hlen]. fold n in Hlen.
  destruct (assign_ok "IMDB_Rating" ratings df) as [df' Hassign].
  { unfold ratings. by rewrite length_map, length_seq. }
  set (w0 := logged w [ReadCsv input_file]).
  (* the progress file is loaded *)
  assert (∃ evs1, filter is_lookup evs1 = [] ∧ ∀ B (k : list pyval → M B),
    (existing ← path_exists progress_file;
     processed_indices ←
       (if existing : bool
        then progress_df ← read_csv progress_file; lift (pd.column "Index" progress_df)
        else mret []);
     k processed_indices) w0
    = k (map (λ row, pd.cell row 0) rows) (logged w0 evs1)) as (evs1 & Hl1 & Hload).
  { subst rows. destruct (fs w !! progress_file) as [store|] eqn:Hp; cbn [stored_rows].
    - exists [ReadCsv progress_file]. split; [done|]. intros B k.
      rewrite (bind_ret _ _ _ _ _ (path_exists_some _ w0 _ Hp)).
      erewrite bind_ret; [done|].
      rewrite (bind_ret _ _ _ _ _ (read_csv_some _ w0 _ Hp)).
      unfold pd.column. destruct Hstore as [-> _]. done.
    - exists []. split; [done|]. intros B k.
      rewrite (bind_ret _ _ _ _ _ (path_exists_none _ w0 Hp)).
      by rewrite logged_nil. }
  assert (store_is n progress_file rows (logged w0 evs1)) as Hstore1.
  { unfold store_is. cbn [logged fs]. subst rows.
    unfold w0. cbn [logged fs]. destruct (fs w !! progress_file); [by split|done]. }
  pose proof (store_is_records _ _ _ _ Hstore1) as Hrows.
  set (U := cleanup_script.unprocessed (set_order sched) n (map (λ row, pd.cell row 0) rows)).
  destruct (cleanup_collect_ratings_eq ia sched titles U n progress_file rows
              (logged w0 evs1) (eq_sym Hlen) Hstore1)
    as (w2 & fetched & evs2 & Hcollect & Hfetched & Htrace2 & Hl2 & Hstore2).
  { intros i. by apply unprocessed_spec. }
  exists {| fs := <[output_file := pd.csv df']> (fs w2);
            trace := (trace w2 ++ [ToCsv output_file]) ++ [Print (Saved output_file)] |},
    fetched, df'.
  split; [|split; [|split; [|split; [|split]]]].
  - unfold cleanup_script.add_imdb_ratings.
    rewrite (bind_ret _ _ _ _ _ (read_csv_some _ _ _ Hfile)).
    rewrite Hhas. cbn [negb]. fold progress_file output_file n w0.
    rewrite Hload.
    rewrite (bind_ret (lift _) _ _ titles (logged w0 evs1)) by (by rewrite Htitles).
    fold U. rewrite (bind_ret _ _ _ _ _ Hcollect).
    fold ratings. rewrite (bind_ret (lift _) _ _ df' w2) by (by rewrite Hassign).
    reflexivity.
  - apply NoDup_Permutation.
    + rewrite Hfetched. apply unprocessed_NoDup.
    + apply NoDup_filter, NoDup_seq.
    + intros i. rewrite Hfetched, list_elem_of_filter, elem_of_seq.
      unfold U. rewrite (unprocessed_spec _ n) by done. split; intros [? ?]; split; [done|lia|lia|done].
  - cbn [trace]. rewrite Htrace2. cbn [logged trace]. unfold w0. cbn [logged trace].
    rewrite !filter_app, Hl1, Hl2. cbn. by rewrite !app_nil_r.
  - done.
  - cbn [fs]. by rewrite lookup_insert_eq.
  - intros Hne. unfold store_is in *. cbn [fs]. by rewrite lookup_insert_ne.
Qed.

(** A run of [cleanup_script.py] on a dataset with a [title] column whose
    progress file is absent or was left by an earlier run over the same
    rows: the run completes; it fetches the rows without a record, each
    once, and no other row; the rating column has, for each row, the
    rating recorded last for it or else the rating fetched. *)
Theorem cleanup_run (ia : IMDb) (sched : schedule) (input_file : string) (w : world)
    (df : pd.DataFrame) (titles : list pyval) :
  let progress_file := Str.replace input_file ".csv" "_progress.csv" in
  let output_file := Str.replace input_file ".csv" "_modified.csv" in
  let n := pd.len df in
  let rows := stored_rows (fs w !! progress_file) in
  let ratings :=
    map (λ i, match recorded rows i with
              | Some rating => rating
              | None => pd.csv_cell (rating_of ia (title_at titles i))
              end) (seq 0 n) in
  fs w !! input_file = Some df →
  pd.column "title" df = Ret titles →
  match fs w !! progress_file with
  | Some store => is_store n store
  | None => True
  end →
  ∃ w' fetched df',
    cleanup_script.add_imdb_ratings ia sched input_file w = (Ret (), w')
    ∧ fetched ≡ₚ filter (λ i, recorded rows i = None) (seq 0 n)
    ∧ filter is_lookup (trace w') = filter is_lookup (trace w) ++ lookups_of ia titles fetched
    ∧ pd.assign "IMDB_Rating" ratings df = Ret df'
    ∧ fs w' !! output_file = Some (pd.csv df').
Proof.
  intros progress_file output_file n rows ratings Hfile Htitles Hstore.
  destruct (cleanup_run_store ia sched input_file w df titles Hfile Htitles Hstore)
    as (w' & fetched & df' & Hrun & Hfetched & Hlookups & Hassign & Hout & _).
  by exists w', fetched, df'.
Qed.

Lemma recorded_faithful ia titles rows i rating :
  Forall (λ row, ∃ j, row = stored ia titles j) rows →
  recorded rows i = Some rating →
  rating = pd.csv_cell (rating_of ia (title_at titles i)).
Proof.
  induction rows as [|row rows IH] using rev_ind; intros Hrows; [done|].
  apply Forall_app in Hrows as [Hrows Hrow]. apply Forall_cons in Hrow as [[j ->] _].
  unfold stored at 1. rewrite recorded_snoc. case_decide as Heq; [|by apply IH].
  apply Nat2Z.inj in Heq as ->. by intros [= <-].
Qed.

(** X22.  Resuming [cleanup_script.py].  The progress file holds
    records that an earlier run over the same dataset with the same
    client has written.  Whatever the orders of the two runs, the resumed
    run and a run without progress file both complete and write the same
    output file; the resumed run looks up the rows without a record and
    no other row. *)
Corollary cleanup_resumes (ia : IMDb) (sched sched' : schedule) (input_file : string)
    (stopped fresh : world) (df store : pd.DataFrame) (titles : list pyval) :
  let progress_file := Str.replace input_file ".csv" "_progress.csv" in
  let output_file := Str.replace input_file ".csv" "_modified.csv" in
  fs stopped !! input_file = Some df → fs fresh !! input_file = Some df →
  pd.column "title" df = Ret titles →
  fs stopped !! progress_file = Some store →
  is_store (pd.len df) store →
  Forall (λ row, ∃ i, row = stored ia titles i) (pd.rows store) →
  fs fresh !! progress_file = None →
  ∃ resumed uninterrupted fetched,
    cleanup_script.add_imdb_ratings ia sched input_file stopped = (Ret (), resumed)
    ∧ cleanup_script.add_imdb_ratings ia sched' input_file fresh = (Ret (), uninterrupted)
    ∧ fs resumed !! output_file = fs uninterrupted !! output_file
    ∧ filter is_lookup (trace resumed)
      = filter is_lookup (trace stopped) ++ lookups_of ia titles fetched
    ∧ ∀ i, i ∈ fetched ↔ i < pd.len df ∧ recorded (pd.rows store) i = None.
Proof.
  intros progress_file output_file Hstopped Hfresh Htitles Hstore Hok Hfaithful Hnone.
  destruct (cleanup_run ia sched input_file stopped df titles Hstopped Htitles)
    as (resumed & fetched & df1 & Hrun1 & Hfetched & Hlookups & Hassign1 & Hout1).
  { fold progress_file. by rewrite Hstore. }
  destruct (cleanup_run ia sched' input_file fresh df titles Hfresh Htitles)
    as (uninterrupted & fetched2 & df2 & Hrun2 & _ & _ & Hassign2 & Hout2).
  { fold progress_file. by rewrite Hnone. }
  fold progress_file output_file in Hfetched, Hlookups, Hassign1, Hassign2, Hout1, Hout2.
  rewrite Hstore in Hfetched, Hassign1. rewrite Hnone in Hassign2.
  cbn [stored_rows] in Hfetched, Hassign1, Hassign2.
  exists resumed, uninterrupted, fetched. split; [done|]. split; [done|].
  split; [|split; [done|]].
  - rewrite Hout1, Hout2. do 2 f_equal.
    assert (Ret df1 = Ret df2) as [= ->]; [|done].
    rewrite <- Hassign1, <- Hassign2. f_equal. apply map_ext. intros i.
    destruct (recorded (pd.rows store) i) as [rating|] eqn:Hrec; [|done].
    by apply (recorded_faithful ia titles) in Hrec.
  - intros i. rewrite Hfetched, list_elem_of_filter, elem_of_seq. split; intros [? ?]; split; [lia|done|done|lia].
Qed.

Lemma cleanup_resumes_witness :
  let stopped := disk [("movies.csv", movies 12); ("movies_progress.csv", five_done)] in
  let fresh := disk [("movies.csv", movies 12)] in
  fs (cleanup_script.add_imdb_ratings ia_catalogue last_first "movies.csv" stopped).2
    !! "movies_modified.csv"
  = fs (cleanup_script.add_imdb_ratings ia_catalogue in_order "movies.csv" fresh).2
    !! "movies_modified.csv".
Proof.
  intros stopped fresh.
  destruct (cleanup_resumes ia_catalogue last_first in_order "movies.csv" stopped fresh
              (movies 12) five_done (titles 12))
    as (resumed & uninterrupted & fetched & -> & -> & Hsame & _); try reflexivity.
  - split; [reflexivity|]. unfold five_done. cbn [pd.rows].
    constructor; [eexists 0, _, _; split; [reflexivity|]; split; [vm_compute; lia|done]|].
    constructor; [eexists 1, _, _; split; [reflexivity|]; split; [vm_compute; lia|done]|].
    constructor; [eexists 2, _, _; split; [reflexivity|]; split; [vm_compute; lia|done]|].
    constructor; [eexists 3, _, _; split; [reflexivity|]; split; [vm_compute; lia|done]|].
    constructor; [eexists 4, _, _; split; [reflexivity|]; split; [vm_compute; lia|done]|].
    constructor.
  - unfold five_done. cbn [pd.rows].
    constructor; [by exists 0|]. constructor; [by exists 1|].
    constructor; [by exists 2|]. constructor; [by exists 3|].
    constructor; [by exists 4|]. constructor.
  - exact Hsame.
Defined.

(** * Resuming, and the order of completion *)

(** C3, where the code departs from it.  [imdb_rating_script.py], started
    on twelve titles with a progress file that records the rows 0 to 4:
    it fetches the rows 0 to 6, the recorded ones among them, and never
    the rows 7 to 11; the recorded ratings do not reach the rating
    column; the column differs from the one of an uninterrupted run.
    [cleanup_script.py] on the same files fetches the rows 5 to 11 only
    and writes the column of its uninterrupted run, with the recorded
    ratings in it, as it does on every dataset ([cleanup_resumes]). *)
Theorem imdb_resume_fetches_recorded_rows_again :
  let fresh := disk [("movies.csv", movies 12)] in
  let stopped := disk [("movies.csv", movies 12); ("movies_progress.csv", five_done)] in
  let rating_column (path : string) (w : world) :=
    pd.column "IMDB_Rating" <$> fs w !! path in
  let lookup_count (title : string) (w : world) :=
    length (filter (λ e, e = SearchMovie (PyStr title)) (trace w)) in
  let imdb_fresh := imdb_rating_script.add_imdb_ratings ia_catalogue in_order "movies.csv" fresh in
  let imdb := imdb_rating_script.add_imdb_ratings ia_catalogue in_order "movies.csv" stopped in
  let cleanup_fresh := cleanup_script.add_imdb_ratings ia_catalogue in_order "movies.csv" fresh in
  let cleanup := cleanup_script.add_imdb_ratings ia_catalogue in_order "movies.csv" stopped in
  imdb.1 = Ret ()
  ∧ map (λ title, lookup_count title imdb.2)
        ["Alien"; "Brazil"; "Casablanca"; "Dune"; "Eraserhead"] = [1; 1; 1; 1; 1]
  ∧ map (λ title, lookup_count title imdb.2)
        ["Heat"; "Ikiru"; "Jaws"; "Klute"; "Laura"] = [0; 0; 0; 0; 0]
  ∧ rating_column "movies_Modified.csv" imdb.2
    = Some (Ret [NaN; NaN; NaN; NaN; NaN; PyFloat 81; PyFloat 77;
                 PyFloat 85; PyFloat 80; PyFloat 73; NaN; NaN])
  ∧ rating_column "movies_Modified.csv" imdb.2
    ≠ rating_column "movies_Modified.csv" imdb_fresh.2
  ∧ map (λ title, lookup_count title cleanup.2)
        ["Alien"; "Brazil"; "Casablanca"; "Dune"; "Eraserhead"] = [0; 0; 0; 0; 0]
  ∧ rating_column "movies_modified.csv" cleanup.2
    = Some (Ret [PyFloat 85; PyFloat 79; PyFloat 85; PyFloat 80; PyFloat 73; PyFloat 81;
                 PyFloat 77; PyFloat 83; PyFloat 83; PyFloat 81; PyFloat 71; PyFloat 79])
  ∧ rating_column "movies_modified.csv" cleanup.2
    = rating_column "movies_modified.csv" cleanup_fresh.2.
Proof. vm_compute. repeat split; done. Qed.

(** C4, where the code departs from it.  [imdb_rating_script.py] on six
    titles, two batches: the collection writes every batch at the start
    index of the last batch submitted.  The ratings of the rows 0 to 4 are
    fetched (85 for row 0) and none of them is in the list at its row;
    the entry at row 5 is the rating of row 5 when the batches complete in
    the order of submission and the rating of row 0 when the second batch
    completes first.  ([cleanup_script.py] writes the batches at the
    indices of the last batch submitted and then fills the list from the
    progress file, by index: its list is the same in every order,
    [cleanup_run].) *)
Theorem imdb_collection_depends_on_completion_order :
  let run (sched : schedule) :=
    imdb_rating_script.collect_ratings ia_catalogue sched (titles 6) (titles 6) 6
      "movies_progress.csv" (disk []) in
  (imdb_rating_script.get_imdb_rating ia_catalogue (PyStr "Alien") (disk [])).1
    = Ret (PyFloat 85)
  ∧ (imdb_rating_script.get_imdb_rating ia_catalogue (PyStr "Fargo") (disk [])).1
    = Ret (PyFloat 81)
  ∧ permute (completion_order in_order) [0; 1] = [0; 1]
  ∧ (run in_order).1 = Ret [PyNone; PyNone; PyNone; PyNone; PyNone; PyFloat 81]
  ∧ permute (completion_order last_first) [0; 1] = [1; 0]
  ∧ (run last_first).1 = Ret [PyNone; PyNone; PyNone; PyNone; PyNone; PyFloat 85].
Proof. vm_compute. repeat split; done. Qed.
(** * Further properties *)

(** ** Files a computation leaves alone *)

Lemma writes_only_ret {A} paths (a : A) : writes_only paths (mret a).
Proof. by intros w path _. Qed.

Lemma writes_only_lift {A} paths (r : result A) : writes_only paths (lift r).
Proof. by intros w path _. Qed.

Lemma writes_only_raise {A} paths (e : exn) : writes_only paths (raise (A:=A) e).
Proof. by intros w path _. Qed.

Lemma writes_only_emit paths e : writes_only paths (emit e).
Proof. by intros w path _. Qed.

Lemma writes_only_path_exists paths path : writes_only paths (path_exists path).
Proof. by intros w path' _. Qed.

Lemma writes_only_read_csv paths path : writes_only paths (read_csv path).
Proof. intros w path' _. unfold read_csv. by destruct (fs w !! path). Qed.

Lemma writes_only_to_csv paths df path : path ∈ paths → writes_only paths (to_csv df path).
Proof.
  intros Hin w path' Hout. unfold to_csv. cbn [snd fs].
  apply lookup_insert_ne. by intros ->.
Qed.

Lemma writes_only_bind {A B} paths (m : M A) (f : A → M B) :
  writes_only paths m → (∀ a, writes_only paths (f a)) → writes_only paths (m ≫= f).
Proof.
  intros Hm Hf w path Hout. specialize (Hm w path Hout).
  unfold mbind, M_bind. destruct (m w) as [[a|e] w1]; cbn [snd] in *; [|done].
  by rewrite Hf.
Qed.

Lemma writes_only_for {A S} paths (xs : list A) (body : S → A → M S) acc :
  (∀ acc x, writes_only paths (body acc x)) → writes_only paths (for_ xs acc body).
Proof.
  intros Hbody. revert acc. induction xs as [|x xs IH]; intros acc; simpl.
  - apply writes_only_ret.
  - apply writes_only_bind; [done|]. intros acc'. apply IH.
Qed.

Lemma writes_only_quiet {A} paths (m : M A) : quiet m → writes_only paths m.
Proof.
  intros Hq w path _. destruct (m w) as [r w'] eqn:Hrun.
  by destruct (Hq _ _ _ Hrun) as (evs & -> & _).
Qed.

Lemma writes_only_run_task {A} paths (task : M A) :
  writes_only paths task → writes_only paths (run_task task).
Proof.
  intros Htask w path Hout. specialize (Htask w path Hout).
  unfold run_task. by destruct (task w).
Qed.

Lemma writes_only_ext {A} paths (m m' : M A) :
  (∀ w, m w = m' w) → writes_only paths m' → writes_only paths m.
Proof. intros Heq Hm w path Hout. rewrite Heq. by apply Hm. Qed.

Ltac writes_only :=
  repeat first
    [ apply writes_only_ret | apply writes_only_lift | apply writes_only_raise
    | apply writes_only_emit | apply writes_only_path_exists | apply writes_only_read_csv
    | apply writes_only_to_csv; apply list_elem_of_In; simpl; auto
    | match goal with
      | |- writes_only _ (_ ≫= _) => apply writes_only_bind; [|intros ?]
      end
    | match goal with |- writes_only _ (if ?b then _ else _) => destruct b end ].

(** ** The merge utility: the command line *)

(** X1.  [merge_script.py] started with an argument count other than two
    prints the usage and exits with status 1; when the first file named
    does not exist, or the first exists and the second does not, it
    prints the error for that file and exits with status 1.  In each case
    it has read and written nothing. *)
Theorem merge_command_line_checks (argv : list string) (w : world) :
  (length argv ≠ 3 → merge_script.main argv w = (Ret 1%Z, logged w [Print Usage]))
  ∧ (∀ script x_file progress_file,
       argv = [script; x_file; progress_file] → fs w !! x_file = None →
       merge_script.main argv w = (Ret 1%Z, logged w [Print (NoSuchFile x_file)]))
  ∧ (∀ script x_file progress_file,
       argv = [script; x_file; progress_file] →
       is_Some (fs w !! x_file) → fs w !! progress_file = None →
       merge_script.main argv w = (Ret 1%Z, logged w [Print (NoSuchFile progress_file)])).
Proof.
  split; [|split].
  - intros H. unfold merge_script.main. by rewrite bool_decide_eq_true_2.
  - intros script x_file progress_file -> Hx. unfold merge_script.main.
    rewrite bool_decide_eq_false_2 by (simpl; lia).
    rewrite (bind_ret (lift _) _ w x_file w) by reflexivity.
    rewrite (bind_ret (lift _) _ w progress_file w) by reflexivity.
    rewrite (bind_ret (path_exists _) _ w false w) by by apply path_exists_none.
    cbn [negb]. by rewrite (bind_ret (print _) _ w () _ (print_eq _ _)).
  - intros script x_file progress_file -> [x_df Hx] Hp. unfold merge_script.main.
    rewrite bool_decide_eq_false_2 by (simpl; lia).
    rewrite (bind_ret (lift _) _ w x_file w) by reflexivity.
    rewrite (bind_ret (lift _) _ w progress_file w) by reflexivity.
    rewrite (bind_ret (path_exists _) _ w true w) by by eapply path_exists_some.
    cbn [negb].
    rewrite (bind_ret (path_exists _) _ w false w) by by apply path_exists_none.
    cbn [negb]. by rewrite (bind_ret (print _) _ w () _ (print_eq _ _)).
Qed.

Lemma merge_command_line_checks_witness :
  merge_script.main ["merge_script.py"; "movies.csv"] (disk [])
    = (Ret 1%Z, logged (disk []) [Print Usage])
  ∧ merge_script.main ["merge_script.py"; "movies.csv"; "movies_progress.csv"]
      (disk [("movies.csv", movies 3)])
    = (Ret 1%Z, logged (disk [("movies.csv", movies 3)])
                  [Print (NoSuchFile "movies_progress.csv")]).
Proof.
  split.
  - apply (merge_command_line_checks ["merge_script.py"; "movies.csv"] (disk [])).
    simpl. lia.
  - destruct (merge_command_line_checks
                ["merge_script.py"; "movies.csv"; "movies_progress.csv"]
                (disk [("movies.csv", movies 3)])) as (_ & _ & H).
    apply (H "merge_script.py" _ _ eq_refl); [by eexists | reflexivity].
Defined.

(** ** The merge utility: the columns it needs *)

(** X2.  [merge_script.py] with both files present: when the first
    dataset has no [title] column, or has one while the progress file
    lacks [Title] or [Rating], the run reads both files, prints the
    error, writes nothing and ends with status 0. *)
Theorem merge_missing_column (script x_file progress_file : string) (w : world)
    (x_df progress_df : pd.DataFrame) :
  fs w !! x_file = Some x_df →
  fs w !! progress_file = Some progress_df →
  let run := merge_script.main [script; x_file; progress_file] w in
  ("title" ∉ pd.columns x_df →
     run = (Ret 0%Z, logged w [ReadCsv x_file; ReadCsv progress_file; Print MissingTitleX]))
  ∧ ("title" ∈ pd.columns x_df →
     "Title" ∉ pd.columns progress_df ∨ "Rating" ∉ pd.columns progress_df →
     run = (Ret 0%Z, logged w [ReadCsv x_file; ReadCsv progress_file;
                               Print MissingTitleOrRating])).
Proof.
  intros Hx Hp run. subst run.
  assert (∀ m : message,
    merge_script.merge_datasets x_file progress_file w
      = (Ret (), logged w [ReadCsv x_file; ReadCsv progress_file; Print m]) →
    merge_script.main [script; x_file; progress_file] w
      = (Ret 0%Z, logged w [ReadCsv x_file; ReadCsv progress_file; Print m])) as Hmain.
  { intros m Hm. unfold merge_script.main.
    rewrite bool_decide_eq_false_2 by (simpl; lia).
    rewrite (bind_ret (lift _) _ w x_file w) by reflexivity.
    rewrite (bind_ret (lift _) _ w progress_file w) by reflexivity.
    rewrite (bind_ret (path_exists _) _ w true w) by by eapply path_exists_some.
    cbn [negb].
    rewrite (bind_ret (path_exists _) _ w true w) by by eapply path_exists_some.
    cbn [negb]. by rewrite (bind_ret _ _ _ _ _ Hm). }
  assert (∀ k : pd.DataFrame → pd.DataFrame → M (),
    (x_df ← read_csv x_file; progress_df ← read_csv progress_file; k x_df progress_df) w
    = k x_df progress_df (logged w [ReadCsv x_file; ReadCsv progress_file])) as Hread.
  { intros k. rewrite (bind_ret _ _ _ _ _ (read_csv_some _ _ _ Hx)).
    rewrite (bind_ret _ _ _ _ _ (read_csv_some _ (logged w _) _ Hp)).
    by rewrite logged_logged. }
  split.
  - intros Ht. apply Hmain. unfold merge_script.merge_datasets. rewrite Hread.
    unfold pd.has_column at 1. rewrite bool_decide_eq_false_2 by done.
    cbn [negb]. by rewrite print_eq, logged_logged.
  - intros Ht Hmissing. apply Hmain. unfold merge_script.merge_datasets. rewrite Hread.
    rewrite (proj2 (has_column_true _ _) Ht). cbn [negb].
    assert (negb (pd.has_column "Title" progress_df)
            || negb (pd.has_column "Rating" progress_df) = true) as ->.
    { unfold pd.has_column. destruct Hmissing as [H|H].
      - by rewrite (bool_decide_eq_false_2 _ H).
      - rewrite (bool_decide_eq_false_2 _ H). apply orb_true_r. }
    by rewrite print_eq, logged_logged.
Qed.

Lemma merge_missing_column_witness :
  let films := {| pd.columns := ["name"]; pd.rows := [[PyStr "Alien"]] |} in
  let w := disk [("films.csv", films); ("movies_progress.csv", five_done)] in
  merge_script.main ["merge_script.py"; "films.csv"; "movies_progress.csv"] w
  = (Ret 0%Z, logged w [ReadCsv "films.csv"; ReadCsv "movies_progress.csv";
                        Print MissingTitleX]).
Proof.
  intros films w.
  apply (merge_missing_column "merge_script.py" "films.csv" "movies_progress.csv" w
           films five_done eq_refl eq_refl).
  compute_done.
Defined.

(** ** The merge utility: the table it writes *)














(** ** The merge utility: the files it touches *)





(** ** The merge utility: how a run ends *)



(** ** The retrying fetcher *)

(** The steps of an attempt that raises: one lookup, no delay, no file
    written, nothing printed. *)
Lemma fails_events a title e evs :
  outcome_of a title = Fails e evs →
  lookups evs = 1 ∧ sleeps evs = 0
  ∧ Forall (λ ev, is_write ev = false ∧ (∀ s, ev = Sleep s → s = 5)
                  ∧ ∀ m, ev ≠ Print m) evs.
Proof.
  unfold outcome_of. intros H.
  assert (evs = [SearchMovie title] ∨ ∃ movie, evs = [SearchMovie title; Update movie])
    as [-> | [movie ->]].
  { repeat case_match; simplify_eq; eauto. }
  - repeat split; repeat constructor; done.
  - repeat split; repeat constructor; done.
Qed.

Lemma filter_write_nil (Q : event → Prop) evs :
  (∀ ev, Q ev → is_write ev = false) → Forall Q evs → filter is_write evs = [].
Proof.
  intros HQ. induction 1 as [|ev evs Hev _ IH]; [done|].
  rewrite filter_cons, decide_False; [done|]. apply Is_true_false_2. auto.
Qed.

(** The retry loop: each pass ends the fetch after one lookup, by a
    [return] or by an exception that no clause handles, or fails, after
    one lookup and one delay. *)
Lemma retry_loop (Q : event → Prop) (E : exn → Prop) (body : nat → M (option pyval))
    (ks : list nat) :
  (∀ k w,
     (∃ rating evs, body k w = (Ret (Some rating), logged w evs)
                    ∧ lookups evs = 1 ∧ sleeps evs = 0 ∧ Forall Q evs)
     ∨ (∃ evs, body k w = (Ret None, logged w evs)
               ∧ lookups evs = 1 ∧ sleeps evs = 1 ∧ Forall Q evs)
     ∨ (∃ e evs, body k w = (Raise e, logged w evs) ∧ E e
                 ∧ lookups evs = 1 ∧ sleeps evs = 0 ∧ Forall Q evs)) →
  ∀ w, ∃ r evs,
    for_return ks body w = (r, logged w evs) ∧ Forall Q evs
    ∧ match r with
      | Ret (Some _) => (1 ≤ lookups evs ≤ length ks)%nat ∧ sleeps evs = lookups evs - 1
      | Ret None => lookups evs = length ks ∧ sleeps evs = length ks
      | Raise e => E e ∧ (1 ≤ lookups evs ≤ length ks)%nat ∧ sleeps evs = lookups evs - 1
      end.
Proof.
  intros Hbody. induction ks as [|k ks IH]; intros w.
  - exists (Ret None), []. rewrite logged_nil. by repeat split.
  - cbn [for_return].
    destruct (Hbody k w) as [(rating & evs & Hk & Hl & Hs & HQ)
                            |[(evs & Hk & Hl & Hs & HQ)|(e & evs & Hk & He & Hl & Hs & HQ)]].
    + rewrite (bind_ret _ _ _ _ _ Hk). exists (Ret (Some rating)), evs.
      split; [done|]. split; [done|]. rewrite Hl, Hs. cbn [length]. lia.
    + rewrite (bind_ret _ _ _ _ _ Hk).
      destruct (IH (logged w evs)) as (r & evs' & Hrest & HQ' & Hr).
      exists r, (evs ++ evs'). rewrite Hrest, logged_logged.
      split; [done|]. split; [by apply Forall_app|].
      rewrite lookups_app, sleeps_app, Hl, Hs. cbn [length].
      destruct r as [[?|]|?]; [lia..|]. destruct Hr as (? & ? & ?). split; [done|]. lia.
    + rewrite (bind_raise _ _ _ _ _ Hk). exists (Raise e), evs.
      split; [done|]. split; [done|]. rewrite Hl, Hs. cbn [length].
      split; [done|]. lia.
Qed.



(** What one attempt does, in the two scripts. *)
Lemma attempt_found ia title k w movie rest updated :
  search_movie_does (ia title k) = Ret (movie :: rest) →
  update_does (ia title k) movie = Ret updated →
  let r := (Ret (Some (Movie_get updated "rating")),
            logged w [SearchMovie title; Update (movieID movie)]) in
  cleanup_script.try_once ia title 5 k w = r
  ∧ imdb_rating_script.try_once ia title 5 k w = r.
Proof.
  intros Hs Hu. rewrite cleanup_try_once, imdb_try_once.
  unfold outcome_of. by rewrite Hs, Hu.
Qed.

Lemma cleanup_attempt_fails ia title k w e :
  fails_with (ia title k) e →
  ∃ evs, cleanup_script.try_once ia title 5 k w = (Ret None, logged w evs)
         ∧ lookups evs = 1 ∧ sleeps evs = 1.
Proof.
  intros (evs & Ho & Hl & Hs)%(fails_with_outcome _ title).
  rewrite cleanup_try_once, Ho. eexists. split; [done|].
  by rewrite lookups_app, sleeps_app, Hl, Hs.
Qed.

Lemma imdb_attempt_fails ia title k w e :
  e = Timeout ∨ e = RequestException →
  fails_with (ia title k) e →
  ∃ evs, imdb_rating_script.try_once ia title 5 k w = (Ret None, logged w evs)
         ∧ lookups evs = 1 ∧ sleeps evs = 1.
Proof.
  intros He (evs & Ho & Hl & Hs)%(fails_with_outcome _ title).
  rewrite imdb_try_once, Ho.
  destruct He as [-> | ->]; cbn [decide decide_rel exn_eq_dec]; simpl;
    (eexists; split; [done|]; by rewrite lookups_app, sleeps_app, Hl, Hs).
Qed.

Lemma imdb_attempt_raises ia title k w e :
  e ≠ Timeout → e ≠ RequestException →
  fails_with (ia title k) e →
  ∃ evs, imdb_rating_script.try_once ia title 5 k w = (Raise NameError, logged w evs)
         ∧ lookups evs = 1 ∧ sleeps evs = 0.
Proof.
  intros H1 H2 (evs & Ho & Hl & Hs)%(fails_with_outcome _ title).
  rewrite imdb_try_once, Ho. rewrite !decide_False by done. eauto.
Qed.

(** The passes that fail, one after the other from attempt [a] on. *)
Lemma for_return_failures (body : nat → M (option pyval)) (k : nat) :
  ∀ a ks w,
    (∀ j w, j < k → ∃ evs, body (a + j) w = (Ret None, logged w evs)
                           ∧ lookups evs = 1 ∧ sleeps evs = 1) →
    ∃ evs, for_return (seq a k ++ ks) body w = for_return ks body (logged w evs)
           ∧ lookups evs = k ∧ sleeps evs = k.
Proof.
  induction k as [|k IH]; intros a ks w Hfail.
  - exists []. by rewrite logged_nil.
  - cbn [seq app for_return].
    destruct (Hfail 0 w ltac:(lia)) as (evs & Hk & Hl & Hs).
    rewrite Nat.add_0_r in Hk. rewrite (bind_ret _ _ _ _ _ Hk).
    destruct (IH (S a) ks (logged w evs)) as (evs2 & Hrest & Hl2 & Hs2).
    { intros j w2 Hj. destruct (Hfail (S j) w2 ltac:(lia)) as (evs2 & H & ?).
      exists evs2. by replace (S a + j) with (a + S j) by lia. }
    exists (evs ++ evs2). rewrite Hrest, logged_logged.
    by rewrite lookups_app, sleeps_app, Hl, Hl2, Hs, Hs2.
Qed.

Lemma attempts_split (k : nat) : k < 3 → seq 0 3 = seq 0 k ++ k :: seq (S k) (2 - k).
Proof. intros H. destruct k as [|[|[|k]]]; [done..|lia]. Qed.

(** X8.  A fetch whose first [k] attempts raise and whose next attempt
    finds a movie returns that movie's rating after [k + 1] lookups and
    [k] delays, for [k] up to two.  In [cleanup_script.py] this holds
    whatever the attempts raise, in [imdb_rating_script.py] when they
    raise [Timeout] or [RequestException]. *)
Theorem fetch_retries_until_found (ia : IMDb) (title : pyval) (w : world) (k : nat)
    (movie : Movie) (rest : list Movie) (updated : Movie) :
  k < 3 →
  (∀ j, j < k → ∃ e, fails_with (ia title j) e) →
  search_movie_does (ia title k) = Ret (movie :: rest) →
  update_does (ia title k) movie = Ret updated →
  (∃ evs, cleanup_script.get_imdb_rating ia title w
            = (Ret (Movie_get updated "rating"), logged w evs)
          ∧ lookups evs = S k ∧ sleeps evs = k)
  ∧ ((∀ j, j < k → ∃ e, (e = Timeout ∨ e = RequestException) ∧ fails_with (ia title j) e) →
     ∃ evs, imdb_rating_script.get_imdb_rating ia title w
              = (Ret (Movie_get updated "rating"), logged w evs)
            ∧ lookups evs = S k ∧ sleeps evs = k).
Proof.
  intros Hk Hfail Hs Hu. split.
  - destruct (for_return_failures (cleanup_script.try_once ia title 5) k 0
                (k :: seq (S k) (2 - k)) w) as (evs & Hloop & Hl & Hsl).
    { intros j w2 Hj. destruct (Hfail j Hj) as [e He].
      by apply (cleanup_attempt_fails ia title j w2 e). }
    exists (evs ++ [SearchMovie title; Update (movieID movie)]).
    rewrite cleanup_get_imdb_rating_unfold.
    change [0; 1; 2] with (seq 0 3). rewrite (attempts_split k Hk).
    unfold mbind at 1, M_bind at 1. rewrite Hloop. cbn [for_return].
    rewrite (bind_ret _ _ _ _ _
               (proj1 (attempt_found ia title k (logged w evs) movie rest updated Hs Hu))).
    unfold mret, M_ret. cbn [default]. rewrite logged_logged.
    split; [done|]. rewrite lookups_app, sleeps_app, Hl, Hsl. cbv [lookups sleeps]. simpl. lia.
  - intros Hfail2.
    destruct (for_return_failures (imdb_rating_script.try_once ia title 5) k 0
                (k :: seq (S k) (2 - k)) w) as (evs & Hloop & Hl & Hsl).
    { intros j w2 Hj. destruct (Hfail2 j Hj) as (e & He & Hf).
      by apply (imdb_attempt_fails ia title j w2 e). }
    exists (evs ++ [SearchMovie title; Update (movieID movie)]).
    rewrite imdb_get_imdb_rating_unfold.
    change [0; 1; 2] with (seq 0 3). rewrite (attempts_split k Hk).
    unfold mbind at 1, M_bind at 1. rewrite Hloop. cbn [for_return].
    rewrite (bind_ret _ _ _ _ _
               (proj2 (attempt_found ia title k (logged w evs) movie rest updated Hs Hu))).
    unfold mret, M_ret. cbn [default]. rewrite logged_logged.
    split; [done|]. rewrite lookups_app, sleeps_app, Hl, Hsl. cbv [lookups sleeps]. simpl. lia.
Qed.

Lemma fetch_retries_until_found_witness :
  let flaky : IMDb :=
    λ _ k, match k with 0 => raising Timeout | _ => rated (PyFloat 85) end in
  ∃ evs,
    imdb_rating_script.get_imdb_rating flaky (PyStr "Alien") (disk [])
      = (Ret (PyFloat 85), logged (disk []) evs)
    ∧ lookups evs = 2 ∧ sleeps evs = 1.
Proof.
  intros flaky.
  destruct (fetch_retries_until_found flaky (PyStr "Alien") (disk []) 1
              {| movieID := "0133093"; data := [] |} []
              {| movieID := "0133093"; data := [("rating", PyFloat 85)] |}) as [_ H].
  - lia.
  - intros j Hj. exists Timeout. left. destruct j; [reflexivity | lia].
  - reflexivity.
  - reflexivity.
  - apply H. intros j Hj. exists Timeout. split; [by left|].
    left. destruct j; [reflexivity | lia].
Defined.

(** X9.  A fetch whose three attempts all raise returns [None] after
    three lookups and three delays: in [cleanup_script.py] whatever they
    raise, in [imdb_rating_script.py] when they raise [Timeout] or
    [RequestException]. *)
Theorem retries_exhausted_gives_None (ia : IMDb) (title : pyval) (w : world) :
  (∀ k, k < 3 → ∃ e, fails_with (ia title k) e) →
  (∃ evs, cleanup_script.get_imdb_rating ia title w = (Ret PyNone, logged w evs)
          ∧ lookups evs = 3 ∧ sleeps evs = 3)
  ∧ ((∀ k, k < 3 → ∃ e, (e = Timeout ∨ e = RequestException) ∧ fails_with (ia title k) e) →
     ∃ evs, imdb_rating_script.get_imdb_rating ia title w = (Ret PyNone, logged w evs)
            ∧ lookups evs = 3 ∧ sleeps evs = 3).
Proof.
  intros H. split; [by apply cleanup_retries_exhausted | apply imdb_retries_exhausted].
Qed.

Lemma retries_exhausted_gives_None_witness :
  let offline : IMDb := λ _ _, raising Timeout in
  ∃ evs,
    imdb_rating_script.get_imdb_rating offline (PyStr "Alien") (disk [])
      = (Ret PyNone, logged (disk []) evs)
    ∧ lookups evs = 3 ∧ sleeps evs = 3.
Proof.
  intros offline.
  destruct (retries_exhausted_gives_None offline (PyStr "Alien") (disk [])) as [_ H].
  - intros k _. exists Timeout. by left.
  - apply H. intros k _. exists Timeout. split; [by left|]. by left.
Defined.

Lemma imdb_try_once_cases ia title k w :
  let Q ev :=
    is_write ev = false ∧ (∀ s, ev = Sleep s → s = 5)
    ∧ ∀ m, ev = Print m → m = RetryTimeout title ∨ m = RetryRequestException RequestException in
  (∃ rating evs, imdb_rating_script.try_once ia title 5 k w = (Ret (Some rating), logged w evs)
                 ∧ lookups evs = 1 ∧ sleeps evs = 0 ∧ Forall Q evs)
  ∨ (∃ evs, imdb_rating_script.try_once ia title 5 k w = (Ret None, logged w evs)
            ∧ lookups evs = 1 ∧ sleeps evs = 1 ∧ Forall Q evs)
  ∨ (∃ e evs, imdb_rating_script.try_once ia title 5 k w = (Raise e, logged w evs)
              ∧ e = NameError
              ∧ lookups evs = 1 ∧ sleeps evs = 0 ∧ Forall Q evs).
Proof.
  intros Q. rewrite imdb_try_once.
  destruct (outcome_of (ia title k) title) as [movie rest updated| |e evs] eqn:Ho.
  - left. eexists _, _. split; [done|]. repeat split; repeat constructor; done.
  - left. eexists _, _. split; [done|]. repeat split; repeat constructor; done.
  - right. destruct (fails_events _ _ _ _ Ho) as (Hl & Hs & HQ).
    assert (Forall Q evs) as HQ'.
    { eapply Forall_impl; [done|]. intros ev (? & ? & Hp).
      split; [done|]. split; [done|]. intros m ->. by destruct (Hp m). }
    case_decide as He; [|case_decide as He'].
    + left. eexists. split; [done|].
      rewrite lookups_app, sleeps_app, Hl, Hs. split; [done|]. split; [done|].
      apply Forall_app. split; [done|].
      constructor; [|constructor; [|constructor]].
      * split; [done|]. split; [done|]. intros m [= <-]. by left.
      * split; [done|]. split; [by intros s [= <-]|done].
    + left. eexists. split; [done|].
      rewrite lookups_app, sleeps_app, Hl, Hs. split; [done|]. split; [done|].
      apply Forall_app. split; [done|]. subst e.
      constructor; [|constructor; [|constructor]].
      * split; [done|]. split; [done|]. intros m [= <-]. by right.
      * split; [done|]. split; [by intros s [= <-]|done].
    + right. by eexists _, _.
Qed.

(** X10.  The fetch of [imdb_rating_script.py] ends in one of two ways,
    whatever the client does: it returns, or it raises [NameError].  It
    invokes the lookup once, twice or three times, writes no file, waits
    five seconds at a time, and the only warnings it ever prints are the
    ones for [Timeout] and for [RequestException]: no run reaches the
    clauses for [HTTPError], [imdb.IMDbDataAccessError] and
    [Exception]. *)
Theorem imdb_fetch_outcomes (ia : IMDb) (title : pyval) (w : world) :
  ∃ r evs,
    imdb_rating_script.get_imdb_rating ia title w = (r, logged w evs)
    ∧ (∀ e, r = Raise e → e = NameError)
    ∧ (1 ≤ lookups evs ≤ 3)%nat
    ∧ (∀ m, Print m ∈ evs →
            m = RetryTimeout title ∨ m = RetryRequestException RequestException)
    ∧ (∀ s, Sleep s ∈ evs → s = 5)
    ∧ filter is_write evs = [].
Proof.
  destruct (retry_loop _ _ (imdb_rating_script.try_once ia title 5) [0; 1; 2]
              (imdb_try_once_cases ia title) w) as (r & evs & Hloop & HQ & Hr).
  cbn [length] in Hr.
  assert ((∀ m, Print m ∈ evs →
             m = RetryTimeout title ∨ m = RetryRequestException RequestException)
          ∧ (∀ s, Sleep s ∈ evs → s = 5) ∧ filter is_write evs = []) as Hevs.
  { pose proof (proj1 (Forall_forall _ _) HQ) as Hall. split; [|split].
    - intros m Hm. by apply (Hall _ Hm).
    - intros s Hs. by apply (Hall _ Hs).
    - eapply filter_write_nil; [|exact HQ]. by intros ev [? _]. }
  rewrite imdb_get_imdb_rating_unfold.
  destruct r as [r|e].
  - exists (Ret (default PyNone r)), evs. rewrite (bind_ret _ _ _ _ _ Hloop).
    split; [done|]. split; [done|]. split; [destruct r; lia|done].
  - exists (Raise e), evs. rewrite (bind_raise _ _ _ _ _ Hloop).
    destruct Hr as (-> & ? & ?).
    split; [done|]. split; [by intros ? [= <-]|]. split; [lia|done].
Qed.

(** X11.  In [imdb_rating_script.py] an attempt that raises anything but
    [Timeout] or [RequestException] ends the fetch with [NameError], from
    the clause [except HTTPError]: when it is attempt [k], reached after
    [k] attempts that raised one of the two, the fetch has made [k + 1]
    lookups and waited [k] times. *)
Theorem imdb_fetch_raises_NameError (ia : IMDb) (title : pyval) (w : world) (k : nat)
    (e : exn) :
  k < 3 →
  (∀ j, j < k → ∃ e', (e' = Timeout ∨ e' = RequestException) ∧ fails_with (ia title j) e') →
  fails_with (ia title k) e → e ≠ Timeout → e ≠ RequestException →
  ∃ evs,
    imdb_rating_script.get_imdb_rating ia title w = (Raise NameError, logged w evs)
    ∧ lookups evs = S k ∧ sleeps evs = k.
Proof.
  intros Hk Hfail He H1 H2.
  destruct (for_return_failures (imdb_rating_script.try_once ia title 5) k 0
              (k :: seq (S k) (2 - k)) w) as (evs & Hloop & Hl & Hsl).
  { intros j w2 Hj. destruct (Hfail j Hj) as (e' & He' & Hf).
    by apply (imdb_attempt_fails ia title j w2 e'). }
  destruct (imdb_attempt_raises ia title k (logged w evs) e H1 H2 He)
    as (evs2 & Hraise & Hl2 & Hs2).
  exists (evs ++ evs2).
  rewrite imdb_get_imdb_rating_unfold.
  change [0; 1; 2] with (seq 0 3). rewrite (attempts_split k Hk).
  unfold mbind at 1, M_bind at 1. rewrite Hloop. cbn [for_return].
  rewrite (bind_raise _ _ _ _ _ Hraise). rewrite logged_logged.
  split; [done|]. rewrite lookups_app, sleeps_app, Hl, Hsl, Hl2, Hs2. lia.
Qed.

Lemma imdb_fetch_raises_NameError_witness :
  let broken : IMDb :=
    λ _ k, match k with 0 => raising Timeout | _ => raising OtherException end in
  ∃ evs,
    imdb_rating_script.get_imdb_rating broken (PyStr "Alien") (disk [])
      = (Raise NameError, logged (disk []) evs)
    ∧ lookups evs = 2 ∧ sleeps evs = 1.
Proof.
  intros broken.
  apply (imdb_fetch_raises_NameError broken (PyStr "Alien") (disk []) 1 OtherException).
  - lia.
  - intros j Hj. exists Timeout. split; [by left|]. left. destruct j; [reflexivity | lia].
  - by left.
  - done.
  - done.
Defined.

(** ** The workers *)

Lemma bind_raise_inv {A B} (m : M A) (f : A → M B) w e w' :
  (m ≫= f) w = (Raise e, w') →
  m w = (Raise e, w') ∨ ∃ a w1, m w = (Ret a, w1) ∧ f a w1 = (Raise e, w').
Proof.
  unfold mbind, M_bind. destruct (m w) as [[a|e1] w1]; [eauto|].
  intros [= -> ->]. by left.
Qed.

(** A loop raises what one of its passes raises. *)
Lemma for_raises {A S} (E : exn → Prop) (body : S → A → M S) (xs : list A) :
  (∀ acc x w e w', body acc x w = (Raise e, w') → E e) →
  ∀ acc w e w', for_ xs acc body w = (Raise e, w') → E e.
Proof.
  intros Hbody. induction xs as [|x xs IH]; intros acc w e w' H; simpl in H; [done|].
  apply bind_raise_inv in H as [H|(acc1 & w1 & _ & H)]; eauto.
Qed.

Lemma imdb_fetch_raises_only_NameError ia title w e w' :
  imdb_rating_script.get_imdb_rating ia title w = (Raise e, w') → e = NameError.
Proof.
  destruct (retry_loop _ _ (imdb_rating_script.try_once ia title 5) [0; 1; 2]
              (imdb_try_once_cases ia title) w) as (r & evs & Hloop & _ & Hr).
  rewrite imdb_get_imdb_rating_unfold. destruct r as [r|e1].
  - by rewrite (bind_ret _ _ _ _ _ Hloop).
  - rewrite (bind_raise _ _ _ _ _ Hloop). destruct Hr as [-> _]. by intros [= <- _].
Qed.

Lemma getitem_raises {A} (l : list A) i e : getitem l i = Raise e → e = IndexError.
Proof. unfold getitem. destruct (l !! i); [done|]. by intros [= <-]. Qed.

Lemma save_progress_returns progress progress_file w :
  ∃ w', cleanup_script.save_progress progress progress_file w = (Ret (), w')
        ∧ filter is_lookup (trace w') = filter is_lookup (trace w).
Proof.
  destruct (fs w !! progress_file) as [old|] eqn:Hold.
  - rewrite (save_progress_existing _ _ _ _ Hold). eexists. split; [done|].
    cbn [trace]. by rewrite filter_app, app_nil_r.
  - rewrite (save_progress_new _ _ _ Hold). eexists. split; [done|].
    cbn [trace]. by rewrite filter_app, app_nil_r.
Qed.

(** X12.  A worker that raises saves nothing: the progress file and
    every other file are as they were, and the ratings the worker had
    fetched for the rows before are lost.  A worker of
    [imdb_rating_script.py] raises [NameError], from its fetch, or
    [IndexError], for a row that is not in the list of titles; a worker
    of [cleanup_script.py] raises [IndexError] only. *)
Theorem worker_that_raises_saves_nothing (ia : IMDb) (titles : list pyval)
    (start_index end_index : nat) (indices : list nat) (batch : nat)
    (progress_file : string) (w : world) (e : exn) (w' : world) :
  (imdb_rating_script.process_titles ia titles start_index end_index progress_file w
     = (Raise e, w') →
   fs w' = fs w ∧ (e = NameError ∨ e = IndexError))
  ∧ (cleanup_script.process_titles ia titles indices progress_file batch w
       = (Raise e, w') →
     fs w' = fs w ∧ e = IndexError).
Proof.
  split.
  - unfold imdb_rating_script.process_titles. intros H.
    apply bind_raise_inv in H as [H|([ratings progress] & w1 & _ & H)].
    + split.
      * assert (quiet (for_ (seq start_index (end_index - start_index)) ([], [])
          (λ '(ratings, progress) index,
             title ← lift (getitem titles index);
             rating ← imdb_rating_script.get_imdb_rating ia title;
             (if bool_decide ((index - start_index + 1) `mod` 1 = 0)
              then print (Processing None (Z.of_nat index - Z.of_nat start_index + 1)
                            (Z.of_nat end_index - Z.of_nat start_index))
              else mret ());;
             mret (ratings ++ [rating], progress ++ [(index, title, rating)])))) as Hq.
        { apply quiet_for. intros [rs ps] index. unfold print.
          apply quiet_bind; [apply quiet_lift|]. intros title.
          apply quiet_bind; [apply imdb_get_imdb_rating_quiet|]. intros rating.
          apply quiet_bind; [|intros ?; apply quiet_ret].
          case_bool_decide; [by apply quiet_emit | apply quiet_ret]. }
        by destruct (Hq _ _ _ H) as (evs & -> & _).
      * revert H. apply (for_raises (λ e, e = NameError ∨ e = IndexError)). intros [rs ps] index w2 e2 w3 Hb.
        apply bind_raise_inv in Hb as [Hb|(title & w4 & _ & Hb)].
        { right. injection Hb as Hb _. by apply getitem_raises in Hb. }
        apply bind_raise_inv in Hb as [Hb|(rating & w5 & _ & Hb)].
        { left. by apply imdb_fetch_raises_only_NameError in Hb. }
        apply bind_raise_inv in Hb as [Hb|(u & w6 & _ & Hb)]; [|done].
        by case_bool_decide.
    + rewrite save_progress_same in H.
      destruct (save_progress_returns progress progress_file w1) as (w2 & Hsave & _).
      by rewrite (bind_ret _ _ _ _ _ Hsave) in H.
  - unfold cleanup_script.process_titles. intros H.
    apply bind_raise_inv in H as [H|([ratings progress] & w1 & _ & H)].
    + split.
      * assert (quiet (for_ indices ([], [])
          (λ '(ratings, progress) index,
             title ← lift (getitem titles index);
             rating ← cleanup_script.get_imdb_rating ia title;
             print (Processing (Some batch) (Z.of_nat index + 1) (Z.of_nat (length titles)));;
             mret (ratings ++ [rating], progress ++ [(index, title, rating)])))) as Hq.
        { apply quiet_for. intros [rs ps] index. unfold print.
          apply quiet_bind; [apply quiet_lift|]. intros title.
          apply quiet_bind; [apply cleanup_get_imdb_rating_quiet|]. intros rating.
          apply quiet_bind; [by apply quiet_emit | intros ?; apply quiet_ret]. }
        by destruct (Hq _ _ _ H) as (evs & -> & _).
      * revert H. apply (for_raises (λ e, e = IndexError)). intros [rs ps] index w2 e2 w3 Hb.
        apply bind_raise_inv in Hb as [Hb|(title & w4 & _ & Hb)].
        { injection Hb as Hb _. by apply getitem_raises in Hb. }
        apply bind_raise_inv in Hb as [Hb|(rating & w5 & _ & Hb)].
        { destruct (cleanup_get_imdb_rating_never_raises ia title w4) as (? & ? & Hr).
          by rewrite Hr in Hb. }
        by apply bind_raise_inv in Hb as [Hb|(u & w6 & _ & Hb)].
    + destruct (save_progress_returns progress progress_file w1) as (w2 & Hsave & _).
      by rewrite (bind_ret _ _ _ _ _ Hsave) in H.
Qed.

Lemma worker_that_raises_saves_nothing_witness :
  let w := disk [("movies_progress.csv", five_done)] in
  fs (imdb_rating_script.process_titles ia_down (titles 12) 5 10 "movies_progress.csv" w).2
  = fs w.
Proof.
  intros w.
  destruct (imdb_rating_script.process_titles ia_down (titles 12) 5 10
              "movies_progress.csv" w) as [r w'] eqn:Hrun.
  assert (r = Raise NameError) as ->.
  { assert (r = (r, w').1) as -> by done. rewrite <- Hrun. vm_compute. reflexivity. }
  destruct (worker_that_raises_saves_nothing ia_down (titles 12) 5 10 [] 0
              "movies_progress.csv" w NameError w') as [H _].
  by destruct (H Hrun).
Defined.



(** ** The files a run touches *)

Lemma writes_only_for_each {A S} paths (xs : list A) (body : S → A → M S) acc :
  Forall (λ x, ∀ acc, writes_only paths (body acc x)) xs →
  writes_only paths (for_ xs acc body).
Proof.
  intros Hbody. revert acc. induction Hbody as [|x xs Hx _ IH]; intros acc; simpl.
  - apply writes_only_ret.
  - apply writes_only_bind; [done|]. intros acc'. apply IH.
Qed.

Lemma writes_only_run_pool {A} paths picks (tasks : list (M A)) :
  Forall (writes_only paths) tasks → writes_only paths (run_pool picks tasks).
Proof.
  intros Htasks. unfold run_pool. apply writes_only_for_each.
  rewrite permute_Permutation. apply Forall_forall. intros [i task] Hin futures.
  apply elem_of_lookup_imap in Hin as (i' & task' & [= -> ->] & Hi).
  apply writes_only_bind; [|intros ?; apply writes_only_ret].
  apply writes_only_run_task. rewrite Forall_forall in Htasks.
  apply Htasks. by eapply list_elem_of_lookup_2.
Qed.

(** What holds of the tasks submitted so far holds of all of them. *)
Lemma submitted {A B} (P : A → Prop) (step : list A * B → nat → list A * B)
    (batches : list nat) :
  (∀ tasks last b, Forall P tasks → Forall P (step (tasks, last) b).1) →
  ∀ tasks last, Forall P tasks → Forall P (foldl step (tasks, last) batches).1.
Proof.
  intros Hstep. induction batches as [|b batches IH]; intros tasks last Htasks; [done|].
  cbn [foldl]. specialize (Hstep tasks last b Htasks).
  destruct (step (tasks, last) b) as [tasks' last']. by apply IH.
Qed.

Lemma save_progress_writes_only paths progress progress_file :
  progress_file ∈ paths → writes_only paths (cleanup_script.save_progress progress progress_file).
Proof.
  intros Hin. unfold cleanup_script.save_progress.
  apply writes_only_bind; [apply writes_only_path_exists|]. intros existing.
  apply writes_only_bind; [|intros ?; by apply writes_only_to_csv].
  destruct existing; [|apply writes_only_ret].
  apply writes_only_bind; [apply writes_only_read_csv|intros ?; apply writes_only_ret].
Qed.

Lemma imdb_process_titles_writes_only paths ia titles start_index end_index progress_file :
  progress_file ∈ paths →
  writes_only paths
    (imdb_rating_script.process_titles ia titles start_index end_index progress_file).
Proof.
  intros Hin. unfold imdb_rating_script.process_titles.
  apply writes_only_bind.
  - apply writes_only_for. intros [rs ps] index.
    apply writes_only_bind; [apply writes_only_lift|]. intros title.
    apply writes_only_bind;
      [apply writes_only_quiet, imdb_get_imdb_rating_quiet|]. intros rating.
    apply writes_only_bind; [|intros ?; apply writes_only_ret].
    case_bool_decide; [apply writes_only_emit | apply writes_only_ret].
  - intros [rs ps]. rewrite save_progress_same.
    apply writes_only_bind; [by apply save_progress_writes_only|].
    intros ?. apply writes_only_ret.
Qed.

Lemma cleanup_process_titles_writes_only paths ia titles indices progress_file batch :
  progress_file ∈ paths →
  writes_only paths (cleanup_script.process_titles ia titles indices progress_file batch).
Proof.
  intros Hin. unfold cleanup_script.process_titles.
  apply writes_only_bind.
  - apply writes_only_for. intros [rs ps] index.
    apply writes_only_bind; [apply writes_only_lift|]. intros title.
    apply writes_only_bind;
      [apply writes_only_quiet, cleanup_get_imdb_rating_quiet|]. intros rating.
    apply writes_only_bind; [apply writes_only_emit | intros ?; apply writes_only_ret].
  - intros [rs ps].
    apply writes_only_bind; [by apply save_progress_writes_only|].
    intros ?. apply writes_only_ret.
Qed.

Lemma imdb_collect_ratings_writes_only paths ia sched df_titles todo len_df progress_file :
  progress_file ∈ paths →
  writes_only paths
    (imdb_rating_script.collect_ratings ia sched df_titles todo len_df progress_file).
Proof.
  intros Hin. unfold imdb_rating_script.collect_ratings. cbv zeta.
  match goal with
  | |- context [foldl ?step (?tasks0, ?last0) ?batches] =>
      pose proof (submitted (writes_only paths) step batches) as Htasks;
      specialize (Htasks ltac:(
        intros tasks last b Hall; cbn [fst]; apply Forall_app; split; [done|];
        constructor; [by apply imdb_process_titles_writes_only | constructor])
        tasks0 last0 (Forall_nil_2 _));
      destruct (foldl step (tasks0, last0) batches) as [tasks start_index]
  end.
  cbn [fst] in Htasks.
  apply writes_only_bind; [by apply writes_only_run_pool|]. intros futures.
  apply writes_only_for. intros ratings future.
  apply writes_only_bind; [apply writes_only_lift|]. intros batch_ratings.
  apply writes_only_for. intros ratings' [i rating].
  apply writes_only_bind; [apply writes_only_lift|]. intros start.
  case_bool_decide; [apply writes_only_lift | apply writes_only_ret].
Qed.

Lemma cleanup_collect_ratings_writes_only paths ia sched df_titles todo len_df progress_file :
  progress_file ∈ paths →
  writes_only paths
    (cleanup_script.collect_ratings ia sched df_titles todo len_df progress_file).
Proof.
  intros Hin. unfold cleanup_script.collect_ratings. cbv zeta.
  match goal with
  | |- context [foldl ?step (?tasks0, ?last0) ?batches] =>
      pose proof (submitted (writes_only paths) step batches) as Htasks;
      specialize (Htasks ltac:(
        intros tasks last b Hall; cbn [fst]; apply Forall_app; split; [done|];
        constructor; [by apply cleanup_process_titles_writes_only | constructor])
        tasks0 last0 (Forall_nil_2 _));
      destruct (foldl step (tasks0, last0) batches) as [tasks batch_indices]
  end.
  cbn [fst] in Htasks.
  apply writes_only_bind; [by apply writes_only_run_pool|]. intros futures.
  apply writes_only_bind.
  - apply writes_only_for. intros ratings future.
    apply writes_only_bind; [apply writes_only_lift|]. intros batch_ratings.
    apply writes_only_bind; [apply writes_only_lift|]. intros indices.
    apply writes_only_for. intros ratings' [index rating].
    case_bool_decide; [apply writes_only_lift | apply writes_only_ret].
  - intros ratings.
    apply writes_only_bind; [apply writes_only_path_exists|]. intros existing.
    destruct existing; [|apply writes_only_ret].
    apply writes_only_bind; [apply writes_only_read_csv|]. intros progress_df.
    apply writes_only_for. intros ratings' row.
    repeat (apply writes_only_bind; [apply writes_only_lift|]; intros ?).
    apply writes_only_lift.
Qed.

Lemma imdb_add_imdb_ratings_writes_only ia sched input_file :
  writes_only [Str.replace input_file ".csv" "_progress.csv";
               Str.replace input_file ".csv" "_Modified.csv"]
    (imdb_rating_script.add_imdb_ratings ia sched input_file).
Proof.
  unfold imdb_rating_script.add_imdb_ratings, print.
  apply writes_only_bind; [apply writes_only_read_csv|]. intros df.
  destruct (negb _); [apply writes_only_emit|].
  apply writes_only_bind; [apply writes_only_path_exists|]. intros existing.
  apply writes_only_bind; [destruct existing; writes_only|]. intros todo.
  apply writes_only_bind; [apply writes_only_lift|]. intros df_titles.
  apply writes_only_bind;
    [apply imdb_collect_ratings_writes_only; apply list_elem_of_In; simpl; auto|].
  intros ratings. writes_only.
Qed.

Lemma cleanup_add_imdb_ratings_writes_only ia sched input_file :
  writes_only [Str.replace input_file ".csv" "_progress.csv";
               Str.replace input_file ".csv" "_modified.csv"]
    (cleanup_script.add_imdb_ratings ia sched input_file).
Proof.
  unfold cleanup_script.add_imdb_ratings, print.
  apply writes_only_bind; [apply writes_only_read_csv|]. intros df.
  destruct (negb _); [apply writes_only_emit|].
  apply writes_only_bind; [apply writes_only_path_exists|]. intros existing.
  apply writes_only_bind; [destruct existing; writes_only|]. intros processed.
  apply writes_only_bind; [apply writes_only_lift|]. intros df_titles.
  apply writes_only_bind;
    [apply cleanup_collect_ratings_writes_only; apply list_elem_of_In; simpl; auto|].
  intros ratings. writes_only.
Qed.

(** X14.  A run of [imdb_rating_script.py] or of [cleanup_script.py]
    changes no file but its progress file and its output file, whatever
    the client and the workers do and whether the run completes or
    raises.  The dataset itself is as it was when its name contains
    [.csv]. *)
Theorem run_touches_only_progress_and_output (ia : IMDb) (sched : schedule)
    (script input_file : string) (w : world) :
  let progress_file := Str.replace input_file ".csv" "_progress.csv" in
  let imdb := imdb_rating_script.main ia sched [script; input_file] w in
  let cleanup := cleanup_script.main ia sched [script; input_file] w in
  (∀ path, path ≠ progress_file →
     (path ≠ Str.replace input_file ".csv" "_Modified.csv" →
      fs imdb.2 !! path = fs w !! path)
     ∧ (path ≠ Str.replace input_file ".csv" "_modified.csv" →
        fs cleanup.2 !! path = fs w !! path))
  ∧ (Str.contains ".csv" input_file = true →
     fs imdb.2 !! input_file = fs w !! input_file
     ∧ fs cleanup.2 !! input_file = fs w !! input_file).
Proof.
  intros progress_file imdb cleanup.
  assert (writes_only [progress_file; Str.replace input_file ".csv" "_Modified.csv"]
            (imdb_rating_script.main ia sched [script; input_file])) as Himdb.
  { apply (writes_only_ext _ _
      (isfile ← path_exists input_file;
       if negb isfile then print (NoSuchFile input_file);; mret 1%Z
       else print Starting;;
            imdb_rating_script.add_imdb_ratings ia sched input_file;; mret 0%Z)); [done|].
    unfold print. writes_only. apply imdb_add_imdb_ratings_writes_only. }
  assert (writes_only [progress_file; Str.replace input_file ".csv" "_modified.csv"]
            (cleanup_script.main ia sched [script; input_file])) as Hcleanup.
  { apply (writes_only_ext _ _
      (isfile ← path_exists input_file;
       if negb isfile then print (NoSuchFile input_file);; mret 1%Z
       else print Starting;;
            cleanup_script.add_imdb_ratings ia sched input_file;; mret 0%Z)); [done|].
    unfold print. writes_only. apply cleanup_add_imdb_ratings_writes_only. }
  assert (∀ path a b : string, path ≠ a → path ≠ b → path ∉ [a; b]) as Hout.
  { intros path a b Ha Hb Hin. apply list_elem_of_In in Hin. simpl in Hin. intuition. }
  split.
  - intros path Hp. split; intros Ho.
    + apply Himdb. by apply Hout.
    + apply Hcleanup. by apply Hout.
  - intros Hc. split.
    + apply Himdb, Hout; symmetry; apply replace_present_ne; try done; simpl; lia.
    + apply Hcleanup, Hout; symmetry; apply replace_present_ne; try done; simpl; lia.
Qed.

Lemma run_touches_only_progress_and_output_witness :
  let w := disk [("movies.csv", movies 12); ("movies_progress.csv", five_done)] in
  fs (imdb_rating_script.main ia_down last_first ["imdb_rating_script.py"; "movies.csv"] w).2
    !! "movies.csv" = Some (movies 12)
  ∧ fs (cleanup_script.main ia_catalogue last_first ["cleanup_script.py"; "movies.csv"] w).2
      !! "movies.csv" = Some (movies 12).
Proof.
  intros w. split.
  - destruct (run_touches_only_progress_and_output ia_down last_first
                "imdb_rating_script.py" "movies.csv" w) as [_ H].
    destruct (H eq_refl) as [-> _]. reflexivity.
  - destruct (run_touches_only_progress_and_output ia_catalogue last_first
                "cleanup_script.py" "movies.csv" w) as [_ H].
    destruct (H eq_refl) as [_ ->]. reflexivity.
Defined.

(** ** The table a run writes *)

Lemma map_zip_with_l {A B C D} (g : C → D) (f : A → B → C) (h : A → D)
    (l : list A) (k : list B) :
  length l = length k → (∀ a b, g (f a b) = h a) → map g (zip_with f l k) = map h l.
Proof.
  intros Hlen Hg. revert k Hlen. induction l as [|a l IH]; intros [|b k] Hlen; try done.
  cbn [zip_with map]. rewrite Hg, IH; [done|]. simpl in Hlen. lia.
Qed.

Lemma map_zip_with_r {A B C} (g : C → B) (f : A → B → C) (l : list A) (k : list B) :
  length l = length k → (∀ a b, g (f a b) = b) → map g (zip_with f l k) = k.
Proof.
  intros Hlen Hg. revert k Hlen. induction l as [|a l IH]; intros [|b k] Hlen; try done.
  cbn [zip_with map]. rewrite Hg, IH; [done|]. simpl in Hlen. lia.
Qed.

Lemma cell_reindex (cols : list string) row c q :
  pd.position c cols = Some q →
  pd.cell (pd.reindex cols cols row) q = pd.cell row q.
Proof.
  intros Hq. unfold pd.reindex, pd.cell at 1.
  rewrite map_is_fmap, list_lookup_fmap, (position_Some _ _ _ Hq). cbn.
  unfold pd.value. by rewrite Hq.
Qed.

Lemma column_csv c df cells :
  pd.column c df = Ret cells → pd.column c (pd.csv df) = Ret (map pd.csv_cell cells).
Proof.
  unfold pd.column. cbn [pd.csv pd.columns pd.rows].
  destruct (pd.position c (pd.columns df)) as [p|]; [|done]. intros [= <-].
  f_equal. rewrite !map_map. apply map_ext. intros row.
  unfold pd.cell. rewrite map_is_fmap, list_lookup_fmap. by destruct (row !! p).
Qed.

Lemma assign_shape c vals df df' :
  pd.assign c vals df = Ret df' → pd.len df' = pd.len df ∧ c ∈ pd.columns df'.
Proof.
  unfold pd.assign. case_bool_decide as Hlen; [|done].
  destruct (pd.position c (pd.columns df)) as [p|] eqn:Hp; intros [= <-];
    unfold pd.len in *; cbn [pd.rows pd.columns]; rewrite length_zip_with.
  - split; [lia|]. by eapply list_elem_of_lookup_2, position_Some.
  - split; [lia|]. apply elem_of_app. right. left.
Qed.

(** The columns that the assignment does not name keep their cells. *)
Lemma column_assign_other c c' vals df df' cells :
  c ≠ c' → pd.assign c' vals df = Ret df' →
  pd.column c df = Ret cells → pd.column c df' = Ret cells.
Proof.
  intros Hne. unfold pd.assign, pd.column. case_bool_decide as Hlen; [|done].
  destruct (pd.position c (pd.columns df)) as [q|] eqn:Hq; [|done].
  destruct (pd.position c' (pd.columns df)) as [p|] eqn:Hp;
    intros [= <-] [= <-]; cbn [pd.columns pd.rows].
  - rewrite Hq. f_equal. apply map_zip_with_l; [done|]. intros row v.
    unfold pd.cell. rewrite list_lookup_insert_ne; [done|].
    intros ->. apply position_Some in Hq, Hp. congruence.
  - rewrite position_app_l by (by eapply list_elem_of_lookup_2, position_Some).
    rewrite Hq. f_equal. apply map_zip_with_l; [done|]. intros row v.
    rewrite cell_app_l by (rewrite reindex_length; by eapply position_lt).
    by eapply cell_reindex.
Qed.

(** A column that the assignment adds holds the values assigned. *)
Lemma column_assign_new c vals df df' :
  c ∉ pd.columns df → pd.assign c vals df = Ret df' → pd.column c df' = Ret vals.
Proof.
  intros Hc. unfold pd.assign, pd.column. case_bool_decide as Hlen; [|done].
  rewrite (proj2 (position_None _ _) Hc). intros [= <-]. cbn [pd.columns pd.rows].
  rewrite position_app_r by done. cbn [pd.position]. rewrite decide_True by done.
  cbn [fmap option_fmap option_map]. f_equal. apply map_zip_with_r; [done|].
  intros row v.
  pose proof (cell_app_r (pd.reindex (pd.columns df) (pd.columns df) row) [v] 0) as H.
  rewrite reindex_length in H. exact H.
Qed.

(** X15.  A run of either script that completes writes the table of the
    dataset with the column [IMDB_Rating]: as many rows, and in every
    other column of the dataset the cells it had, as a CSV file holds
    them. *)
Theorem run_keeps_the_other_columns (ia : IMDb) (sched : schedule) (input_file : string)
    (w : world) (df : pd.DataFrame) (c : string) (cells : list pyval) :
  fs w !! input_file = Some df →
  "title" ∈ pd.columns df →
  c ≠ "IMDB_Rating" → pd.column c df = Ret cells →
  (∀ w', imdb_rating_script.add_imdb_ratings ia sched input_file w = (Ret (), w') →
     ∃ out, fs w' !! Str.replace input_file ".csv" "_Modified.csv" = Some out
            ∧ pd.column c out = Ret (map pd.csv_cell cells)
            ∧ pd.len out = pd.len df ∧ "IMDB_Rating" ∈ pd.columns out)
  ∧ (∀ w', cleanup_script.add_imdb_ratings ia sched input_file w = (Ret (), w') →
     ∃ out, fs w' !! Str.replace input_file ".csv" "_modified.csv" = Some out
            ∧ pd.column c out = Ret (map pd.csv_cell cells)
            ∧ pd.len out = pd.len df ∧ "IMDB_Rating" ∈ pd.columns out).
Proof.
  intros Hf Ht Hc Hcells.
  assert (∀ ratings df', pd.assign "IMDB_Rating" ratings df = Ret df' →
    pd.column c (pd.csv df') = Ret (map pd.csv_cell cells)
    ∧ pd.len (pd.csv df') = pd.len df ∧ "IMDB_Rating" ∈ pd.columns (pd.csv df')) as Hout.
  { intros ratings df' Hassign. split; [|split].
    - apply column_csv. by eapply column_assign_other.
    - rewrite csv_len. by apply assign_shape in Hassign as [? _].
    - by apply assign_shape in Hassign as [_ ?]. }
  split; intros w' Hrun.
  - destruct (imdb_output _ _ _ _ _ _ Hf Ht Hrun) as (ratings & df' & Hassign & Hfile).
    exists (pd.csv df'). split; [done|]. by eapply Hout.
  - destruct (cleanup_output _ _ _ _ _ _ Hf Ht Hrun) as (ratings & df' & Hassign & Hfile).
    exists (pd.csv df'). split; [done|]. by eapply Hout.
Qed.

Lemma run_keeps_the_other_columns_witness :
  let w := disk [("movies.csv", movies 3)] in
  ∃ out,
    fs (cleanup_script.add_imdb_ratings ia_catalogue in_order "movies.csv" w).2
      !! "movies_modified.csv" = Some out
    ∧ pd.column "title" out = Ret (titles 3).
Proof.
  intros w.
  destruct (run_keeps_the_other_columns ia_catalogue in_order "movies.csv" w (movies 3)
              "title" (titles 3) eq_refl) as [_ H]; [compute_done | done | reflexivity |].
  destruct (H (cleanup_script.add_imdb_ratings ia_catalogue in_order "movies.csv" w).2)
    as (out & Hfile & Hcol & _).
  - vm_compute. reflexivity.
  - exists out. split; [exact Hfile | exact Hcol].
Defined.

(** ** Runs of [cleanup_script.py] *)

Lemma map_title_at {B} (f : pyval → B) (titles : list pyval) :
  map (λ i, f (title_at titles i)) (seq 0 (length titles)) = map f titles.
Proof.
  apply list_eq. intros i. rewrite !map_is_fmap, !list_lookup_fmap.
  destruct (titles !! i) as [title|] eqn:Hi.
  - rewrite lookup_seq_lt by (by eapply lookup_lt_Some). cbn.
    unfold title_at. by rewrite Hi.
  - rewrite lookup_seq_ge; [done|]. by apply lookup_ge_None.
Qed.

(** X16.  A run of [cleanup_script.py] without a progress file, on a
    dataset with a [title] column and none named [IMDB_Rating]: whatever
    the order of the set of indices, of the workers and of the completed
    batches, the run completes, looks up every row once and writes, in
    the column [IMDB_Rating] of the output file, the rating fetched for
    the title of each row, in the order of the rows. *)
Theorem cleanup_fresh_run_rates_every_row (ia : IMDb) (sched : schedule)
    (input_file : string) (w : world) (df : pd.DataFrame) (titles : list pyval) :
  let progress_file := Str.replace input_file ".csv" "_progress.csv" in
  let output_file := Str.replace input_file ".csv" "_modified.csv" in
  fs w !! input_file = Some df →
  pd.column "title" df = Ret titles →
  "IMDB_Rating" ∉ pd.columns df →
  fs w !! progress_file = None →
  ∃ w' out fetched,
    cleanup_script.add_imdb_ratings ia sched input_file w = (Ret (), w')
    ∧ fs w' !! output_file = Some out
    ∧ pd.column "IMDB_Rating" out
      = Ret (map (λ title, pd.csv_cell (rating_of ia title)) titles)
    ∧ fetched ≡ₚ seq 0 (length titles)
    ∧ filter is_lookup (trace w') = filter is_lookup (trace w) ++ lookups_of ia titles fetched.
Proof.
  intros progress_file output_file Hfile Htitles Hnew Hnone.
  destruct (cleanup_run ia sched input_file w df titles Hfile Htitles)
    as (w' & fetched & df' & Hrun & Hfetched & Hlookups & Hassign & Hout).
  { fold progress_file. by rewrite Hnone. }
  fold progress_file output_file in Hfetched, Hlookups, Hassign, Hout.
  rewrite Hnone in Hfetched, Hassign. cbn [stored_rows] in Hfetched, Hassign.
  destruct (column_ok _ _ _ Htitles) as [_ Hlen].
  exists w', (pd.csv df'), fetched. split; [done|]. split; [done|].
  split; [|split; [|done]].
  - apply column_assign_new in Hassign; [|done]. apply column_csv in Hassign.
    rewrite Hassign. f_equal. rewrite map_map, <- Hlen.
    rewrite <- (map_title_at (λ title, pd.csv_cell (rating_of ia title)) titles).
    apply map_ext. intros i. cbn. apply csv_cell_idemp.
  - rewrite Hfetched, Hlen, filter_all; [done | by intros i _].
Qed.

Lemma cleanup_fresh_run_rates_every_row_witness :
  let w := disk [("movies.csv", movies 12)] in
  ∃ out,
    fs (cleanup_script.add_imdb_ratings ia_catalogue last_first "movies.csv" w).2
      !! "movies_modified.csv" = Some out
    ∧ pd.column "IMDB_Rating" out
      = Ret [PyFloat 85; PyFloat 79; PyFloat 85; PyFloat 80; PyFloat 73; PyFloat 81;
             PyFloat 77; PyFloat 83; PyFloat 83; PyFloat 81; PyFloat 71; PyFloat 79].
Proof.
  intros w.
  destruct (cleanup_fresh_run_rates_every_row ia_catalogue last_first "movies.csv" w
              (movies 12) (titles 12) eq_refl eq_refl)
    as (w' & out & fetched & Hrun & Hfile & Hcol & _); [compute_done | reflexivity |].
  exists out. rewrite Hrun. split; [exact Hfile|]. rewrite Hcol. vm_compute. reflexivity.
Defined.

Lemma recorded_after n ia titles rows (fetched : list nat) i :
  Forall (is_record n) rows →
  (∀ i, i ∈ fetched ↔ i < n ∧ recorded rows i = None) →
  i < n →
  recorded (rows ++ map (stored ia titles) fetched) i
  = Some match recorded rows i with
         | Some rating => rating
         | None => pd.csv_cell (rating_of ia (title_at titles i))
         end.
Proof.
  intros Hrows Hfetched Hi. rewrite recorded_app, recorded_stored.
  case_decide as Hin.
  - apply Hfetched in Hin as [_ ->]. done.
  - destruct (recorded rows i) as [rating|] eqn:Hrec; [done|].
    destruct Hin. by apply Hfetched.
Qed.

(** X17.  Running [cleanup_script.py] again after a run that completed,
    on a dataset whose name contains [.csv]: the second run completes
    without a single lookup, leaves the records of the progress file as
    they are and writes the same output file, whatever the orders of the
    two runs. *)
Theorem cleanup_second_run_fetches_nothing (ia : IMDb) (sched sched' : schedule)
    (input_file : string) (w : world) (df : pd.DataFrame) (titles : list pyval) :
  let progress_file := Str.replace input_file ".csv" "_progress.csv" in
  let output_file := Str.replace input_file ".csv" "_modified.csv" in
  Str.contains ".csv" input_file = true →
  fs w !! input_file = Some df →
  pd.column "title" df = Ret titles →
  match fs w !! progress_file with
  | Some store => is_store (pd.len df) store
  | None => True
  end →
  ∃ w1 w2,
    cleanup_script.add_imdb_ratings ia sched input_file w = (Ret (), w1)
    ∧ cleanup_script.add_imdb_ratings ia sched' input_file w1 = (Ret (), w2)
    ∧ filter is_lookup (trace w2) = filter is_lookup (trace w1)
    ∧ stored_rows (fs w2 !! progress_file) = stored_rows (fs w1 !! progress_file)
    ∧ fs w2 !! output_file = fs w1 !! output_file
    ∧ is_Some (fs w1 !! output_file).
Proof.
  intros progress_file output_file Hcsv Hfile Htitles Hstore.
  assert (progress_file ≠ input_file ∧ output_file ≠ input_file
          ∧ progress_file ≠ output_file) as (Hpi & Hoi & Hpo).
  { split; [|split].
    - apply replace_present_ne; [simpl; lia .. | done].
    - apply replace_present_ne; [simpl; lia .. | done].
    - apply replace_progress_ne_output; auto. }
  destruct (cleanup_run_store ia sched input_file w df titles Hfile Htitles Hstore)
    as (w1 & fetched & df1 & Hrun1 & Hfetched & _ & Hassign1 & Hout1 & Hstore1).
  fold progress_file output_file in Hfetched, Hassign1, Hout1, Hstore1.
  specialize (Hstore1 Hpo).
  set (rows := stored_rows (fs w !! progress_file)) in *.
  set (rows1 := rows ++ map (stored ia titles) fetched) in *.
  assert (Forall (is_record (pd.len df)) rows) as Hrows.
  { subst rows. destruct (fs w !! progress_file) as [store|]; [apply Hstore | constructor]. }
  assert (∀ i, i ∈ fetched ↔ i < pd.len df ∧ recorded rows i = None) as Hin.
  { intros i. rewrite Hfetched, list_elem_of_filter, elem_of_seq. intuition lia. }
  (* the first run leaves the dataset as it is *)
  assert (fs w1 !! input_file = Some df) as Hfile1.
  { rewrite <- Hfile.
    pose proof (cleanup_add_imdb_ratings_writes_only ia sched input_file w input_file) as H.
    rewrite Hrun1 in H. apply H. fold progress_file output_file.
    intros Hin'. apply list_elem_of_In in Hin'. simpl in Hin'. intuition. }
  (* and a progress file with a record of every row *)
  assert (stored_rows (fs w1 !! progress_file) = rows1) as Hrows1.
  { unfold store_is in Hstore1. destruct (fs w1 !! progress_file); [apply Hstore1|done]. }
  assert (match fs w1 !! progress_file with
          | Some store => is_store (pd.len df) store
          | None => True
          end) as Hok1.
  { unfold store_is in Hstore1. destruct (fs w1 !! progress_file); [apply Hstore1|done]. }
  destruct (cleanup_run_store ia sched' input_file w1 df titles Hfile1 Htitles Hok1)
    as (w2 & fetched2 & df2 & Hrun2 & Hfetched2 & Hlookups2 & Hassign2 & Hout2 & Hstore2).
  fold progress_file output_file in Hfetched2, Hlookups2, Hassign2, Hout2, Hstore2.
  specialize (Hstore2 Hpo). rewrite Hrows1 in Hfetched2, Hassign2, Hstore2.
  assert (∀ i, i < pd.len df →
    recorded rows1 i = Some match recorded rows i with
                            | Some rating => rating
                            | None => pd.csv_cell (rating_of ia (title_at titles i))
                            end) as Hrec.
  { intros i Hi. by apply (recorded_after (pd.len df)). }
  assert (fetched2 = []) as ->.
  { assert (filter (λ i, recorded rows1 i = None) (seq 0 (pd.len df)) = []) as Hnil.
    { destruct (filter (λ i, recorded rows1 i = None) (seq 0 (pd.len df)))
        as [|i l] eqn:Hf; [done|].
      assert (i ∈ filter (λ i, recorded rows1 i = None) (seq 0 (pd.len df))) as Hi
        by (rewrite Hf; left).
      apply list_elem_of_filter in Hi as [Hnone Hi%elem_of_seq].
      rewrite Hrec in Hnone by lia. done. }
    rewrite Hnil in Hfetched2. by apply Permutation_nil_r in Hfetched2. }
  exists w1, w2. split; [done|]. split; [done|].
  split; [by rewrite Hlookups2, app_nil_r|]. split; [|split].
  - rewrite app_nil_r in Hstore2. rewrite Hrows1. unfold store_is in Hstore2.
    destruct (fs w2 !! progress_file) as [s2|]; [apply Hstore2|done].
  - rewrite Hout1, Hout2. do 2 f_equal.
    assert (Ret df2 = Ret df1) as [= ->]; [|done].
    rewrite <- Hassign1, <- Hassign2. f_equal. apply map_ext_in.
    intros i Hi%list_elem_of_In%elem_of_seq. rewrite Hrec by lia. done.
  - by rewrite Hout1.
Qed.

Lemma five_done_is_store : is_store 12 five_done.
Proof.
  split; [reflexivity|]. unfold five_done. cbn [pd.rows].
  constructor; [eexists 0, _, _; split; [reflexivity|]; split; [lia|done]|].
  constructor; [eexists 1, _, _; split; [reflexivity|]; split; [lia|done]|].
  constructor; [eexists 2, _, _; split; [reflexivity|]; split; [lia|done]|].
  constructor; [eexists 3, _, _; split; [reflexivity|]; split; [lia|done]|].
  constructor; [eexists 4, _, _; split; [reflexivity|]; split; [lia|done]|].
  constructor.
Qed.

Lemma cleanup_second_run_fetches_nothing_witness :
  let w := disk [("movies.csv", movies 12); ("movies_progress.csv", five_done)] in
  let w1 := (cleanup_script.add_imdb_ratings ia_catalogue in_order "movies.csv" w).2 in
  filter is_lookup
    (trace (cleanup_script.add_imdb_ratings ia_catalogue last_first "movies.csv" w1).2)
  = filter is_lookup (trace w1).
Proof.
  intros w w1. subst w1.
  destruct (cleanup_second_run_fetches_nothing ia_catalogue in_order last_first
              "movies.csv" w (movies 12) (titles 12) eq_refl eq_refl eq_refl)
    as (w1 & w2 & Hrun1 & Hrun2 & Hlook & _).
  - change (is_store 12 five_done). apply five_done_is_store.
  - rewrite Hrun1. cbn [snd]. rewrite Hrun2. exact Hlook.
Defined.

(** ** Runs of [imdb_rating_script.py] *)

Lemma submit_loop_gen {A B} (task : nat → A) (g : nat → B) k a tasks last :
  foldl (λ '(tasks, _) b, (tasks ++ [task b], Some (g b))) (tasks, last) (seq a k)
  = (tasks ++ map task (seq a k),
     match k with 0 => last | S k' => Some (g (a + k')) end).
Proof.
  revert a tasks last. induction k as [|k IH]; intros a tasks last.
  - simpl. by rewrite app_nil_r.
  - cbn [seq foldl]. rewrite IH. rewrite <- app_assoc. f_equal.
    destruct k; f_equal; f_equal; lia.
Qed.

(** The collection of [imdb_rating_script.py] writes at the start index
    of the last batch submitted and after it: the entries before it stay
    as the list was initialised. *)
Lemma imdb_collect_ratings_early ia sched df_titles todo len_df progress_file w ratings w' :
  imdb_rating_script.collect_ratings ia sched df_titles todo len_df progress_file w
    = (Ret ratings, w') →
  ∀ i, i < 5 * ((length todo + 5 - 1) `div` 5 - 1) → i < len_df →
       ratings !! i = Some PyNone.
Proof.
  unfold imdb_rating_script.collect_ratings. cbv zeta.
  set (B := (length todo + 5 - 1) `div` 5).
  match goal with
  | |- context [foldl ?f ?a ?l] =>
      assert (foldl f a l
              = (map (λ b, imdb_rating_script.process_titles ia df_titles (b * 5)
                             ((b * 5 + 5) `min` length todo) progress_file) (seq 0 B),
                 match B with
                 | 0 => None
                 | S k => Some ((0 + k) * 5)
                 end)) as ->
        by exact (submit_loop_gen
                    (λ b, imdb_rating_script.process_titles ia df_titles (b * 5)
                            ((b * 5 + 5) `min` length todo) progress_file)
                    (λ b, b * 5) B 0 [] None)
  end.
  intros H i Hi Hlt. inv_bind H as futures w1 Hpool.
  set (P := λ r : list pyval,
         length r = len_df ∧ ∀ j, j < 5 * (B - 1) → j < len_df → r !! j = Some PyNone).
  assert (P ratings) as [_ HP]; [|by apply HP].
  revert H. apply (for_inv P).
  2:{ split; [apply length_replicate|]. intros j _ Hj. by apply lookup_replicate_2. }
  intros acc future w2 acc' w3 Hacc H.
  inv_bind H as batch_ratings w4 Hfuture.
  revert H. apply (for_inv P); [|done].
  intros acc1 [k rating] w5 acc2 w6 [Hlen1 Hacc1] H.
  inv_bind H as start w7 Hstart. apply lift_inv in Hstart as [Hstart ->].
  destruct B as [|B']; [done|]. injection Hstart as <-.
  case_bool_decide as Hin.
  - apply lift_inv in H as [H _]. rewrite setitem_nat in H by done. injection H as <-.
    split; [by rewrite length_insert|]. intros j Hj Hj'.
    rewrite list_lookup_insert_ne by lia. apply Hacc1; lia.
  - injection H as <- _. by split.
Qed.

(** X18.  A run of [imdb_rating_script.py] without a progress file that
    completes leaves the rating of every row before the last batch
    empty: on a dataset of more than five rows the column [IMDB_Rating]
    of the output file has an empty cell in row 0, and in every row up
    to the start of the last batch of five, whatever the client returns
    and in whatever order the batches complete. *)
Theorem imdb_rows_before_the_last_batch_stay_empty (ia : IMDb) (sched : schedule)
    (input_file : string) (w w' : world) (df : pd.DataFrame) :
  let progress_file := Str.replace input_file ".csv" "_progress.csv" in
  let output_file := Str.replace input_file ".csv" "_Modified.csv" in
  let num_batches := (pd.len df + 5 - 1) `div` 5 in
  fs w !! input_file = Some df →
  "title" ∈ pd.columns df → "IMDB_Rating" ∉ pd.columns df →
  fs w !! progress_file = None →
  imdb_rating_script.add_imdb_ratings ia sched input_file w = (Ret (), w') →
  ∃ out cells,
    fs w' !! output_file = Some out
    ∧ pd.column "IMDB_Rating" out = Ret cells
    ∧ ∀ i, i < 5 * (num_batches - 1) → cells !! i = Some NaN.
Proof.
  intros progress_file output_file num_batches Hf Ht Hnew Hnone H.
  apply has_column_true in Ht.
  unfold imdb_rating_script.add_imdb_ratings in H.
  inv_bind H as df0 w0 Hread.
  apply read_csv_inv in Hread as [Hdf ->]. rewrite Hf in Hdf. injection Hdf as <-.
  rewrite Ht in H. cbn [negb] in H. fold progress_file output_file in H.
  rewrite (bind_ret _ _ _ _ _ (path_exists_none _ (logged w _) Hnone)) in H.
  inv_bind H as todo w2 H2. apply lift_inv in H2 as [Htodo ->].
  inv_bind H as df_titles w3 H3. apply lift_inv in H3 as [Htitles ->].
  inv_bind H as ratings w4 H4.
  inv_bind H as df' w5 Hassign. apply lift_inv in Hassign as [Hassign ->].
  inv_bind H as u w6 Hwrite. unfold to_csv in Hwrite. injection Hwrite as _ <-.
  rewrite print_eq in H. injection H as <-.
  destruct (column_ok _ _ _ Htodo) as [_ Hlen].
  exists (pd.csv df'), (map pd.csv_cell ratings).
  split; [cbn [logged fs]; by rewrite lookup_insert_eq|].
  split; [by apply column_csv, (column_assign_new _ _ df)|].
  intros i Hi. rewrite map_is_fmap, list_lookup_fmap.
  rewrite (imdb_collect_ratings_early _ _ _ _ _ _ _ _ _ H4 i); [done| |].
  - rewrite Hlen. exact Hi.
  - subst num_batches.
    assert ((pd.len df + 5 - 1) `div` 5 * 5 ≤ pd.len df + 5 - 1)%nat
      by (rewrite Nat.mul_comm; apply Nat.Div0.mul_div_le).
    lia.
Qed.

Lemma imdb_rows_before_the_last_batch_stay_empty_witness :
  let w := disk [("movies.csv", movies 12)] in
  ∃ out cells,
    fs (imdb_rating_script.add_imdb_ratings ia_catalogue in_order "movies.csv" w).2
      !! "movies_Modified.csv" = Some out
    ∧ pd.column "IMDB_Rating" out = Ret cells
    ∧ cells !! 0 = Some NaN ∧ cells !! 9 = Some NaN.
Proof.
  intros w.
  destruct (imdb_rows_before_the_last_batch_stay_empty ia_catalogue in_order "movies.csv" w
              (imdb_rating_script.add_imdb_ratings ia_catalogue in_order "movies.csv" w).2
              (movies 12) eq_refl)
    as (out & cells & Hfile & Hcol & Hcells);
    [compute_done | compute_done | reflexivity | vm_compute; reflexivity |].
  exists out, cells. split; [exact Hfile|]. split; [exact Hcol|].
  split; apply Hcells; vm_compute; lia.
Defined.

(** X19.  A progress file without an [Index] column ends a run of either
    script with [KeyError], from [progress_df['Index']], before any
    lookup: the run has read the dataset and the progress file and has
    written nothing. *)
Theorem progress_file_without_Index (ia : IMDb) (sched : schedule) (input_file : string)
    (w : world) (df store : pd.DataFrame) :
  let progress_file := Str.replace input_file ".csv" "_progress.csv" in
  fs w !! input_file = Some df →
  "title" ∈ pd.columns df →
  fs w !! progress_file = Some store →
  "Index" ∉ pd.columns store →
  imdb_rating_script.add_imdb_ratings ia sched input_file w
    = (Raise KeyError, logged w [ReadCsv input_file; ReadCsv progress_file])
  ∧ cleanup_script.add_imdb_ratings ia sched input_file w
    = (Raise KeyError, logged w [ReadCsv input_file; ReadCsv progress_file]).
Proof.
  intros progress_file Hf Ht%has_column_true Hp Hi.
  unfold imdb_rating_script.add_imdb_ratings, cleanup_script.add_imdb_ratings.
  rewrite !(bind_ret (read_csv _) _ w df _ (read_csv_some _ _ _ Hf)).
  rewrite Ht. cbn [negb]. fold progress_file.
  rewrite !(bind_ret (path_exists _) _ _ true _
             (path_exists_some _ (logged w [ReadCsv input_file]) store Hp)).
  split.
  - apply bind_raise.
    rewrite (bind_ret (read_csv _) _ _ store _ (read_csv_some _ (logged w _) _ Hp)).
    rewrite (column_missing "Index") by done. by rewrite logged_logged.
  - apply bind_raise.
    rewrite (bind_ret (read_csv _) _ _ store _ (read_csv_some _ (logged w _) _ Hp)).
    rewrite (column_missing "Index") by done. by rewrite logged_logged.
Qed.

Lemma progress_file_without_Index_witness :
  let notes := {| pd.columns := ["Title"; "Rating"];
                  pd.rows := [[PyStr "Alien"; PyFloat 85]] |} in
  let w := disk [("movies.csv", movies 3); ("movies_progress.csv", notes)] in
  cleanup_script.add_imdb_ratings ia_catalogue in_order "movies.csv" w
  = (Raise KeyError, logged w [ReadCsv "movies.csv"; ReadCsv "movies_progress.csv"]).
Proof.
  intros notes w.
  apply (progress_file_without_Index ia_catalogue in_order "movies.csv" w (movies 3) notes
           eq_refl); [compute_done | reflexivity | compute_done].
Defined.

(** The retry loops of the two scripts: what the one of
    [imdb_rating_script.py] returns, the one of [cleanup_script.py]
    returns, after the same steps. *)
Lemma retry_loops_agree ia title (ks : list nat) :
  ∀ w r w',
    for_return ks (imdb_rating_script.try_once ia title 5) w = (Ret r, w') →
    for_return ks (cleanup_script.try_once ia title 5) w = (Ret r, w').
Proof.
  induction ks as [|k ks IH]; intros w r w' H; [done|].
  cbn [for_return] in *. unfold mbind, M_bind in *.
  rewrite imdb_try_once in H. rewrite cleanup_try_once.
  destruct (outcome_of (ia title k) title) as [movie rest updated| |e evs]; [done..|].
  cbv zeta. destruct (decide (e = Timeout)) as [->|H1].
  - by apply IH.
  - destruct (decide (e = RequestException)) as [->|H2]; [by apply IH|done].
Qed.

(** X20.  Whenever the fetch of [imdb_rating_script.py] returns, the
    fetch of [cleanup_script.py] returns the same rating after the same
    lookups, warnings and delays: the two differ only where the first
    raises [NameError]. *)
Theorem fetchers_agree_when_imdb_returns (ia : IMDb) (title : pyval) (w : world)
    (rating : pyval) (w' : world) :
  imdb_rating_script.get_imdb_rating ia title w = (Ret rating, w') →
  cleanup_script.get_imdb_rating ia title w = (Ret rating, w').
Proof.
  rewrite imdb_get_imdb_rating_unfold, cleanup_get_imdb_rating_unfold. intros H.
  inv_bind H as r w1 Hloop. apply retry_loops_agree in Hloop.
  by rewrite (bind_ret _ _ _ _ _ Hloop).
Qed.

Lemma fetchers_agree_when_imdb_returns_witness :
  let flaky : IMDb :=
    λ _ k, match k with 0 => raising RequestException | _ => rated (PyFloat 85) end in
  (cleanup_script.get_imdb_rating flaky (PyStr "Alien") (disk [])).1 = Ret (PyFloat 85).
Proof.
  intros flaky.
  rewrite (fetchers_agree_when_imdb_returns flaky (PyStr "Alien") (disk []) (PyFloat 85)
             (imdb_rating_script.get_imdb_rating flaky (PyStr "Alien") (disk [])).2);
    [reflexivity | vm_compute; reflexivity].
Defined.

Lemma imdb_fetch_returns_rating_of ia title w rating w' :
  imdb_rating_script.get_imdb_rating ia title w = (Ret rating, w') →
  rating = rating_of ia title.
Proof.
  rewrite imdb_get_imdb_rating_unfold. intros H.
  inv_bind H as r w1 Hloop. apply retry_loops_agree in Hloop.
  pose proof (cleanup_fetch ia title w) as Hfetch.
  rewrite cleanup_get_imdb_rating_unfold, (bind_ret _ _ _ _ _ Hloop) in Hfetch.
  unfold mret, M_ret in H, Hfetch. congruence.
Qed.

(** The ratings a worker of [imdb_rating_script.py] returns. *)
Lemma imdb_batch_loop ia titles (start_index end_index : nat) k :
  ∀ a rs ps w rs' ps' w',
    for_ (seq a k) (rs, ps)
      (λ '(ratings, progress) index,
         title ← lift (getitem titles index);
         rating ← imdb_rating_script.get_imdb_rating ia title;
         (if bool_decide ((index - start_index + 1) `mod` 1 = 0)
          then print (Processing None (Z.of_nat index - Z.of_nat start_index + 1)
                        (Z.of_nat end_index - Z.of_nat start_index))
          else mret ());;
         mret (ratings ++ [rating], progress ++ [(index, title, rating)])) w
    = (Ret (rs', ps'), w') →
    rs' = rs ++ map (λ i, rating_of ia (title_at titles i)) (seq a k).
Proof.
  induction k as [|k IH]; intros a rs ps w rs' ps' w' H.
  - injection H as <- _ _. by rewrite app_nil_r.
  - cbn [seq for_] in H. inv_bind H as acc w1 Hbody. destruct acc as [rs1 ps1].
    apply IH in H as ->.
    inv_bind Hbody as title w2 Htitle. apply lift_inv in Htitle as [Htitle ->].
    inv_bind Hbody as rating w3 Hrating. inv_bind Hbody as u w4 Hprint.
    injection Hbody as <- _ _.
    apply imdb_fetch_returns_rating_of in Hrating as ->.
    assert (title = title_at titles a) as ->.
    { unfold getitem in Htitle. unfold title_at.
      destruct (titles !! a); [by injection Htitle as ->|done]. }
    cbn [seq map]. by rewrite <- app_assoc.
Qed.

Lemma imdb_process_titles_ratings ia titles start_index end_index progress_file w ratings w' :
  imdb_rating_script.process_titles ia titles start_index end_index progress_file w
    = (Ret ratings, w') →
  ratings = map (λ i, rating_of ia (title_at titles i))
              (seq start_index (end_index - start_index)).
Proof.
  unfold imdb_rating_script.process_titles. intros H.
  inv_bind H as acc w1 Hloop. destruct acc as [rs ps].
  inv_bind H as u w2 Hsave. injection H as <- _.
  by apply imdb_batch_loop in Hloop.
Qed.

Lemma permute_singleton {A} (picks : list nat) (x : A) : permute picks [x] = [x].
Proof.
  destruct picks as [|p picks]; [done|]. cbn [permute length].
  rewrite Nat.mod_1_r. cbn. by rewrite permute_nil.
Qed.

(** The collection of one batch: its ratings, from the start of the list. *)
Lemma collect_one_batch (batch_ratings : list pyval) :
  ∀ (k : nat) (ratings : list pyval) w,
    (k + length batch_ratings ≤ length ratings)%nat →
    for_ (imap (λ i rating, (k + i, rating)) batch_ratings) ratings
      (λ ratings '(i, rating),
         start_index ← lift (local (Some 0));
         let index := start_index + i in
         if bool_decide (index < length ratings)
         then lift (setitem ratings (Z.of_nat index) rating)
         else mret ratings) w
    = (Ret (take k ratings ++ batch_ratings ++ drop (k + length batch_ratings) ratings), w).
Proof.
  induction batch_ratings as [|rating rest IH]; intros k ratings w Hlen.
  - cbn [imap for_ length app]. rewrite Nat.add_0_r, take_drop. done.
  - cbn [imap for_]. cbn [length] in Hlen.
    rewrite (bind_ret _ _ w (<[k := rating]> ratings) w).
    2:{ rewrite (bind_ret (lift _) _ w 0 w) by done. cbn [Nat.add].
        rewrite Nat.add_0_r.
        assert (k < length ratings) as Hk by (cbn [length] in Hlen; lia).
        rewrite (bool_decide_eq_true_2 _ Hk).
        unfold lift. rewrite setitem_nat by lia. done. }
    rewrite (imap_ext _ (λ i rating, (S k + i, rating)))
      by (intros; unfold compose; f_equal; lia).
    rewrite IH by (rewrite length_insert; lia).
    rewrite (take_S_r _ _ rating) by (apply list_lookup_insert_eq; lia).
    rewrite take_insert_ge by lia. rewrite drop_insert_lt by lia.
    cbn [length]. rewrite <- app_assoc. cbn [app].
    by replace (S k + length rest) with (k + S (length rest)) by lia.
Qed.

(** The rating list of a run of [imdb_rating_script.py] over at most
    five rows, all of them to process: one batch, its ratings. *)
Lemma imdb_collect_ratings_small ia sched titles progress_file w ratings w' :
  (length titles ≤ 5)%nat →
  imdb_rating_script.collect_ratings ia sched titles titles (length titles) progress_file w
    = (Ret ratings, w') →
  ratings = map (rating_of ia) titles.
Proof.
  intros Hlen. unfold imdb_rating_script.collect_ratings. cbv zeta.
  destruct (decide (length titles = 0)) as [Hnil|Hsome].
  - rewrite Hnil. apply length_zero_iff_nil in Hnil. subst titles.
    change ((0 + 5 - 1) `div` 5) with 0. cbn [seq foldl].
    unfold run_pool, as_completed. cbn [imap seq]. rewrite !permute_nil.
    intros H. by injection H as <- _.
  - assert ((length titles + 5 - 1) `div` 5 = 1) as ->.
    { symmetry. apply (Nat.div_unique _ 5 1 (length titles - 1)); lia. }
    cbn [seq foldl app]. unfold run_pool. cbn [imap]. rewrite permute_singleton.
    cbn [for_]. unfold as_completed. cbn [seq]. rewrite permute_singleton.
    intros H. inv_bind H as futures w1 Hpool.
    inv_bind Hpool as futures1 w2 Htask. inv_bind Htask as r w3 Hrun.
    injection Htask as <- <-. injection Hpool as <- <-.
    unfold run_task in Hrun.
    destruct (imdb_rating_script.process_titles ia titles (0 * 5)
                ((0 * 5 + 5) `min` length titles) progress_file w) as [r0 w0] eqn:Hworker.
    injection Hrun as <- <-.
    cbn [omap list_omap] in H. rewrite lookup_insert_eq in H. cbn [for_] in H.
    change (0 * 5) with 0 in H, Hworker.
    inv_bind H as collected w4 Hbatch. injection H as <- <-.
    inv_bind Hbatch as batch_ratings w5 Hfuture. apply lift_inv in Hfuture as [-> ->].
    apply imdb_process_titles_ratings in Hworker as Hratings.
    replace ((0 + 5) `min` length titles - 0) with (length titles) in Hratings by lia.
    rewrite map_title_at in Hratings.
    assert (length batch_ratings = length titles) as Hbl by (by rewrite Hratings, length_map).
    rewrite <- (imap_ext (λ i rating, (0 + i, rating))) in Hbatch by done.
    rewrite collect_one_batch in Hbatch by (rewrite length_replicate; lia).
    injection Hbatch as <- _. cbn [take app Nat.add].
    rewrite Hbl, drop_replicate, Nat.sub_diag. cbn [replicate].
    by rewrite app_nil_r.
Qed.

(** X21.  A run of [imdb_rating_script.py] without a progress file on a
    dataset of at most five rows, one batch: when it completes, the
    column [IMDB_Rating] of the output file holds the rating fetched for
    the title of each row, in the order of the rows. *)
Theorem imdb_one_batch_run_rates_every_row (ia : IMDb) (sched : schedule)
    (input_file : string) (w w' : world) (df : pd.DataFrame) (titles : list pyval) :
  let progress_file := Str.replace input_file ".csv" "_progress.csv" in
  let output_file := Str.replace input_file ".csv" "_Modified.csv" in
  fs w !! input_file = Some df →
  pd.column "title" df = Ret titles →
  "IMDB_Rating" ∉ pd.columns df →
  fs w !! progress_file = None →
  (pd.len df ≤ 5)%nat →
  imdb_rating_script.add_imdb_ratings ia sched input_file w = (Ret (), w') →
  ∃ out,
    fs w' !! output_file = Some out
    ∧ pd.column "IMDB_Rating" out
      = Ret (map (λ title, pd.csv_cell (rating_of ia title)) titles).
Proof.
  intros progress_file output_file Hf Htitles Hnew Hnone Hsmall H.
  destruct (column_ok _ _ _ Htitles) as [Ht Hlen].
  unfold imdb_rating_script.add_imdb_ratings in H.
  inv_bind H as df0 w0 Hread.
  apply read_csv_inv in Hread as [Hdf ->]. rewrite Hf in Hdf. injection Hdf as <-.
  rewrite Ht in H. cbn [negb] in H. fold progress_file output_file in H.
  rewrite (bind_ret _ _ _ _ _ (path_exists_none _ (logged w _) Hnone)) in H.
  rewrite Htitles in H.
  rewrite (bind_ret (lift _) _ _ titles _ eq_refl) in H.
  rewrite (bind_ret (lift _) _ _ titles _ eq_refl) in H.
  inv_bind H as ratings w4 H4.
  inv_bind H as df' w5 Hassign. apply lift_inv in Hassign as [Hassign ->].
  inv_bind H as u w6 Hwrite. unfold to_csv in Hwrite. injection Hwrite as _ <-.
  rewrite print_eq in H. injection H as <-.
  rewrite <- Hlen in H4. apply imdb_collect_ratings_small in H4 as ->; [|lia].
  exists (pd.csv df'). split; [cbn [logged fs]; by rewrite lookup_insert_eq|].
  apply (column_assign_new _ _ df) in Hassign; [|done]. apply column_csv in Hassign.
  by rewrite Hassign, map_map.
Qed.

Lemma imdb_one_batch_run_rates_every_row_witness :
  let w := disk [("movies.csv", movies 5)] in
  ∃ out,
    fs (imdb_rating_script.add_imdb_ratings ia_catalogue last_first "movies.csv" w).2
      !! "movies_Modified.csv" = Some out
    ∧ pd.column "IMDB_Rating" out
      = Ret [PyFloat 85; PyFloat 79; PyFloat 85; PyFloat 80; PyFloat 73].
Proof.
  intros w.
  destruct (imdb_one_batch_run_rates_every_row ia_catalogue last_first "movies.csv" w
              (imdb_rating_script.add_imdb_ratings ia_catalogue last_first "movies.csv" w).2
              (movies 5) (titles 5) eq_refl eq_refl)
    as (out & Hfile & Hcol);
    [compute_done | reflexivity | vm_compute; lia | vm_compute; reflexivity |].
  exists out. split; [exact Hfile|]. rewrite Hcol. vm_compute. reflexivity.
Defined.
